(** * Verification of [src/train.py]: perceptual loss, tiling and the training loop

    The numeric code of [train.py] works on float32 tensors.  This
    development reads the arithmetic of the loss over exact rationals
    ([Q]): there rounding, overflow to infinity and NaN are outside the
    model.  The scaling and the cast to bytes of [save_images] are
    modelled with the rounding of float32 and the conversion through a
    32-bit integer, its inputs being float32 values read as rationals.
    Tensors are nested lists in the axis order of the source,
    [batch, rows, cols, channels]. *)

From Stdlib Require Import String Ascii Bool Arith ZArith QArith Qminmax Qabs
  Lia Lqa DecimalString DecimalNat Permutation List.
Import ListNotations.

Local Open Scope Q_scope.

(** ** Error monad for operations that raise *)

Definition bind {A B} (m : option A) (f : A -> option B) : option B :=
  match m with
  | Some a => f a
  | None => None
  end.

Notation "x <- m ;; k" := (bind m (fun x => k))
  (at level 61, m at next level, right associativity).

Fixpoint mapM {A B} (f : A -> option B) (l : list A) : option (list B) :=
  match l with
  | [] => Some []
  | a :: l' => b <- f a ;; bs <- mapM f l' ;; Some (b :: bs)
  end.

(** ** Tensors *)

Abbreviation pixel := (list Q) (only parsing).
Abbreviation image := (list (list (list Q))) (only parsing).
Abbreviation tensor := (list (list (list (list Q)))) (only parsing).

(** [tf.shape(t)]: the dynamic shape; the extents of the inner axes are
    read off the first element. *)
Definition dim_rows (t : tensor) : nat := length (hd [] t).
Definition dim_cols (t : tensor) : nat := length (hd [] (hd [] t)).
Definition dim_chans (t : tensor) : nat := length (hd [] (hd [] (hd [] t))).

Definition has_shape_img (R C K : nat) (img : image) : bool :=
  (length img =? R)%nat
  && forallb (fun row => (length row =? C)%nat
                         && forallb (fun px : pixel => (length px =? K)%nat) row) img.

Definition has_shape (B R C K : nat) (t : tensor) : bool :=
  (length t =? B)%nat && forallb (has_shape_img R C K) t.

(** Element access with the default [0] outside the shape. *)
Definition at4 (t : tensor) (b r c k : nat) : Q :=
  let img : image := nth b t [] in
  let row : list pixel := nth r img [] in
  let px : pixel := nth c row [] in
  nth k px 0.

(** *** Broadcasting binary operations

    One axis of a binary elementwise operation: an axis of extent 1 is
    stretched to the other operand's extent, equal extents are paired,
    anything else is a shape error. *)

Fixpoint zip_with_opt {A B C} (f : A -> B -> option C)
  (xs : list A) (ys : list B) : option (list C) :=
  match xs, ys with
  | [], [] => Some []
  | x :: xs', y :: ys' =>
      c <- f x y ;; cs <- zip_with_opt f xs' ys' ;; Some (c :: cs)
  | _, _ => None
  end.

Definition bcast {A B C} (f : A -> B -> option C)
  (xs : list A) (ys : list B) : option (list C) :=
  match xs, ys with
  | [x], _ => mapM (f x) ys
  | _, [y] => mapM (fun x => f x y) xs
  | _, _ => zip_with_opt f xs ys
  end.

Definition lift4 (op : Q -> Q -> Q) (s t : tensor) : option tensor :=
  bcast (bcast (bcast (bcast (fun x y => Some (op x y))))) s t.

Definition tf_sub : tensor -> tensor -> option tensor := lift4 Qminus.
Definition tf_mul : tensor -> tensor -> option tensor := lift4 Qmult.

Definition map4 (f : Q -> Q) (t : tensor) : tensor :=
  map (map (map (map f))) t.

Definition tf_abs : tensor -> tensor := map4 Qabs.

(** A Python float times a tensor. *)
Definition scalar_mul (w : Q) : tensor -> tensor := map4 (Qmult w).

Definition sumQ (l : list Q) : Q := fold_right Qplus 0 l.

Definition reduce_sum (t : tensor) : Q :=
  sumQ (map (fun img => sumQ (map (fun row => sumQ (map sumQ row)) img)) t).

(** [tf.reduce_min] and [tf.reduce_mean] of a Python list of scalars (the
    list is packed into a rank-1 tensor).  On an empty list TensorFlow
    yields [+inf] and NaN, which have no rational value. *)
Definition reduce_min (l : list Q) : option Q :=
  match l with
  | [] => None
  | x :: l' => Some (fold_left Qmin l' x)
  end.

Definition reduce_mean (l : list Q) : option Q :=
  match l with
  | [] => None
  | _ => Some (sumQ l / inject_Z (Z.of_nat (length l)))
  end.

(** Python slice [l[lo:hi]] for [0 <= lo], [0 <= hi]. *)
Definition py_slice {A} (lo hi : nat) (l : list A) : list A :=
  skipn lo (firstn hi l).

(** [img[:, :, lo:hi]] *)
Definition slice_chans3 {A} (lo hi : nat) (img : list (list (list A)))
  : list (list (list A)) :=
  map (map (py_slice lo hi)) img.

(** [t[:, :, :, lo:hi]] *)
Definition slice_chans4 {A} (lo hi : nat) (t : list (list (list (list A))))
  : list (list (list (list A))) :=
  map (slice_chans3 lo hi) t.

(** ** [vgg_19_evaluate] and [build_loss_func] *)

Definition vgg_mean : pixel := [103.939; 116.779; 123.68].

(** [image * 255.0 - vgg_mean]: the rank-1 constant is broadcast along
    the channel axis.  [None] is the shape error TensorFlow raises when
    the operation is added to the graph. *)
Definition normalize (image : tensor) : option tensor :=
  tf_sub (map4 (fun x => x * 255.0) image) [[[vgg_mean]]].

Definition end_points := string -> option tensor.

Definition layers : list string :=
  [ "input";
    "vgg_19/conv1/conv1_2";
    "vgg_19/conv2/conv2_2";
    "vgg_19/conv3/conv3_2";
    "vgg_19/conv4/conv4_2";
    "vgg_19/conv5/conv5_2" ]%string.

Definition lambda_weights : list Q := [0.88; 0.79; 0.63; 0.51; 0.39; 1.07].

Definition collection_size : nat := 9.

(** The two tensors of the generator that the loss reads. *)
Record SGRU := { image_bw : tensor; images_rgb_fake : tensor }.

Section Loss.

(** [tf.contrib.slim.nets.vgg.vgg_19(image, is_training=False)], second
    component: the dictionary of named activations. *)
Variable vgg_19 : tensor -> end_points.
(** [tf.image.resize_images(images, size)] *)
Variable resize_images : tensor -> nat * nat -> tensor.

Definition vgg_19_evaluate (image : tensor) : option end_points :=
  image_normalized <- normalize image ;;
  Some (vgg_19 image).

(** Lines 64-70: the body of the inner loop once the two activations
    are chosen. *)
Definition loss_inner (bw act_fake act_real : tensor) (weight : Q)
  : option Q :=
  let mask := resize_images bw (dim_rows act_fake, dim_cols act_fake) in
  diff <- tf_sub act_fake act_real ;;
  loss_inner <- tf_mul (scalar_mul weight mask) (tf_abs diff) ;;
  Some (reduce_sum loss_inner).

(** Lines 57-62. *)
Definition activations (image_rgb_fake image_rgb_real : tensor)
  (end_points_fake end_points_real : end_points) (layer : string)
  : option (tensor * tensor) :=
  if String.eqb layer "input" then Some (image_rgb_fake, image_rgb_real)
  else
    act_fake <- end_points_fake layer ;;
    act_real <- end_points_real layer ;;
    Some (act_fake, act_real).

(** One iteration of the outer loop (lines 50-76), for candidate [i]. *)
Definition loss_collection (weights : list Q) (bw fakes image_rgb_real : tensor)
  (end_points_real : end_points) (i : nat) : option Q :=
  let image_rgb_fake := slice_chans4 (i * 3) ((i + 1) * 3) fakes in
  end_points_fake <- vgg_19_evaluate image_rgb_fake ;;
  losses_collection <-
    mapM (fun wl : Q * string =>
            acts <- activations image_rgb_fake image_rgb_real
                      end_points_fake end_points_real (snd wl) ;;
            loss_inner bw (fst acts) (snd acts) (fst wl))
         (combine weights layers) ;;
  Some (sumQ losses_collection).

(** Lines 78-80. *)
Definition blend (losses : list Q) : option Q :=
  loss_min <- reduce_min losses ;;
  loss_mean <- reduce_mean losses ;;
  Some (loss_min * 0.999 + loss_mean * 0.001).

(** [build_loss_func] with the weight list and the number of candidates
    as arguments; the source fixes both. *)
Definition build_loss_func_with (weights : list Q) (n : nat)
  (sgru_model : SGRU) (image_rgb_real : tensor) : option Q :=
  end_points_real <- vgg_19_evaluate image_rgb_real ;;
  losses <- mapM (loss_collection weights (image_bw sgru_model)
                    (images_rgb_fake sgru_model) image_rgb_real end_points_real)
                 (seq 0 n) ;;
  blend losses.

Definition build_loss_func : SGRU -> tensor -> option Q :=
  build_loss_func_with lambda_weights collection_size.

End Loss.

(** ** [save_images] *)

(** Arrays of [np.uint8]. *)
Abbreviation upixel := (list Z) (only parsing).
Abbreviation uimage := (list (list (list Z))) (only parsing).
Abbreviation utensor := (list (list (list (list Z)))) (only parsing).

(** [np.minimum(np.maximum(x, 0.0), 1.0)] on one element. *)
Definition clip01 (x : Q) : Q := Qmin (Qmax x 0) 1.

(** Truncation toward zero. *)
Definition Qtrunc (x : Q) : Z := Z.quot (Qnum x) (Zpos (Qden x)).

(** *** Rounding to float32

    A float32 is [m * 2 ^ e] with a significand [m] of at most 24 bits
    and [e >= -149]; the result of an operation is the float32 nearest
    to the exact result, ties going to the even significand. *)

(** The integer nearest to [p / q] for [0 < q], ties to the even one. *)
Definition round_half_even (p q : Z) : Z :=
  let f := (p / q)%Z in
  match (2 * (p mod q) ?= q)%Z with
  | Lt => f
  | Gt => (f + 1)%Z
  | Eq => if Z.even f then f else (f + 1)%Z
  end.

(** The integer part of the binary logarithm of [n / d], for [0 < n]. *)
Definition floor_log2 (n : Z) (d : positive) : Z :=
  if (Zpos d <=? n)%Z then Z.log2 (n / Zpos d)
  else (- Z.log2_up ((Zpos d + n - 1) / n))%Z.

(** The exponent of the last place of the float32 next to [n / d]:
    24 significant bits, and no finer than the subnormal step. *)
Definition ulp_exponent (n : Z) (d : positive) : Z :=
  Z.max (floor_log2 n d - 23) (-149).

(** [n / d] in units of [2 ^ e], rounded. *)
Definition significand (e n : Z) (d : positive) : Z :=
  if (0 <=? e)%Z then round_half_even n (Zpos d * 2 ^ e)
  else round_half_even (n * 2 ^ (- e)) (Zpos d).

(** The rational [m * 2 ^ e]. *)
Definition scale_pow2 (m e : Z) : Q :=
  if (0 <=? e)%Z then inject_Z (m * 2 ^ e) else m # Z.to_pos (2 ^ (- e)).

(** The float32 nearest to [x].  A result beyond the largest float32 is
    infinite in the source; it is left finite here, which the cast below
    cannot tell apart: both convert to the byte 0. *)
Definition round_float32 (x : Q) : Q :=
  let r := Qred x in
  let n := Z.abs (Qnum r) in
  if (n =? 0)%Z then 0
  else let e := ulp_exponent n (Qden r) in
       scale_pow2 (Z.sgn (Qnum r) * significand e n (Qden r)) e.

Definition in_int32 (t : Z) : bool := (- 2 ^ 31 <=? t)%Z && (t <? 2 ^ 31)%Z.

(** [.astype(np.uint8)] on one float32: the fractional part is dropped,
    the integer is converted to 32 bits and its low eight bits are kept.
    A value that does not fit 32 bits converts to [0x80000000] (the
    conversion instruction of x86), whose low byte is 0. *)
Definition astype_uint8 (y : Q) : Z :=
  let t := Qtrunc y in
  if in_int32 t then (t mod 256)%Z else 0%Z.

(** [(batch * 255).astype(np.uint8)]: the product is a float32. *)
Definition scale_cast (batch : tensor) : utensor :=
  map (map (map (map (fun x => astype_uint8 (round_float32 (x * 255)))))) batch.

Definition width {A} (img : list (list (list A))) : nat := length (hd [] img).
Definition chans {A} (img : list (list (list A))) : nat :=
  length (hd [] (hd [] img)).

(** [cv2.cvtColor(img, cv2.COLOR_GRAY2BGR)]: the single channel is
    replicated; OpenCV rejects an empty image and any other number of
    channels. *)
Definition cvtColor_GRAY2BGR (img : uimage) : option uimage :=
  if (length img =? 0)%nat || (width img =? 0)%nat then None
  else mapM (mapM (fun px : upixel =>
                     match px with
                     | [g] => Some [g; g; g]
                     | _ => None
                     end)) img.

(** [np.hstack] of two arrays of rank 3: concatenation along axis 1; the
    extents of axes 0 and 2 must agree. *)
Definition hstack2 {A} (a b : list (list (list A)))
  : option (list (list (list A))) :=
  if (chans a =? chans b)%nat
  then zip_with_opt (fun ra rb => Some (ra ++ rb)) a b
  else None.

Definition hstack {A} (tup : list (list (list (list A))))
  : option (list (list (list A))) :=
  match tup with
  | [] => None
  | a :: rest =>
      fold_left (fun acc b => acc' <- acc ;; hstack2 acc' b) rest (Some a)
  end.

(** [np.vstack]: concatenation along axis 0; the extents of axes 1 and 2
    must agree, and the sequence must not be empty. *)
Definition vstack {A} (tup : list (list (list (list A))))
  : option (list (list (list A))) :=
  match tup with
  | [] => None
  | a :: rest =>
      if forallb (fun b => (width b =? width a)%nat && (chans b =? chans a)%nat) rest
      then Some (concat tup)
      else None
  end.

(** One iteration of the loop of lines 98-102. *)
Definition row_image (bw_real_fake : uimage * uimage * uimage) : option uimage :=
  let '(image_bw, image_rgb_real, collection_fake) := bw_real_fake in
  gray <- cvtColor_GRAY2BGR image_bw ;;
  let row := [gray; image_rgb_real]
             ++ map (fun i => slice_chans3 (i * 3) ((i + 1) * 3) collection_fake)
                    (seq 0 9) in
  hstack row.

(** The array [save_images] hands to [cv2.imwrite], or [None] when one of
    the NumPy or OpenCV calls before it raises. *)
Definition save_images (batch_rgb_fake batch_rgb_real batch_bw : tensor)
  : option uimage :=
  let batch_rgb_fake := map4 clip01 batch_rgb_fake in
  let batch_fake := scale_cast batch_rgb_fake in
  let batch_real := scale_cast batch_rgb_real in
  let batch_bw := scale_cast batch_bw in
  row_images <- mapM row_image
                  (combine (combine batch_bw batch_real) batch_fake) ;;
  vstack row_images.

(** ** Command line, file system and the training loop *)

Local Open Scope string_scope.

Record args := {
  data_dir : string;
  output_dir : string;
  batch_size : Z;
  epochs : Z;
  resume : bool;
  save_every : Z;
  num_cpus : Z;
  summarize : bool;
  name : string
}.

(** What [argparse] finds on the command line: the two positionals, and
    each option if it was given. *)
Record cli := {
  cli_data_dir : string;
  cli_output_dir : string;
  cli_batch_size : option Z;
  cli_epochs : option Z;
  cli_resume : bool;
  cli_save_every : option Z;
  cli_num_cpus : option Z;
  cli_summarize : bool;
  cli_name : option string
}.

Definition default {A} (d : A) (o : option A) : A :=
  match o with
  | Some a => a
  | None => d
  end.

(** [timestamp] is the value of [timestamp()] when the parser is built. *)
Definition get_args (timestamp : string) (c : cli) : args :=
  {| data_dir := cli_data_dir c;
     output_dir := cli_output_dir c;
     batch_size := default 1%Z (cli_batch_size c);
     epochs := default 100%Z (cli_epochs c);
     resume := cli_resume c;
     save_every := default 50%Z (cli_save_every c);
     num_cpus := default 4%Z (cli_num_cpus c);
     summarize := cli_summarize c;
     name := default timestamp (cli_name c) |}.

(** [os.path.join] of two components (posixpath). *)
Definition starts_with_sep (s : string) : bool :=
  match s with
  | String c _ => Ascii.eqb c "/"
  | EmptyString => false
  end.

Fixpoint ends_with_sep (s : string) : bool :=
  match s with
  | EmptyString => false
  | String c EmptyString => Ascii.eqb c "/"
  | String _ s' => ends_with_sep s'
  end.

Definition path_join (a b : string) : string :=
  if starts_with_sep b then b
  else if (a =? "") || ends_with_sep a then a ++ b
  else a ++ "/" ++ b.

(** ['{}'.format(n)] for a non-negative integer. *)
Definition format_nat (n : nat) : string :=
  NilEmpty.string_of_uint (Nat.to_uint n).

(** Python's [a % b] on integers; [None] is [ZeroDivisionError]. *)
Definition py_mod (a b : Z) : option Z :=
  if (b =? 0)%Z then None else Some (a mod b)%Z.

(** What the process does to the outside, in the order of the source. *)
Inductive event :=
| EvPlaceholder                       (* tf.placeholder, line 177 *)
| EvBuildModel (summarize : bool)     (* SGRU(summarize=...) *)
| EvBuildLoss                         (* build_loss_func *)
| EvBuildOptimizer                    (* AdamOptimizer(...).minimize *)
| EvCheckpointFn (ckpt : string)      (* assign_from_checkpoint_fn *)
| EvSession                           (* tf.Session() *)
| EvFileWriter (dir : string)         (* tf.summary.FileWriter: creates dir *)
| EvInitVariables                     (* sess.run(init_op); vgg_init_fn *)
| EvImageGenerator (dir : string) (cpus batch : Z)  (* worker processes *)
| EvTrainStep (epoch batch_num : nat) (* the two sess.run of a step *)
| EvAddSummary (global_step : nat)
| EvPrint (epoch batch_num : nat)
| EvMkdir (dir : string)
| EvImwrite (fname : string) (img : uimage)
| EvModelSave (path : string).        (* sgru_model.save(path), line 167 *)

Record world := {
  files : list string;
  dirs : list string;
  trace : list event
}.

Definition mem (p : string) (l : list string) : bool := existsb (String.eqb p) l.

Definition add (p : string) (l : list string) : list string :=
  if mem p l then l else p :: l.

Definition isfile (p : string) (w : world) : bool := mem p (files w).
Definition isdir (p : string) (w : world) : bool := mem p (dirs w).

(** State and exception monad over the world; [None] is a raised
    exception, and what was done before it stays done. *)
Definition M (A : Type) : Type := world -> option A * world.

Definition ret {A} (a : A) : M A := fun w => (Some a, w).

Definition raise {A} : M A := fun w => (None, w).

Definition bindM {A B} (m : M A) (f : A -> M B) : M B :=
  fun w => match m w with
           | (Some a, w') => f a w'
           | (None, w') => (None, w')
           end.

Notation "m >> k" := (bindM m (fun _ => k))
  (at level 62, right associativity).

Definition emit (e : event) : M unit :=
  fun w => (Some tt, {| files := files w; dirs := dirs w;
                        trace := (trace w ++ [e])%list |}).

Definition get_isdir (p : string) : M bool := fun w => (Some (isdir p w), w).

Definition create_dir (p : string) : M unit :=
  fun w => (Some tt, {| files := files w; dirs := add p (dirs w);
                        trace := trace w |}).

(** What [cv2.imwrite] leaves behind: a file at [p]. *)
Definition write_file (p : string) : M unit :=
  fun w => (Some tt, {| files := add p (files w); dirs := dirs w;
                        trace := trace w |}).

Definition lift_option {A} (o : option A) : M A :=
  match o with
  | Some a => ret a
  | None => raise
  end.

(** [for x in xs: body(x)] *)
Fixpoint for_each {A} (xs : list A) (body : A -> M unit) : M unit :=
  match xs with
  | [] => ret tt
  | x :: xs' => body x >> for_each xs' body
  end.

(** [range(n)] for a Python integer. *)
Definition py_range (n : Z) : list nat := seq 0 (Z.to_nat n).

Section Train.

(** [image_generator.num_batches] *)
Variable num_batches : nat.
(** The arrays of step [(epoch, batch_num)]: [images_rgb_fake_out],
    [batch_rgb], [batch_bw]. *)
Variable sess_run : nat -> nat -> tensor * tensor * tensor.

(** Lines 161-167.  [sgru_model.save] is a method of [model.py], which
    is not part of the source: the call and its argument are recorded,
    and nothing is said of what it writes. *)
Definition save_step (a : args) (out_dir : string) (epoch batch_num : nat)
  : M unit :=
  bindM (lift_option (py_mod (Z.of_nat batch_num) (save_every a))) (fun r =>
  if (r =? 0)%Z then
    let image_dir := path_join out_dir "images" in
    bindM (get_isdir image_dir) (fun d =>
    (if negb d then emit (EvMkdir image_dir) >> create_dir image_dir
     else ret tt) >>
    let image_fname :=
      path_join image_dir (format_nat epoch ++ "_" ++ format_nat batch_num ++ ".jpg") in
    let '(images_rgb_fake_out, batch_rgb, batch_bw) := sess_run epoch batch_num in
    bindM (lift_option (save_images images_rgb_fake_out batch_rgb batch_bw))
      (fun out_image =>
    emit (EvImwrite image_fname out_image) >>
    write_file image_fname >>
    emit (EvModelSave (path_join out_dir "model.ckpt"))))
  else ret tt).

Definition train_step (a : args) (out_dir : string) (epoch batch_num : nat)
  : M unit :=
  emit (EvTrainStep epoch batch_num) >>
  emit (EvAddSummary (epoch * num_batches + batch_num)) >>
  emit (EvPrint epoch batch_num) >>
  save_step a out_dir epoch batch_num.

Definition train (a : args) : M unit :=
  let out_dir := path_join (output_dir a) (name a) in
  let vgg_ckpt := path_join (data_dir a) "vgg_19.ckpt" in
  emit (EvCheckpointFn vgg_ckpt) >>
  emit EvSession >>
  emit (EvFileWriter out_dir) >> create_dir out_dir >>
  emit EvInitVariables >>
  let image_dir := path_join (data_dir a) "images" in
  emit (EvImageGenerator image_dir (num_cpus a) (batch_size a)) >>
  for_each (py_range (epochs a)) (fun epoch =>
    for_each (seq 0 num_batches) (fun batch_num =>
      train_step a out_dir epoch batch_num)).

(** How the process ends. *)
Inductive outcome :=
| Returned                               (* main returns: status 0 *)
| Exited (status : Z) (stderr : string)  (* sys.exit *)
| Raised.                                (* uncaught exception *)

Definition missing_checkpoint_message : string :=
  "Download VGG19 checkpoint from " ++
  "http://download.tensorflow.org/models/vgg_19_2016_08_28.tar.gz " ++
  "and save it to the root of your data_dir".

(** [sys.exit(msg)] with a string prints it on stderr and exits with
    status 1. *)
Definition main (a : args) (w : world) : outcome * world :=
  if negb (isfile (path_join (data_dir a) "vgg_19.ckpt") w) then
    (Exited 1 missing_checkpoint_message, w)
  else
    match (emit EvPlaceholder >>
           emit (EvBuildModel (summarize a)) >>
           emit EvBuildLoss >>
           emit EvBuildOptimizer >>
           train a) w with
    | (Some _, w') => (Returned, w')
    | (None, w') => (Raised, w')
    end.

End Train.

Local Close Scope string_scope.

(** ** The properties, as the specification words them *)

Definition sum_upto (n : nat) (f : nat -> Q) : Q := sumQ (map f (seq 0 n)).

(** The per-layer score: the sum over batch, rows, columns and channels of
    weight times resampled mask times absolute difference. *)
Definition layer_score (B R C K : nat) (w : Q) (mask fake real : tensor) : Q :=
  sum_upto B (fun b => sum_upto R (fun r => sum_upto C (fun c =>
    sum_upto K (fun k =>
      w * at4 mask b r c 0 * Qabs (at4 fake b r c k - at4 real b r c k))))).

(** A candidate matches the ground truth under the mask: wherever the
    mask is not zero the two activations are equal. *)
Definition matches_under_mask (mask fake real : tensor) : Prop :=
  forall b r c k,
    at4 mask b r c 0 == 0 \/ at4 fake b r c k == at4 real b r c k.

Definition nonneg (t : tensor) : Prop := forall b r c k, 0 <= at4 t b r c k.

Definition is_min (m : Q) (l : list Q) : Prop :=
  In m l /\ forall x, In x l -> m <= x.

Definition is_mean (m : Q) (l : list Q) : Prop :=
  m * inject_Z (Z.of_nat (length l)) == sumQ l.

(** Modelled from the spec: [reassemble], the concatenation of the
    3-channel pieces along the channel axis (what the generator does to
    build a bundle); [train.py] only slices.  Pieces whose batch, row or
    column extents differ cannot be concatenated. *)
Definition concat_chans (s t : tensor) : option tensor :=
  zip_with_opt (zip_with_opt (zip_with_opt (fun p q => Some (p ++ q)%list))) s t.

Definition reassemble (pieces : list tensor) : option tensor :=
  match pieces with
  | [] => None
  | p :: rest =>
      fold_left (fun acc q => acc' <- acc ;; concat_chans acc' q) rest (Some p)
  end.

(** The slicing of lines 52 and 100: candidate [i] of a bundle. *)
Definition candidate (i : nat) (bundle : tensor) : tensor :=
  slice_chans4 (i * 3) ((i + 1) * 3) bundle.

(** The pixel the tiling puts at column [c] of tile [k] in row [r] of
    example [b]: tile 0 is the grayscale input, tile 1 the ground truth,
    tile [2 + i] candidate [i]. *)
Definition tile_pixel (fake real bw : tensor) (b r k c : nat) : upixel :=
  match k with
  | O => let g := astype_uint8 (round_float32 (at4 bw b r c 0 * 255)) in [g; g; g]
  | S O =>
      map (fun ch => astype_uint8 (round_float32 (at4 real b r c ch * 255)))
          [0; 1; 2]%nat
  | S (S i) =>
      map (fun ch => astype_uint8
                       (round_float32 (clip01 (at4 fake b r c (i * 3 + ch)) * 255)))
          [0; 1; 2]%nat
  end.

(** The save events of a trace. *)
Definition is_save (e : event) : bool :=
  match e with
  | EvImwrite _ _ | EvModelSave _ => true
  | _ => false
  end.

Definition saves (w : world) : list event := filter is_save (trace w).




(** The activation the inner loop picks for a layer, as a total function:
    the image itself for ["input"], the extractor's entry otherwise. *)
Definition act (ep : end_points) (img : tensor) (layer : string) : tensor :=
  if String.eqb layer "input" then img else default [] (ep layer).

(** Extents of a layer's activation for [H] by [W] images: the image's own
    for ["input"], the extractor's for the others. *)
Definition layer_dims (H W : nat) (dims : string -> nat * nat * nat)
  (layer : string) : nat * nat * nat :=
  if String.eqb layer "input" then (H, W, 3%nat) else dims layer.

Section Scores.

Variable vgg_19 : tensor -> end_points.
Variable resize_images : tensor -> nat * nat -> tensor.
Variables (B H W : nat) (dims : string -> nat * nat * nat).
Variables (bw fakes real : tensor).

Definition act_fake (i : nat) (layer : string) : tensor :=
  act (vgg_19 (candidate i fakes)) (candidate i fakes) layer.

Definition act_real (layer : string) : tensor :=
  act (vgg_19 real) real layer.

(** The grayscale mask resampled to the resolution of a layer. *)
Definition layer_mask (i : nat) (layer : string) : tensor :=
  resize_images bw (dim_rows (act_fake i layer), dim_cols (act_fake i layer)).

Definition score (i : nat) (wl : Q * string) : Q :=
  let '(R, C, K) := layer_dims H W dims (snd wl) in
  layer_score B R C K (fst wl) (layer_mask i (snd wl))
    (act_fake i (snd wl)) (act_real (snd wl)).

Definition candidate_score (weights : list Q) (i : nat) : Q :=
  sumQ (map (score i) (combine weights layers)).

End Scores.

(** The weight vector with entry [j] replaced by [x]. *)
Definition update_nth (j : nat) (x : Q) (ws : list Q) : list Q :=
  firstn j ws ++ x :: skipn (S j) ws.

(** ** Instances of the external operations, for the examples

    An extractor whose every layer is the image itself, and a resampling
    that returns the all-ones mask of the requested resolution. *)
Definition identity_features : tensor -> end_points :=
  fun img _ => Some img.

Definition constant_resize (m : tensor) (size : nat * nat) : tensor :=
  map (fun _ => repeat (repeat [1] (snd size)) (fst size)) m.

(** One example of one pixel: a mask, a bundle of nine candidates of which
    the first equals the ground truth, and the ground truth. *)
Definition ex_bw : tensor := [[[ [1] ]]].
Definition ex_real : tensor := [[[ [1; 0; 1 # 2] ]]].
Definition ex_fakes : tensor :=
  [[[ [1; 0; 1 # 2;  0; 0; 0;  1; 1; 1;  1 # 2; 1 # 2; 1 # 2;  2; 0; 0;
       0; -1 # 255; 0;  1; 0; 0;  0; 1; 0;  0; 0; 1] ]]].

(** A batch for [save_images] whose ground truth and grayscale input
    leave the range [0, 1]. *)
Definition ex_real_wide : tensor := [[[ [2; -1 # 2; 1 # 2] ]]].
Definition ex_bw_wide : tensor := [[[ [3 # 2] ]]].

(** A batch of float32 values: two candidates that leave the range
    [0, 1], a ground truth that holds the float32 next to 257/255, whose
    product by 255 rounds to 257, and a grayscale input whose product by
    255 does not fit 32 bits. *)
Definition ex_fakes_f32 : tensor :=
  [[[ [3 # 2; -1 # 2; 1 # 2;  1; 0; 1 # 4;  0; 0; 0;  0; 0; 0;  0; 0; 0;
       0; 0; 0;  0; 0; 0;  0; 0; 0;  0; 0; 0] ]]].
Definition ex_real_f32 : tensor := [[[ [2; -1 # 2; 8454401 # 8388608] ]]].
Definition ex_bw_f32 : tensor := [[[ [8421505] ]]].

(** Tile [k] of example [b] as a function of row and column. *)
Definition tile_at (fake real bw : tensor) (b k r c : nat) : upixel :=
  tile_pixel fake real bw b r k c.

(** The tiled image: example after example from top to bottom, and in
    each row of pixels the 11 tiles from left to right. *)
Definition tiled (B H W : nat) (fake real bw : tensor) : uimage :=
  concat (map (fun b => map (fun r =>
    concat (map (fun k => map (fun c => tile_pixel fake real bw b r k c)
                              (seq 0 W))
                (seq 0 11)))
    (seq 0 H)) (seq 0 B)).

(** The save events of step [(epoch, batch_num)]: the tile written under
    [<output_dir>/<name>/images] and the call of [sgru_model.save], when
    the batch number within the epoch is a multiple of [save_every];
    nothing otherwise. *)
Definition step_image (sess_run : nat -> nat -> tensor * tensor * tensor)
  (epoch batch_num : nat) : option uimage :=
  let '(images_rgb_fake_out, batch_rgb, batch_bw) := sess_run epoch batch_num in
  save_images images_rgb_fake_out batch_rgb batch_bw.

Definition step_saves (a : args) (sess_run : nat -> nat -> tensor * tensor * tensor)
  (epoch batch_num : nat) : list event :=
  if (Z.of_nat batch_num mod save_every a =? 0)%Z then
    [ EvImwrite (output_dir a ++ "/" ++ name a ++ "/images/"
                 ++ format_nat epoch ++ "_" ++ format_nat batch_num ++ ".jpg")%string
                (default [] (step_image sess_run epoch batch_num));
      EvModelSave (output_dir a ++ "/" ++ name a ++ "/model.ckpt")%string ]
  else [].

Definition expected_saves (a : args) (num_batches : nat)
  (sess_run : nat -> nat -> tensor * tensor * tensor) : list event :=
  flat_map (fun epoch => flat_map (step_saves a sess_run epoch) (seq 0 num_batches))
           (seq 0 (Z.to_nat (epochs a))).

(** A command that always returns and appends exactly [evs] to the save
    events. *)
Definition adds_saves (m : M unit) (evs : list event) : Prop :=
  forall w, exists w', m w = (Some tt, w') /\ saves w' = (saves w ++ evs)%list.

(** A command line with only the two positionals, and the arguments and
    worlds of the examples. *)
Definition ex_cli : cli :=
  {| cli_data_dir := "data"%string; cli_output_dir := "out"%string;
     cli_batch_size := None; cli_epochs := Some 2%Z; cli_resume := false;
     cli_save_every := Some 2%Z; cli_num_cpus := None; cli_summarize := false;
     cli_name := Some "run"%string |}.

Definition ex_args : args :=
  get_args "sgru-2018-01-01-00-00-00-000000"%string ex_cli.

Definition ex_world_empty : world := {| files := []; dirs := []; trace := [] |}.

Definition ex_world_ckpt : world :=
  {| files := ["data/vgg_19.ckpt"%string]; dirs := []; trace := [] |}.

Definition ex_sess_run : nat -> nat -> tensor * tensor * tensor :=
  fun _ _ => (ex_fakes, ex_real_wide, ex_bw_wide).

(** Index form of [has_shape], and the tensor given by its elements. *)
Definition shaped (B R C K : nat) (t : tensor) : Prop :=
  length t = B /\
  forall b, (b < B)%nat -> length (nth b t []) = R /\
  forall r, (r < R)%nat -> length (nth r (nth b t []) []) = C /\
  forall c, (c < C)%nat -> length (nth c (nth r (nth b t []) []) []) = K.

Definition tabulate {A} (n : nat) (f : nat -> A) : list A := map f (seq 0 n).

Definition tabulate4 {A} (B R C K : nat) (f : nat -> nat -> nat -> nat -> A)
  : list (list (list (list A))) :=
  tabulate B (fun b => tabulate R (fun r => tabulate C (fun c =>
    tabulate K (fun k => f b r c k)))).

(** The first [k] channels of the tensor with elements [f], and its
    [i]-th group of three channels. *)
Definition channel_prefix (B R C : nat) (f : nat -> nat -> nat -> nat -> Q)
  (k : nat) : tensor :=
  tabulate4 B R C k f.

Definition channel_piece (B R C : nat) (f : nat -> nat -> nat -> nat -> Q)
  (i : nat) : tensor :=
  tabulate4 B R C 3 (fun b r c k => f b r c (i * 3 + k)%nat).

(** A bundle whose nine candidates all equal [ex_real]. *)
Definition ex_fakes_truth : tensor :=
  [[[ [1; 0; 1 # 2;  1; 0; 1 # 2;  1; 0; 1 # 2;  1; 0; 1 # 2;  1; 0; 1 # 2;
       1; 0; 1 # 2;  1; 0; 1 # 2;  1; 0; 1 # 2;  1; 0; 1 # 2] ]]].

(** ** [timestamp] *)

(** The fields of [datetime.now()] that the format reads. *)
Record datetime := {
  year : nat; month : nat; day : nat;
  hour : nat; minute : nat; second : nat; microsecond : nat
}.

Fixpoint zeros (k : nat) : string :=
  match k with
  | O => EmptyString
  | S k' => String "0" (zeros k')
  end.

(** A number padded with zeros on the left to [width] digits, as [%m],
    [%d], [%H], [%M], [%S] and [%f] print it (and [%Y] for the four-digit
    years of a current date). *)
Definition zfill (width : nat) (n : nat) : string :=
  (zeros (width - String.length (format_nat n)) ++ format_nat n)%string.

(** [datetime.now().strftime('sgru-%Y-%m-%d-%H-%M-%S-%f')] *)
Definition timestamp (now : datetime) : string :=
  ("sgru-" ++ zfill 4 (year now) ++ "-" ++ zfill 2 (month now) ++ "-"
   ++ zfill 2 (day now) ++ "-" ++ zfill 2 (hour now) ++ "-"
   ++ zfill 2 (minute now) ++ "-" ++ zfill 2 (second now) ++ "-"
   ++ zfill 6 (microsecond now))%string.

(** ** Observations of a run *)

(** A path separator occurs in the string. *)
Fixpoint has_sep (s : string) : bool :=
  match s with
  | EmptyString => false
  | String c s' => Ascii.eqb c "/" || has_sep s'
  end.

(** The global steps handed to [writer.add_summary], in order. *)
Definition summary_of (e : event) : list nat :=
  match e with
  | EvAddSummary global_step => [global_step]
  | _ => []
  end.

Definition summary_steps (w : world) : list nat := flat_map summary_of (trace w).

(** The directories handed to [os.mkdir], in order. *)
Definition mkdir_of (e : event) : list string :=
  match e with
  | EvMkdir dir => [dir]
  | _ => []
  end.

Definition mkdirs (w : world) : list string := flat_map mkdir_of (trace w).

(** Every file and directory of [w] is still there in [w']. *)
Definition extends (w w' : world) : Prop :=
  (forall p, isfile p w = true -> isfile p w' = true) /\
  (forall d, isdir d w = true -> isdir d w' = true).

Definition present (fs ds : list string) (w : world) : Prop :=
  (forall p, In p fs -> isfile p w = true) /\
  (forall d, In d ds -> isdir d w = true).

(** A command that always returns, removes nothing, and leaves the files
    [fs] and the directories [ds] in place. *)
Definition ensures (m : M unit) (fs ds : list string) : Prop :=
  forall w, exists w',
    m w = (Some tt, w') /\ extends w w' /\ present fs ds w'.

Definition adds_summaries (m : M unit) (steps : list nat) : Prop :=
  forall w, exists w',
    m w = (Some tt, w') /\ summary_steps w' = (summary_steps w ++ steps)%list.

(** A command that returns from every world satisfying [I], in a world
    satisfying [I]. *)
Definition keeps_invariant (I : world -> Prop) (m : M unit) : Prop :=
  forall w, I w -> exists w', m w = (Some tt, w') /\ I w'.

(** At most the directory [d] has been made since the directories [made]
    were, and if so it exists. *)
Definition made_at_most (made : list string) (d : string) (w : world) : Prop :=
  mkdirs w = made \/ (mkdirs w = (made ++ [d])%list /\ isdir d w = true).

(** Two lengths that are both a given extent. *)
Ltac same_length :=
  etransitivity; [eassumption | symmetry; assumption].

(** * Proofs *)

(** ** Lists and the error monad *)

Section TabulateFacts.

Context {A : Type}.

Lemma nth_tabulate (n i : nat) (g : nat -> A) (d : A) :
  (i < n)%nat -> nth i (tabulate n g) d = g i.
Proof.
  intros Hi. unfold tabulate.
  rewrite (nth_indep _ d (g 0%nat)) by (rewrite length_map, length_seq; exact Hi).
  rewrite map_nth, seq_nth by exact Hi. reflexivity.
Qed.

Lemma length_tabulate (n : nat) (g : nat -> A) : length (tabulate n g) = n.
Proof. unfold tabulate. now rewrite length_map, length_seq. Qed.

Lemma tabulate_ext (n : nat) (g h : nat -> A) :
  (forall i, (i < n)%nat -> g i = h i) -> tabulate n g = tabulate n h.
Proof.
  intros H. unfold tabulate. apply map_ext_in.
  intros i Hi. apply in_seq in Hi. apply H. lia.
Qed.

Lemma tabulate_S (n : nat) (g : nat -> A) :
  tabulate (S n) g = g 0%nat :: tabulate n (fun i => g (S i)).
Proof.
  unfold tabulate. cbn [seq map]. f_equal.
  rewrite <- seq_shift, map_map. reflexivity.
Qed.

Lemma tabulate_nth (l : list A) (d : A) :
  tabulate (length l) (fun i => nth i l d) = l.
Proof.
  induction l as [|a l IH]; [reflexivity|].
  cbn [length]. rewrite tabulate_S. cbn [nth]. now rewrite IH.
Qed.

End TabulateFacts.

Section BroadcastFacts.

Context {A B C : Type}.

Lemma mapM_nth (f : A -> option B) (xs : list A) (d : A) :
  forall (n : nat) (g : nat -> B),
    length xs = n ->
    (forall i, (i < n)%nat -> f (nth i xs d) = Some (g i)) ->
    mapM f xs = Some (tabulate n g).
Proof.
  induction xs as [|x xs IH]; intros n g Hlen Hf; cbn in Hlen; subst n.
  - reflexivity.
  - rewrite tabulate_S. cbn [mapM].
    pose proof (Hf 0%nat ltac:(lia)) as H0. cbn [nth] in H0.
    rewrite H0. cbn [bind].
    rewrite (IH (length xs) (fun i => g (S i)) eq_refl).
    + reflexivity.
    + intros i Hi. apply (Hf (S i)). lia.
Qed.

Lemma zip_with_opt_nth (f : A -> B -> option C) (xs : list A) (dx : A) (dy : B) :
  forall (ys : list B) (n : nat) (g : nat -> C),
    length xs = n -> length ys = n ->
    (forall i, (i < n)%nat -> f (nth i xs dx) (nth i ys dy) = Some (g i)) ->
    zip_with_opt f xs ys = Some (tabulate n g).
Proof.
  induction xs as [|x xs IH]; intros [|y ys] n g Hx Hy Hf;
    cbn in Hx, Hy; subst n; try discriminate.
  - reflexivity.
  - rewrite tabulate_S. cbn [zip_with_opt].
    pose proof (Hf 0%nat ltac:(lia)) as H0. cbn [nth] in H0.
    rewrite H0. cbn [bind].
    rewrite (IH ys (length xs) (fun i => g (S i)) eq_refl).
    + reflexivity.
    + now injection Hy.
    + intros i Hi. apply (Hf (S i)). lia.
Qed.

Lemma bcast_same_length (f : A -> B -> option C) (xs : list A) (ys : list B) :
  length xs = length ys -> bcast f xs ys = zip_with_opt f xs ys.
Proof.
  intros H. destruct xs as [|x [|x' xs]], ys as [|y [|y' ys]];
    try discriminate; try reflexivity.
Qed.

Lemma bcast_left_one (f : A -> B -> option C) (x : A) (ys : list B) :
  bcast f [x] ys = mapM (f x) ys.
Proof. reflexivity. Qed.

Lemma bcast_right_one (f : A -> B -> option C) (xs : list A) (y : B) :
  bcast f xs [y] = mapM (fun x => f x y) xs.
Proof.
  destruct xs as [|x [|x' xs]]; try reflexivity.
Qed.

End BroadcastFacts.

(** ** Tensors: shapes, elementwise operations, sums *)

Lemma has_shape_shaped (B R C K : nat) (t : tensor) :
  has_shape B R C K t = true -> shaped B R C K t.
Proof.
  unfold has_shape, has_shape_img, shaped. intros H.
  apply andb_prop in H as [HB Himg]. apply Nat.eqb_eq in HB.
  rewrite forallb_forall in Himg. split; [exact HB|].
  intros b Hb.
  assert (Hin : In (nth b t []) t) by (apply nth_In; lia).
  apply Himg in Hin. apply andb_prop in Hin as [HR Hrow].
  apply Nat.eqb_eq in HR. rewrite forallb_forall in Hrow.
  split; [exact HR|]. intros r Hr.
  assert (Hin : In (nth r (nth b t []) []) (nth b t [])) by (apply nth_In; lia).
  apply Hrow in Hin. apply andb_prop in Hin as [HC Hpx].
  apply Nat.eqb_eq in HC. rewrite forallb_forall in Hpx.
  split; [exact HC|]. intros c Hc.
  apply Nat.eqb_eq, Hpx, nth_In. lia.
Qed.

Lemma at4_tabulate4 (B R C K : nat) (f : nat -> nat -> nat -> nat -> Q) b r c k :
  (b < B)%nat -> (r < R)%nat -> (c < C)%nat -> (k < K)%nat ->
  at4 (tabulate4 B R C K f) b r c k = f b r c k.
Proof.
  intros Hb Hr Hc Hk. unfold at4, tabulate4.
  now rewrite !nth_tabulate.
Qed.

Lemma shaped_tabulate4 (B R C K : nat) (f : nat -> nat -> nat -> nat -> Q) :
  shaped B R C K (tabulate4 B R C K f).
Proof.
  unfold shaped, tabulate4. split; [apply length_tabulate|].
  intros b Hb. rewrite nth_tabulate by exact Hb.
  split; [apply length_tabulate|].
  intros r Hr. rewrite nth_tabulate by exact Hr.
  split; [apply length_tabulate|].
  intros c Hc. rewrite nth_tabulate by exact Hc.
  apply length_tabulate.
Qed.

Lemma tabulate4_ext {A} (B R C K : nat) (f g : nat -> nat -> nat -> nat -> A) :
  (forall b r c k, (b < B)%nat -> (r < R)%nat -> (c < C)%nat -> (k < K)%nat ->
                   f b r c k = g b r c k) ->
  tabulate4 B R C K f = tabulate4 B R C K g.
Proof.
  intros H. unfold tabulate4.
  apply tabulate_ext; intros b Hb. apply tabulate_ext; intros r Hr.
  apply tabulate_ext; intros c Hc. apply tabulate_ext; intros k Hk.
  now apply H.
Qed.

Lemma shaped_at4 (B R C K : nat) (t : tensor) :
  shaped B R C K t ->
  t = tabulate4 B R C K (at4 t).
Proof.
  intros [HB H]. unfold tabulate4, at4.
  rewrite <- (tabulate_nth t []) at 1. rewrite HB.
  apply tabulate_ext; intros b Hb. destruct (H b Hb) as [HR H'].
  rewrite <- (tabulate_nth (nth b t []) []) at 1. rewrite HR.
  apply tabulate_ext; intros r Hr. destruct (H' r Hr) as [HC H''].
  rewrite <- (tabulate_nth (nth r (nth b t []) []) []) at 1. rewrite HC.
  apply tabulate_ext; intros c Hc.
  rewrite <- (tabulate_nth (nth c (nth r (nth b t []) []) []) 0) at 1.
  now rewrite (H'' c Hc).
Qed.

Lemma map_tabulate4 {A B'} (g : A -> B') (B R C K : nat)
  (f : nat -> nat -> nat -> nat -> A) :
  map (map (map (map g))) (tabulate4 B R C K f)
  = tabulate4 B R C K (fun b r c k => g (f b r c k)).
Proof.
  unfold tabulate4, tabulate. rewrite map_map.
  apply map_ext; intros b. rewrite map_map.
  apply map_ext; intros r. rewrite map_map.
  apply map_ext; intros c. now rewrite map_map.
Qed.

Lemma map4_tabulate4 (g : Q -> Q) (B R C K : nat) (f : nat -> nat -> nat -> nat -> Q) :
  map4 g (tabulate4 B R C K f) = tabulate4 B R C K (fun b r c k => g (f b r c k)).
Proof.
  unfold map4, tabulate4, tabulate. rewrite map_map.
  apply map_ext; intros b. rewrite map_map.
  apply map_ext; intros r. rewrite map_map.
  apply map_ext; intros c. now rewrite map_map.
Qed.

Lemma reduce_sum_tabulate4 (B R C K : nat) (f : nat -> nat -> nat -> nat -> Q) :
  reduce_sum (tabulate4 B R C K f) =
  sum_upto B (fun b => sum_upto R (fun r => sum_upto C (fun c =>
    sum_upto K (fun k => f b r c k)))).
Proof.
  unfold reduce_sum, tabulate4, tabulate, sum_upto. rewrite map_map.
  f_equal. apply map_ext; intros b. rewrite map_map.
  f_equal. apply map_ext; intros r. rewrite map_map.
  reflexivity.
Qed.

Lemma lift4_same_shape (op : Q -> Q -> Q) (B R C K : nat) (s t : tensor) :
  shaped B R C K s -> shaped B R C K t ->
  lift4 op s t =
  Some (tabulate4 B R C K (fun b r c k => op (at4 s b r c k) (at4 t b r c k))).
Proof.
  intros [Hs1 Hs] [Ht1 Ht]. unfold lift4, tabulate4, at4.
  rewrite bcast_same_length by same_length.
  apply (zip_with_opt_nth _ _ [] []); [assumption..|]. intros b Hb.
  destruct (Hs b Hb) as [Hs2 Hs']. destruct (Ht b Hb) as [Ht2 Ht'].
  rewrite bcast_same_length by same_length.
  apply (zip_with_opt_nth _ _ [] []); [assumption..|]. intros r Hr.
  destruct (Hs' r Hr) as [Hs3 Hs'']. destruct (Ht' r Hr) as [Ht3 Ht''].
  rewrite bcast_same_length by same_length.
  apply (zip_with_opt_nth _ _ [] []); [assumption..|]. intros c Hc.
  specialize (Hs'' c Hc). specialize (Ht'' c Hc).
  rewrite bcast_same_length by same_length.
  apply (zip_with_opt_nth _ _ 0 0); auto.
Qed.

Lemma bcast_one_channel (op : Q -> Q -> Q) (K : nat) (px py : pixel) :
  length px = 1%nat -> length py = K ->
  bcast (fun x y => Some (op x y)) px py =
  Some (tabulate K (fun k => op (nth 0 px 0) (nth k py 0))).
Proof.
  intros Hx Hy. destruct px as [|m [|m' px]]; try discriminate.
  rewrite bcast_left_one. cbn [nth].
  apply (mapM_nth _ _ 0); auto.
Qed.

Lemma lift4_one_channel (op : Q -> Q -> Q) (B R C K : nat) (s t : tensor) :
  shaped B R C 1 s -> shaped B R C K t ->
  lift4 op s t =
  Some (tabulate4 B R C K (fun b r c k => op (at4 s b r c 0) (at4 t b r c k))).
Proof.
  intros [Hs1 Hs] [Ht1 Ht]. unfold lift4, tabulate4, at4.
  rewrite bcast_same_length by same_length.
  apply (zip_with_opt_nth _ _ [] []); [assumption..|]. intros b Hb.
  destruct (Hs b Hb) as [Hs2 Hs']. destruct (Ht b Hb) as [Ht2 Ht'].
  rewrite bcast_same_length by same_length.
  apply (zip_with_opt_nth _ _ [] []); [assumption..|]. intros r Hr.
  destruct (Hs' r Hr) as [Hs3 Hs'']. destruct (Ht' r Hr) as [Ht3 Ht''].
  rewrite bcast_same_length by same_length.
  apply (zip_with_opt_nth _ _ [] []); [assumption..|]. intros c Hc.
  apply bcast_one_channel; auto.
Qed.

(** ** Sums of non-negative terms *)

Lemma sum_upto_S (n : nat) (f : nat -> Q) :
  sum_upto (S n) f = f 0%nat + sum_upto n (fun i => f (S i)).
Proof.
  unfold sum_upto. fold (tabulate (S n) f). rewrite tabulate_S. reflexivity.
Qed.

Lemma sum_upto_nonneg (n : nat) : forall f : nat -> Q,
  (forall i, (i < n)%nat -> 0 <= f i) -> 0 <= sum_upto n f.
Proof.
  induction n as [|n IH]; intros f H.
  - cbn. lra.
  - rewrite sum_upto_S.
    assert (0 <= f 0%nat) by (apply H; lia).
    assert (0 <= sum_upto n (fun i => f (S i))) by (apply IH; intros; apply H; lia).
    lra.
Qed.

Lemma sum_upto_le (n : nat) : forall f g : nat -> Q,
  (forall i, (i < n)%nat -> f i <= g i) -> sum_upto n f <= sum_upto n g.
Proof.
  induction n as [|n IH]; intros f g H.
  - cbn. lra.
  - rewrite !sum_upto_S.
    assert (f 0%nat <= g 0%nat) by (apply H; lia).
    assert (sum_upto n (fun i => f (S i)) <= sum_upto n (fun i => g (S i)))
      by (apply IH; intros; apply H; lia).
    lra.
Qed.

Lemma sum_upto_zero_iff (n : nat) : forall f : nat -> Q,
  (forall i, (i < n)%nat -> 0 <= f i) ->
  (sum_upto n f == 0 <-> forall i, (i < n)%nat -> f i == 0).
Proof.
  induction n as [|n IH]; intros f H.
  - split; [intros _ i Hi; lia | intros _; reflexivity].
  - rewrite sum_upto_S.
    assert (H0 : 0 <= f 0%nat) by (apply H; lia).
    assert (Hpos : forall i, (i < n)%nat -> 0 <= f (S i)) by (intros; apply H; lia).
    pose proof (sum_upto_nonneg n _ Hpos) as Hs.
    specialize (IH _ Hpos). split.
    + intros Hz i Hi. destruct i as [|i]; [lra|].
      apply IH; [lra | lia].
    + intros Hz.
      assert (f 0%nat == 0) by (apply Hz; lia).
      assert (sum_upto n (fun i => f (S i)) == 0)
        by (apply IH; intros; apply Hz; lia).
      lra.
Qed.

Lemma mask_term_nonneg (w m a b : Q) :
  0 <= w -> 0 <= m -> 0 <= w * m * Qabs (a - b).
Proof.
  intros Hw Hm. pose proof (Qabs_nonneg (a - b)).
  apply Qmult_le_0_compat; [apply Qmult_le_0_compat|]; assumption.
Qed.

Lemma mask_term_zero_iff (w m a b : Q) :
  0 < w -> (w * m * Qabs (a - b) == 0 <-> m == 0 \/ a == b).
Proof.
  intros Hw. split.
  - intros H. apply Qmult_integral in H as [H|H].
    + apply Qmult_integral in H as [H|H]; [lra | now left].
    + right. pose proof (Qle_Qabs (a - b)) as H1.
      pose proof (Qle_Qabs (- (a - b))) as H2. rewrite Qabs_opp in H2. lra.
  - intros [H|H].
    + rewrite H. ring.
    + assert (E : a - b == 0) by lra. rewrite E. cbn. ring.
Qed.

Lemma layer_score_nonneg (B R C K : nat) (w : Q) (mask fake real : tensor) :
  0 <= w -> nonneg mask -> 0 <= layer_score B R C K w mask fake real.
Proof.
  intros Hw Hm. unfold layer_score.
  apply sum_upto_nonneg; intros b _. apply sum_upto_nonneg; intros r _.
  apply sum_upto_nonneg; intros c _. apply sum_upto_nonneg; intros k _.
  apply mask_term_nonneg; [exact Hw | apply Hm].
Qed.

Lemma layer_score_zero_iff (B R C K : nat) (w : Q) (mask fake real : tensor) :
  0 < w -> nonneg mask ->
  (layer_score B R C K w mask fake real == 0 <->
   forall b r c k, (b < B)%nat -> (r < R)%nat -> (c < C)%nat -> (k < K)%nat ->
     at4 mask b r c 0 == 0 \/ at4 fake b r c k == at4 real b r c k).
Proof.
  intros Hw Hm. unfold layer_score.
  assert (Hw' : 0 <= w) by lra.
  rewrite sum_upto_zero_iff
    by (intros; repeat (apply sum_upto_nonneg; intros);
        apply mask_term_nonneg; [exact Hw' | apply Hm]).
  split.
  - intros H b r c k Hb Hr Hc Hk. specialize (H b Hb).
    rewrite sum_upto_zero_iff in H
      by (intros; repeat (apply sum_upto_nonneg; intros);
          apply mask_term_nonneg; [exact Hw' | apply Hm]).
    specialize (H r Hr).
    rewrite sum_upto_zero_iff in H
      by (intros; repeat (apply sum_upto_nonneg; intros);
          apply mask_term_nonneg; [exact Hw' | apply Hm]).
    specialize (H c Hc).
    rewrite sum_upto_zero_iff in H
      by (intros; apply mask_term_nonneg; [exact Hw' | apply Hm]).
    apply (mask_term_zero_iff w); [exact Hw | apply H; exact Hk].
  - intros H b Hb.
    apply sum_upto_zero_iff;
      [intros; repeat (apply sum_upto_nonneg; intros);
       apply mask_term_nonneg; [exact Hw' | apply Hm] |].
    intros r Hr.
    apply sum_upto_zero_iff;
      [intros; repeat (apply sum_upto_nonneg; intros);
       apply mask_term_nonneg; [exact Hw' | apply Hm] |].
    intros c Hc.
    apply sum_upto_zero_iff;
      [intros; apply mask_term_nonneg; [exact Hw' | apply Hm] |].
    intros k Hk. apply mask_term_zero_iff; auto.
Qed.

Lemma layer_score_mono (B R C K : nat) (w w' : Q) (mask fake real : tensor) :
  w <= w' -> nonneg mask ->
  layer_score B R C K w mask fake real <= layer_score B R C K w' mask fake real.
Proof.
  intros Hw Hm. unfold layer_score.
  apply sum_upto_le; intros b _. apply sum_upto_le; intros r _.
  apply sum_upto_le; intros c _. apply sum_upto_le; intros k _.
  pose proof (Qabs_nonneg (at4 fake b r c k - at4 real b r c k)) as Ha.
  specialize (Hm b r c 0%nat).
  apply Qmult_le_compat_r; [|exact Ha].
  apply Qmult_le_compat_r; assumption.
Qed.

(** ** Minimum, mean and their blend *)

Lemma Qmin_cases (x y : Q) : Qmin x y = x \/ Qmin x y = y.
Proof.
  unfold Qmin, GenericMinMax.gmin. destruct (x ?= y); auto.
Qed.

Lemma fold_min_in (l : list Q) : forall x, In (fold_left Qmin l x) (x :: l).
Proof.
  induction l as [|y l IH]; intros x; cbn [fold_left].
  - now left.
  - destruct (IH (Qmin x y)) as [E|Hin].
    + rewrite <- E. destruct (Qmin_cases x y) as [E'|E']; rewrite E'.
      * now left.
      * right. now left.
    + right. now right.
Qed.

Lemma fold_min_le (l : list Q) : forall x y,
  In y (x :: l) -> fold_left Qmin l x <= y.
Proof.
  induction l as [|z l IH]; intros x y Hy; cbn [fold_left].
  - destruct Hy as [<-|[]]. lra.
  - destruct Hy as [<-|[<-|Hy]].
    + eapply Qle_trans; [apply IH; now left | apply Q.le_min_l].
    + eapply Qle_trans; [apply IH; now left | apply Q.le_min_r].
    + apply IH. now right.
Qed.

Lemma reduce_min_is_min (l : list Q) (m : Q) :
  reduce_min l = Some m -> is_min m l.
Proof.
  destruct l as [|x l]; [discriminate|]. intros [= <-]. split.
  - apply fold_min_in.
  - intros y Hy. now apply fold_min_le.
Qed.

Lemma inject_nat_pos (n : nat) : (0 < n)%nat -> 0 < inject_Z (Z.of_nat n).
Proof.
  intros H. change 0 with (inject_Z 0). rewrite <- Zlt_Qlt. lia.
Qed.

Lemma reduce_mean_is_mean (l : list Q) (m : Q) :
  reduce_mean l = Some m -> is_mean m l.
Proof.
  destruct l as [|x l]; [discriminate|]. unfold reduce_mean, is_mean.
  pose proof (inject_nat_pos (length (x :: l)) ltac:(cbn; lia)) as Hn.
  generalize dependent (inject_Z (Z.of_nat (length (x :: l)))).
  generalize (sumQ (x :: l)). intros s d Hd [= <-].
  assert (E : ~ d == 0) by lra. field. exact E.
Qed.

Lemma blend_is_min_mean (l : list Q) :
  l <> [] ->
  exists mn me, is_min mn l /\ is_mean me l /\
                blend l = Some (mn * 0.999 + me * 0.001).
Proof.
  intros Hl. destruct l as [|x l]; [contradiction|].
  exists (fold_left Qmin l x), (sumQ (x :: l) / inject_Z (Z.of_nat (length (x :: l)))).
  split; [now apply reduce_min_is_min|].
  split; [now apply reduce_mean_is_mean|]. reflexivity.
Qed.

Lemma in_tabulate {A} (n : nat) (g : nat -> A) (x : A) :
  In x (tabulate n g) <-> exists i, (i < n)%nat /\ x = g i.
Proof.
  unfold tabulate. rewrite in_map_iff. split.
  - intros (i & E & Hi). apply in_seq in Hi. exists i. split; [lia | auto].
  - intros (i & Hi & E). exists i. split; [auto | apply in_seq; lia].
Qed.

Lemma is_mean_tabulate (n : nat) (L : nat -> Q) (me : Q) :
  is_mean me (tabulate n L) -> me * inject_Z (Z.of_nat n) == sum_upto n L.
Proof.
  unfold is_mean. now rewrite length_tabulate.
Qed.

Section BlendFacts.

Variables (n : nat) (L : nat -> Q) (mn me : Q).
Hypothesis n_pos : (0 < n)%nat.
Hypothesis Hmin : is_min mn (tabulate n L).
Hypothesis Hmean : is_mean me (tabulate n L).

Lemma blend_nonneg :
  (forall i, (i < n)%nat -> 0 <= L i) -> 0 <= mn * 0.999 + me * 0.001.
Proof.
  intros HL. destruct Hmin as [Hin _].
  apply in_tabulate in Hin as (i & Hi & ->).
  pose proof (HL i Hi). pose proof (sum_upto_nonneg n L HL) as Hs.
  rewrite <- (is_mean_tabulate _ _ _ Hmean) in Hs.
  pose proof (inject_nat_pos n n_pos) as Hn.
  assert (0 <= me) by nra. lra.
Qed.

Lemma blend_zero_iff :
  (forall i, (i < n)%nat -> 0 <= L i) ->
  (mn * 0.999 + me * 0.001 == 0 <-> forall i, (i < n)%nat -> L i == 0).
Proof.
  intros HL. pose proof (inject_nat_pos n n_pos) as Hn.
  pose proof (is_mean_tabulate _ _ _ Hmean) as Hm.
  pose proof (sum_upto_nonneg n L HL) as Hs.
  destruct Hmin as [Hin Hle].
  apply in_tabulate in Hin as (i0 & Hi0 & E).
  pose proof (HL i0 Hi0) as H0. rewrite <- E in H0.
  assert (Hme : 0 <= me) by nra.
  split.
  - intros Hz. apply sum_upto_zero_iff; [exact HL|].
    assert (me == 0) by lra. rewrite <- Hm. rewrite H. ring.
  - intros Hz.
    assert (Emn : mn == 0) by (rewrite E; now apply Hz).
    apply (sum_upto_zero_iff n L HL) in Hz.
    assert (Eme : me == 0) by nra.
    rewrite Emn, Eme. reflexivity.
Qed.

End BlendFacts.

Lemma blend_mono (n : nat) (L L' : nat -> Q) (mn me mn' me' : Q) :
  (0 < n)%nat ->
  is_min mn (tabulate n L) -> is_mean me (tabulate n L) ->
  is_min mn' (tabulate n L') -> is_mean me' (tabulate n L') ->
  (forall i, (i < n)%nat -> L i <= L' i) ->
  mn * 0.999 + me * 0.001 <= mn' * 0.999 + me' * 0.001.
Proof.
  intros Hn [_ Hle] Hme [Hin' _] Hme' HL.
  apply in_tabulate in Hin' as (i & Hi & ->).
  assert (mn <= L' i).
  { eapply Qle_trans; [|apply HL; exact Hi].
    apply Hle, in_tabulate. now exists i. }
  apply is_mean_tabulate in Hme, Hme'.
  pose proof (sum_upto_le n L L' HL) as Hs.
  pose proof (inject_nat_pos n Hn) as Hp.
  assert (me <= me') by nra. lra.
Qed.

(** ** Shapes of slices and of resampled masks *)

Lemma nth_nil {A} (i : nat) (d : A) : nth i [] d = d.
Proof. now destruct i. Qed.

Lemma hd_nth0 {A} (l : list A) (d : A) : hd d l = nth 0 l d.
Proof. now destruct l. Qed.

Lemma shaped_has_shape (B R C K : nat) (t : tensor) :
  shaped B R C K t -> has_shape B R C K t = true.
Proof.
  intros [HB H]. unfold has_shape, has_shape_img.
  apply andb_true_intro. split; [now apply Nat.eqb_eq|].
  apply forallb_forall. intros img Hin.
  destruct (In_nth _ _ [] Hin) as (b & Hb & <-).
  destruct (H b ltac:(lia)) as [HR H'].
  apply andb_true_intro. split; [now apply Nat.eqb_eq|].
  apply forallb_forall. intros row Hin'.
  destruct (In_nth _ _ [] Hin') as (r & Hr & <-).
  destruct (H' r ltac:(lia)) as [HC H''].
  apply andb_true_intro. split; [now apply Nat.eqb_eq|].
  apply forallb_forall. intros px Hin''.
  destruct (In_nth _ _ [] Hin'') as (c & Hc & <-).
  apply Nat.eqb_eq, H''. lia.
Qed.

Lemma at4_outside (B R C K : nat) (t : tensor) b r c k :
  shaped B R C K t ->
  ~ ((b < B)%nat /\ (r < R)%nat /\ (c < C)%nat /\ (k < K)%nat) ->
  at4 t b r c k = 0.
Proof.
  intros [HB H] Hout. unfold at4.
  destruct (Nat.lt_ge_cases b B) as [Hb|Hb];
    [|rewrite (nth_overflow t) by lia; now rewrite !nth_nil].
  destruct (H b Hb) as [HR H'].
  destruct (Nat.lt_ge_cases r R) as [Hr|Hr];
    [|rewrite (nth_overflow (nth b t [])) by lia; now rewrite !nth_nil].
  destruct (H' r Hr) as [HC H''].
  destruct (Nat.lt_ge_cases c C) as [Hc|Hc];
    [|rewrite (nth_overflow (nth r (nth b t []) [])) by lia; now rewrite !nth_nil].
  apply nth_overflow. rewrite (H'' c Hc). lia.
Qed.

Lemma shaped_dims (B R C K K' : nat) (t m : tensor) :
  shaped B R C K t ->
  shaped B (dim_rows t) (dim_cols t) K' m ->
  shaped B R C K' m.
Proof.
  intros [HB H] [HmB Hm]. split; [exact HmB|]. intros b Hb.
  assert (H0 : (0 < B)%nat) by lia.
  destruct (H 0%nat H0) as [HR H'].
  assert (ER : dim_rows t = R) by (unfold dim_rows; now rewrite hd_nth0).
  destruct (Hm b Hb) as [HmR Hm']. rewrite ER in HmR, Hm'.
  split; [exact HmR|]. intros r Hr.
  assert (Hr0 : (0 < R)%nat) by lia.
  destruct (H' 0%nat Hr0) as [HC _].
  assert (EC : dim_cols t = C) by (unfold dim_cols; now rewrite !hd_nth0).
  destruct (Hm' r Hr) as [HmC Hm'']. rewrite EC in HmC, Hm''.
  split; assumption.
Qed.

Lemma nth_py_slice {A} (lo hi i : nat) (l : list A) (d : A) :
  nth i (py_slice lo hi l) d = if (lo + i <? hi)%nat then nth (lo + i) l d else d.
Proof.
  unfold py_slice. now rewrite nth_skipn, nth_firstn.
Qed.

Lemma length_py_slice {A} (lo hi : nat) (l : list A) :
  (hi <= length l)%nat -> length (py_slice lo hi l) = (hi - lo)%nat.
Proof.
  intros H. unfold py_slice. rewrite length_skipn, length_firstn. lia.
Qed.

Lemma py_slice_tabulate {A} (lo hi K : nat) (g : nat -> A) :
  (hi <= K)%nat ->
  py_slice lo hi (tabulate K g) = tabulate (hi - lo) (fun k => g (lo + k)%nat).
Proof.
  intros H. destruct K as [|K].
  - assert (hi = 0)%nat as -> by lia. unfold py_slice. cbn.
    now rewrite skipn_nil.
  - apply (nth_ext _ _ (g 0%nat) (g 0%nat)).
    + rewrite length_py_slice, length_tabulate; rewrite ?length_tabulate; lia.
    + intros i Hi.
      rewrite length_py_slice in Hi by (rewrite length_tabulate; lia).
      rewrite nth_py_slice, (nth_tabulate (hi - lo)) by exact Hi.
      destruct (Nat.ltb_spec (lo + i) hi); [|lia].
      apply nth_tabulate. lia.
Qed.

Lemma slice_tabulate4 {A} (lo hi B R C K : nat) (f : nat -> nat -> nat -> nat -> A) :
  (hi <= K)%nat ->
  slice_chans4 lo hi (tabulate4 B R C K f) =
  tabulate4 B R C (hi - lo) (fun b r c k => f b r c (lo + k)%nat).
Proof.
  intros H. unfold slice_chans4, slice_chans3, tabulate4.
  unfold tabulate at 1 5. rewrite map_map. apply map_ext; intros b.
  unfold tabulate at 1 4. rewrite map_map. apply map_ext; intros r.
  unfold tabulate at 1 3. rewrite map_map. apply map_ext; intros c.
  now apply py_slice_tabulate.
Qed.

Lemma candidate_tabulate4 (n B R C : nat) (t : tensor) (i : nat) :
  shaped B R C (3 * n) t -> (i < n)%nat ->
  candidate i t =
  tabulate4 B R C 3 (fun b r c k => at4 t b r c (i * 3 + k)%nat).
Proof.
  intros Ht Hi. unfold candidate.
  rewrite (shaped_at4 _ _ _ _ _ Ht) at 1.
  rewrite slice_tabulate4 by lia.
  replace ((i + 1) * 3 - i * 3)%nat with 3%nat by lia. reflexivity.
Qed.

Lemma shaped_candidate (n B R C : nat) (t : tensor) (i : nat) :
  shaped B R C (3 * n) t -> (i < n)%nat -> shaped B R C 3 (candidate i t).
Proof.
  intros Ht Hi. rewrite (candidate_tabulate4 n B R C) by assumption.
  apply shaped_tabulate4.
Qed.

Lemma lift4_right_vector (op : Q -> Q -> Q) (B R C K : nat) (s : tensor) (v : pixel) :
  shaped B R C K s -> length v = K ->
  lift4 op s [[[v]]] =
  Some (tabulate4 B R C K (fun b r c k => op (at4 s b r c k) (nth k v 0))).
Proof.
  intros [Hs1 Hs] Hv. unfold lift4, tabulate4, at4.
  rewrite bcast_right_one.
  apply (mapM_nth _ _ []); [assumption|]. intros b Hb.
  destruct (Hs b Hb) as [Hs2 Hs'].
  rewrite bcast_right_one.
  apply (mapM_nth _ _ []); [assumption|]. intros r Hr.
  destruct (Hs' r Hr) as [Hs3 Hs''].
  rewrite bcast_right_one.
  apply (mapM_nth _ _ []); [assumption|]. intros c Hc.
  specialize (Hs'' c Hc).
  rewrite bcast_same_length by same_length.
  apply (zip_with_opt_nth _ _ 0 0); auto.
Qed.

Lemma normalize_defined (B R C : nat) (image : tensor) :
  shaped B R C 3 image -> exists t, normalize image = Some t.
Proof.
  intros H. unfold normalize, tf_sub.
  rewrite (shaped_at4 _ _ _ _ _ H), map4_tabulate4.
  erewrite lift4_right_vector; [eexists; reflexivity | apply shaped_tabulate4 | reflexivity].
Qed.

Lemma map4_shaped (g : Q -> Q) (B R C K : nat) (t : tensor) :
  shaped B R C K t ->
  map4 g t = tabulate4 B R C K (fun b r c k => g (at4 t b r c k)).
Proof.
  intros H. rewrite (shaped_at4 _ _ _ _ _ H) at 1. apply map4_tabulate4.
Qed.

Lemma sum_upto_ext (n : nat) (f g : nat -> Q) :
  (forall i, (i < n)%nat -> f i = g i) -> sum_upto n f = sum_upto n g.
Proof.
  intros H. unfold sum_upto. f_equal. now apply (tabulate_ext n f g).
Qed.

Lemma vgg_layer_not_input (layer : string) :
  In layer (tl layers) -> String.eqb layer "input" = false.
Proof.
  cbn. intros [<-|[<-|[<-|[<-|[<-|[]]]]]]; reflexivity.
Qed.

Lemma mapM_map {A B} (f : A -> option B) (g : A -> B) (l : list A) :
  (forall x, In x l -> f x = Some (g x)) -> mapM f l = Some (map g l).
Proof.
  induction l as [|a l IH]; intros H; [reflexivity|].
  cbn [mapM map]. rewrite (H a) by now left. cbn [bind].
  rewrite IH by (intros; apply H; now right). reflexivity.
Qed.

Lemma sumQ_cons (x : Q) (l : list Q) : sumQ (x :: l) = x + sumQ l.
Proof. reflexivity. Qed.

Lemma sumQ_map_nonneg {A} (f : A -> Q) (l : list A) :
  (forall x, In x l -> 0 <= f x) -> 0 <= sumQ (map f l).
Proof.
  induction l as [|a l IH]; intros H; cbn [map]; [cbn; lra|].
  rewrite sumQ_cons.
  - assert (0 <= f a) by (apply H; now left).
    assert (0 <= sumQ (map f l)) by (apply IH; intros; apply H; now right).
    lra.
Qed.

Lemma sumQ_map_zero_iff {A} (f : A -> Q) (l : list A) :
  (forall x, In x l -> 0 <= f x) ->
  (sumQ (map f l) == 0 <-> forall x, In x l -> f x == 0).
Proof.
  induction l as [|a l IH]; intros H; cbn [map].
  - split; [intros _ x [] | reflexivity].
  - rewrite sumQ_cons.
    assert (H0 : 0 <= f a) by (apply H; now left).
    assert (Hl : forall x, In x l -> 0 <= f x) by (intros; apply H; now right).
    pose proof (sumQ_map_nonneg f l Hl) as Hs.
    specialize (IH Hl). split.
    + intros Hz x [<-|Hx]; [lra|]. apply IH; [lra | exact Hx].
    + intros Hz.
      assert (f a == 0) by (apply Hz; now left).
      assert (sumQ (map f l) == 0) by (apply IH; intros; apply Hz; now right).
      lra.
Qed.

Lemma in_combine_weight {A B} (ws : list A) (ls : list B) (l : B) :
  length ws = length ls -> In l ls -> exists w, In (w, l) (combine ws ls).
Proof.
  revert ws. induction ls as [|l0 ls IH]; intros [|w ws] Hlen Hin;
    try discriminate; try contradiction.
  destruct Hin as [<-|Hin].
  - exists w. now left.
  - destruct (IH ws ltac:(now injection Hlen) Hin) as [w' Hw'].
    exists w'. now right.
Qed.

(** ** The loss in closed form *)

Section LossFacts.

Variable vgg_19 : tensor -> end_points.
Variable resize_images : tensor -> nat * nat -> tensor.
Variables (B H W : nat) (dims : string -> nat * nat * nat).

(** The extractor maps a batch of [B] images of [H] by [W] pixels to
    activations whose extents depend on the layer only. *)
Hypothesis vgg_shape : forall img layer R C K,
  has_shape B H W 3 img = true -> In layer (tl layers) ->
  dims layer = (R, C, K) ->
  exists t, vgg_19 img layer = Some t /\ has_shape B R C K t = true.

(** Resampling keeps the batch and the single channel, yields the
    requested resolution, and keeps a non-negative mask non-negative. *)
Hypothesis resize_shape : forall m r c,
  has_shape (length m) r c 1 (resize_images m (r, c)) = true.
Hypothesis resize_nonneg : forall m size,
  nonneg m -> nonneg (resize_images m size).

Variables (n : nat) (bw fakes real : tensor).
Hypothesis bw_batch : length bw = B.
Hypothesis fakes_shape : has_shape B H W (3 * n) fakes = true.
Hypothesis real_shape : has_shape B H W 3 real = true.

Local Abbreviation aF := (act_fake vgg_19 fakes).
Local Abbreviation aR := (act_real vgg_19 real).
Local Abbreviation mask := (layer_mask vgg_19 resize_images bw fakes).
Local Abbreviation score_of := (score vgg_19 resize_images B H W dims bw fakes real).
Local Abbreviation cscore := (candidate_score vgg_19 resize_images B H W dims bw fakes real).

Lemma candidate_has_shape (i : nat) :
  (i < n)%nat -> has_shape B H W 3 (candidate i fakes) = true.
Proof.
  intros Hi. apply shaped_has_shape, (shaped_candidate n); [|exact Hi].
  now apply has_shape_shaped.
Qed.

Lemma vgg_19_evaluate_defined (img : tensor) :
  has_shape B H W 3 img = true -> vgg_19_evaluate vgg_19 img = Some (vgg_19 img).
Proof.
  intros Hs. unfold vgg_19_evaluate.
  destruct (normalize_defined B H W img (has_shape_shaped _ _ _ _ _ Hs)) as [t ->].
  reflexivity.
Qed.

Lemma activations_shaped (i : nat) (layer : string) (R C K : nat) :
  (i < n)%nat -> In layer layers -> layer_dims H W dims layer = (R, C, K) ->
  activations (candidate i fakes) real (vgg_19 (candidate i fakes)) (vgg_19 real) layer
    = Some (aF i layer, aR layer)
  /\ shaped B R C K (aF i layer) /\ shaped B R C K (aR layer).
Proof.
  intros Hi Hin Hd. pose proof (candidate_has_shape i Hi) as Hc.
  unfold activations, act_fake, act_real, act, layer_dims in *.
  destruct Hin as [<-|Hin].
  - cbn in Hd |- *. injection Hd as <- <- <-.
    split; [reflexivity | split; now apply has_shape_shaped].
  - change (In layer (tl layers)) in Hin.
    rewrite (vgg_layer_not_input layer Hin) in *.
    destruct (vgg_shape _ layer R C K Hc Hin Hd) as (tf & Ef & Hf).
    destruct (vgg_shape _ layer R C K real_shape Hin Hd) as (tr & Er & Hr).
    rewrite Ef, Er. cbn.
    split; [reflexivity | split; now apply has_shape_shaped].
Qed.

Lemma mask_shaped (i : nat) (layer : string) (R C K : nat) :
  (i < n)%nat -> In layer layers -> layer_dims H W dims layer = (R, C, K) ->
  shaped B R C 1 (mask i layer).
Proof.
  intros Hi Hin Hd.
  destruct (activations_shaped i layer R C K Hi Hin Hd) as (_ & Hf & _).
  apply (shaped_dims B R C K 1 (aF i layer)); [exact Hf|].
  apply has_shape_shaped. unfold layer_mask.
  rewrite <- bw_batch. apply resize_shape.
Qed.

Lemma loss_inner_score (i : nat) (w : Q) (layer : string) :
  (i < n)%nat -> In layer layers ->
  loss_inner resize_images bw (aF i layer) (aR layer) w = Some (score_of i (w, layer)).
Proof.
  intros Hi Hin. unfold score. cbn [fst snd].
  destruct (layer_dims H W dims layer) as [[R C] K] eqn:Hd.
  destruct (activations_shaped i layer R C K Hi Hin Hd) as (_ & Hf & Hr).
  pose proof (mask_shaped i layer R C K Hi Hin Hd) as Hm.
  unfold loss_inner. fold (mask i layer).
  unfold tf_sub, tf_mul, tf_abs, scalar_mul.
  rewrite (lift4_same_shape Qminus B R C K _ _ Hf Hr). cbn [bind].
  rewrite map4_tabulate4, (map4_shaped _ B R C 1 _ Hm).
  rewrite (lift4_one_channel Qmult B R C K) by apply shaped_tabulate4.
  cbn [bind]. rewrite reduce_sum_tabulate4. f_equal. unfold layer_score.
  apply sum_upto_ext; intros b Hb. apply sum_upto_ext; intros r Hr'.
  apply sum_upto_ext; intros c Hc. apply sum_upto_ext; intros k Hk.
  rewrite !at4_tabulate4 by (assumption || lia). reflexivity.
Qed.

Lemma loss_collection_score (weights : list Q) (i : nat) :
  (i < n)%nat ->
  loss_collection vgg_19 resize_images weights bw fakes real (vgg_19 real) i
  = Some (cscore weights i).
Proof.
  intros Hi. unfold loss_collection. fold (candidate i fakes).
  rewrite (vgg_19_evaluate_defined _ (candidate_has_shape i Hi)). cbn [bind].
  rewrite (mapM_map _ (score_of i)); [reflexivity|].
  intros [w layer] Hin. apply in_combine_r in Hin. cbn [fst snd].
  destruct (layer_dims H W dims layer) as [[R C] K] eqn:Hd.
  destruct (activations_shaped i layer R C K Hi Hin Hd) as (-> & _ & _).
  cbn [bind fst snd]. now apply loss_inner_score.
Qed.

Lemma candidate_losses (weights : list Q) :
  mapM (loss_collection vgg_19 resize_images weights bw fakes real (vgg_19 real))
       (seq 0 n)
  = Some (tabulate n (cscore weights)).
Proof.
  apply mapM_map. intros i Hi. apply in_seq in Hi.
  apply loss_collection_score. lia.
Qed.

Lemma build_loss_func_with_blend (weights : list Q) :
  build_loss_func_with vgg_19 resize_images weights n
    {| image_bw := bw; images_rgb_fake := fakes |} real
  = blend (tabulate n (cscore weights)).
Proof.
  unfold build_loss_func_with. cbn [image_bw images_rgb_fake].
  rewrite (vgg_19_evaluate_defined _ real_shape). cbn [bind].
  now rewrite candidate_losses.
Qed.

Hypothesis bw_nonneg : nonneg bw.

Lemma mask_nonneg (i : nat) (layer : string) : nonneg (mask i layer).
Proof. unfold layer_mask. now apply resize_nonneg. Qed.

Lemma score_nonneg (i : nat) (w : Q) (layer : string) :
  0 <= w -> 0 <= score_of i (w, layer).
Proof.
  intros Hw. unfold score. cbn [fst snd].
  destruct (layer_dims H W dims layer) as [[R C] K].
  apply layer_score_nonneg; [exact Hw | apply mask_nonneg].
Qed.

Lemma score_mono (i : nat) (w w' : Q) (layer : string) :
  w <= w' -> score_of i (w, layer) <= score_of i (w', layer).
Proof.
  intros Hw. unfold score. cbn [fst snd].
  destruct (layer_dims H W dims layer) as [[R C] K].
  apply layer_score_mono; [exact Hw | apply mask_nonneg].
Qed.

Lemma score_zero_iff (i : nat) (w : Q) (layer : string) :
  0 < w -> (i < n)%nat -> In layer layers ->
  (score_of i (w, layer) == 0 <->
   matches_under_mask (mask i layer) (aF i layer) (aR layer)).
Proof.
  intros Hw Hi Hin. unfold score. cbn [fst snd].
  destruct (layer_dims H W dims layer) as [[R C] K] eqn:Hd.
  destruct (activations_shaped i layer R C K Hi Hin Hd) as (_ & Hf & Hr).
  rewrite layer_score_zero_iff by (exact Hw || apply mask_nonneg).
  unfold matches_under_mask. split.
  - intros Hm b r c k.
    destruct (Nat.lt_ge_cases b B); [|right; rewrite (at4_outside B R C K (aF i layer)),
      (at4_outside B R C K (aR layer)); (reflexivity || assumption || lia)].
    destruct (Nat.lt_ge_cases r R); [|right; rewrite (at4_outside B R C K (aF i layer)),
      (at4_outside B R C K (aR layer)); (reflexivity || assumption || lia)].
    destruct (Nat.lt_ge_cases c C); [|right; rewrite (at4_outside B R C K (aF i layer)),
      (at4_outside B R C K (aR layer)); (reflexivity || assumption || lia)].
    destruct (Nat.lt_ge_cases k K); [|right; rewrite (at4_outside B R C K (aF i layer)),
      (at4_outside B R C K (aR layer)); (reflexivity || assumption || lia)].
    now apply Hm.
  - intros Hm b r c k _ _ _ _. apply Hm.
Qed.

Lemma cscore_nonneg (weights : list Q) (i : nat) :
  (forall w, In w weights -> 0 <= w) -> 0 <= cscore weights i.
Proof.
  intros Hw. unfold candidate_score. apply sumQ_map_nonneg.
  intros [w layer] Hin. apply score_nonneg, Hw.
  now apply in_combine_l in Hin.
Qed.

Lemma cscore_mono (i : nat) (ws ws' : list Q) :
  Forall2 Qle ws ws' -> cscore ws i <= cscore ws' i.
Proof.
  intros Hws. unfold candidate_score. generalize layers.
  induction Hws as [|w w' ws ws' Hw _ IH]; intros ls.
  - cbn. lra.
  - destruct ls as [|l ls]; cbn [combine map]; [cbn; lra|].
    rewrite !sumQ_cons.
    specialize (IH ls). pose proof (score_mono i w w' l Hw). lra.
Qed.

Lemma cscore_zero_iff (weights : list Q) (i : nat) :
  (forall w, In w weights -> 0 < w) -> length weights = length layers ->
  (i < n)%nat ->
  (cscore weights i == 0 <->
   forall layer, In layer layers ->
     matches_under_mask (mask i layer) (aF i layer) (aR layer)).
Proof.
  intros Hw Hlen Hi. unfold candidate_score.
  rewrite sumQ_map_zero_iff.
  - split.
    + intros Hz layer Hin.
      destruct (in_combine_weight weights layers layer Hlen Hin) as [w Hwl].
      apply (score_zero_iff i w layer
               (Hw w (in_combine_l _ _ _ _ Hwl)) Hi Hin).
      apply (Hz (w, layer) Hwl).
    + intros Hm [w layer] Hin.
      pose proof (in_combine_r _ _ _ _ Hin) as Hl.
      apply (score_zero_iff i w layer
               (Hw w (in_combine_l _ _ _ _ Hin)) Hi Hl).
      now apply Hm.
  - intros [w layer] Hin. apply score_nonneg.
    apply Qlt_le_weak, Hw. now apply in_combine_l in Hin.
Qed.

Hypothesis n_pos : (0 < n)%nat.

Lemma tabulate_not_nil {A} (g : nat -> A) : tabulate n g <> [].
Proof.
  destruct n as [|m]; [lia|]. rewrite tabulate_S. discriminate.
Qed.

Lemma loss_is_blend (weights : list Q) :
  exists mn me,
    is_min mn (tabulate n (cscore weights)) /\
    is_mean me (tabulate n (cscore weights)) /\
    build_loss_func_with vgg_19 resize_images weights n
      {| image_bw := bw; images_rgb_fake := fakes |} real
    = Some (mn * 0.999 + me * 0.001).
Proof.
  rewrite build_loss_func_with_blend.
  apply blend_is_min_mean, tabulate_not_nil.
Qed.

Lemma loss_nonneg_zero_iff (weights : list Q) :
  (forall w, In w weights -> 0 < w) -> length weights = length layers ->
  exists loss,
    build_loss_func_with vgg_19 resize_images weights n
      {| image_bw := bw; images_rgb_fake := fakes |} real = Some loss /\
    0 <= loss /\
    (loss == 0 <->
     forall i layer, (i < n)%nat -> In layer layers ->
       matches_under_mask (mask i layer) (aF i layer) (aR layer)).
Proof.
  intros Hw Hlen. destruct (loss_is_blend weights) as (mn & me & Hmin & Hmean & E).
  assert (Hpos : forall i, (i < n)%nat -> 0 <= cscore weights i).
  { intros i _. apply cscore_nonneg. intros w Hin. apply Qlt_le_weak. auto. }
  exists (mn * 0.999 + me * 0.001). split; [exact E|]. split.
  - now apply (blend_nonneg n (cscore weights)).
  - rewrite (blend_zero_iff n (cscore weights) mn me n_pos Hmin Hmean Hpos).
    split.
    + intros Hz i layer Hi Hin.
      apply (proj1 (cscore_zero_iff weights i Hw Hlen Hi) (Hz i Hi) layer Hin).
    + intros Hm i Hi. apply (cscore_zero_iff weights i Hw Hlen Hi).
      intros layer Hin. now apply Hm.
Qed.

Lemma loss_mono (ws ws' : list Q) :
  Forall2 Qle ws ws' ->
  exists a b,
    build_loss_func_with vgg_19 resize_images ws n
      {| image_bw := bw; images_rgb_fake := fakes |} real = Some a /\
    build_loss_func_with vgg_19 resize_images ws' n
      {| image_bw := bw; images_rgb_fake := fakes |} real = Some b /\
    a <= b.
Proof.
  intros Hws.
  destruct (loss_is_blend ws) as (mn & me & Hmin & Hmean & E).
  destruct (loss_is_blend ws') as (mn' & me' & Hmin' & Hmean' & E').
  exists (mn * 0.999 + me * 0.001), (mn' * 0.999 + me' * 0.001).
  split; [exact E|]. split; [exact E'|].
  apply (blend_mono n (cscore ws) (cscore ws')); auto.
  intros i _. now apply cscore_mono.
Qed.

End LossFacts.

(** ** The example instances meet the assumptions on the external operations *)

Lemma identity_features_shape (B H W : nat) :
  forall img layer R C K,
    has_shape B H W 3 img = true -> In layer (tl layers) ->
    (fun _ : string => (H, W, 3%nat)) layer = (R, C, K) ->
    exists t, identity_features img layer = Some t /\ has_shape B R C K t = true.
Proof.
  intros img layer R C K Hs _ [= <- <- <-]. exists img. now split.
Qed.

Lemma constant_resize_shape : forall m r c,
  has_shape (length m) r c 1 (constant_resize m (r, c)) = true.
Proof.
  intros m r c. unfold has_shape, constant_resize. cbn [fst snd].
  rewrite length_map, Nat.eqb_refl. cbn [andb].
  apply forallb_forall. intros img Hin.
  apply in_map_iff in Hin as (_ & <- & _).
  unfold has_shape_img. rewrite repeat_length, Nat.eqb_refl. cbn [andb].
  apply forallb_forall. intros row Hin. apply repeat_spec in Hin. subst row.
  rewrite repeat_length, Nat.eqb_refl. cbn [andb].
  apply forallb_forall. intros px Hin. apply repeat_spec in Hin. now subst px.
Qed.

Lemma constant_resize_all_nonneg (m : tensor) (size : nat * nat) :
  nonneg (constant_resize m size).
Proof.
  intros b r c k. unfold at4, constant_resize. cbv zeta.
  destruct (nth_in_or_default b
              (map (fun _ => repeat (repeat [1] (snd size)) (fst size)) m) [])
    as [Hin | ->]; [|rewrite !nth_nil; lra].
  apply in_map_iff in Hin as (_ & <- & _).
  destruct (nth_in_or_default r (repeat (repeat [1] (snd size)) (fst size)) [])
    as [Hin | ->]; [|rewrite !nth_nil; lra].
  apply repeat_spec in Hin. rewrite Hin. clear Hin.
  destruct (nth_in_or_default c (repeat [1] (snd size)) [])
    as [Hin | ->]; [|rewrite !nth_nil; lra].
  apply repeat_spec in Hin. rewrite Hin.
  destruct k as [|[|k]]; cbn; lra.
Qed.

Lemma constant_resize_nonneg : forall m size,
  nonneg m -> nonneg (constant_resize m size).
Proof. intros m size _. apply constant_resize_all_nonneg. Qed.

Lemma ex_bw_nonneg : nonneg ex_bw.
Proof. exact (constant_resize_all_nonneg [[]] (1, 1)%nat). Qed.

Lemma lambda_weights_positive : forall w, In w lambda_weights -> 0 < w.
Proof.
  cbn. intros w [<-|[<-|[<-|[<-|[<-|[<-|[]]]]]]]; reflexivity.
Qed.

Lemma update_nth_le (ws : list Q) : forall j x,
  (j < length ws)%nat -> nth j ws 0 <= x -> Forall2 Qle ws (update_nth j x ws).
Proof.
  unfold update_nth. induction ws as [|w ws IH]; intros j x Hj Hx.
  - cbn in Hj. lia.
  - destruct j as [|j]; cbn [firstn skipn nth app] in *.
    + constructor; [exact Hx|].
      clear. induction ws; constructor; [apply Qle_refl | assumption].
    + constructor; [apply Qle_refl|]. apply IH; [cbn in Hj; lia | exact Hx].
Qed.

(** * The claims about [build_loss_func] *)

Section LossClaims.

Variable vgg_19 : tensor -> end_points.
Variable resize_images : tensor -> nat * nat -> tensor.
Variables (B H W : nat) (dims : string -> nat * nat * nat).

Hypothesis vgg_shape : forall img layer R C K,
  has_shape B H W 3 img = true -> In layer (tl layers) ->
  dims layer = (R, C, K) ->
  exists t, vgg_19 img layer = Some t /\ has_shape B R C K t = true.
Hypothesis resize_shape : forall m r c,
  has_shape (length m) r c 1 (resize_images m (r, c)) = true.
Hypothesis resize_nonneg : forall m size,
  nonneg m -> nonneg (resize_images m size).

Variables (bw fakes real : tensor).
Hypothesis bw_batch : length bw = B.
Hypothesis fakes_shape : has_shape B H W 27 fakes = true.
Hypothesis real_shape : has_shape B H W 3 real = true.

Local Abbreviation sgru_model := {| image_bw := bw; images_rgb_fake := fakes |}.

(** C1 (amended): on a bundle of 9 candidates [build_loss_func] returns
    0.999 times the minimum of the per-candidate losses plus 0.001
    times their mean; for two candidates with losses 10 and 20 the
    blend of lines 78-80 is 0.999*10 + 0.001*15 = 10.005. *)
Theorem final_loss_is_min_mean_blend :
  (exists losses mn me loss,
     mapM (loss_collection vgg_19 resize_images lambda_weights bw fakes real
             (vgg_19 real)) (seq 0 collection_size) = Some losses /\
     length losses = collection_size /\
     is_min mn losses /\ is_mean me losses /\
     build_loss_func vgg_19 resize_images sgru_model real = Some loss /\
     loss == 0.999 * mn + 0.001 * me) /\
  (exists v, blend [10; 20] = Some v /\
             v == 0.999 * 10 + 0.001 * 15 /\ v == 10.005).
Proof.
  split.
  - destruct (loss_is_blend vgg_19 resize_images B H W dims vgg_shape
                resize_shape collection_size bw fakes real bw_batch
                fakes_shape real_shape ltac:(unfold collection_size; lia)
                lambda_weights) as (mn & me & Hmin & Hmean & E).
    eexists _, mn, me, _. split.
    { apply (candidate_losses vgg_19 resize_images B H W dims vgg_shape
               resize_shape collection_size bw fakes real bw_batch
               fakes_shape real_shape). }
    split; [apply length_tabulate|].
    split; [exact Hmin|]. split; [exact Hmean|].
    split; [exact E|]. ring.
  - eexists. split; [reflexivity|]. split; reflexivity.
Qed.

(** C2: for every candidate and each of the 6 weighted layers, the
    scalar the inner loop computes is the sum over batch, rows, columns
    and channels of weight times the mask resampled to the layer's
    resolution times the absolute difference of the two activations;
    the candidate's loss is the sum of the 6 scalars. *)
Theorem layer_scores_and_candidate_loss (i : nat) :
  (i < collection_size)%nat ->
  length (combine lambda_weights layers) = 6%nat /\
  (forall w layer, In (w, layer) (combine lambda_weights layers) ->
     exists R C K fake_act real_act,
       layer_dims H W dims layer = (R, C, K) /\
       activations (candidate i fakes) real
         (vgg_19 (candidate i fakes)) (vgg_19 real) layer
       = Some (fake_act, real_act) /\
       shaped B R C K fake_act /\ shaped B R C K real_act /\
       let mask := resize_images bw (dim_rows fake_act, dim_cols fake_act) in
       shaped B R C 1 mask /\
       loss_inner resize_images bw fake_act real_act w
       = Some (layer_score B R C K w mask fake_act real_act) /\
       score vgg_19 resize_images B H W dims bw fakes real i (w, layer)
       = layer_score B R C K w mask fake_act real_act) /\
  loss_collection vgg_19 resize_images lambda_weights bw fakes real
    (vgg_19 real) i
  = Some (sumQ (map (score vgg_19 resize_images B H W dims bw fakes real i)
                    (combine lambda_weights layers))).
Proof.
  intros Hi. split; [reflexivity|]. split.
  - intros w layer Hin. apply in_combine_r in Hin.
    destruct (layer_dims H W dims layer) as [[R C] K] eqn:Hd.
    destruct (activations_shaped vgg_19 B H W dims vgg_shape collection_size
                fakes real fakes_shape real_shape i layer R C K Hi Hin Hd)
      as (Ea & Hf & Hr).
    exists R, C, K, (act_fake vgg_19 fakes i layer), (act_real vgg_19 real layer).
    split; [reflexivity|]. split; [exact Ea|].
    split; [exact Hf|]. split; [exact Hr|]. cbv zeta.
    assert (Es : score vgg_19 resize_images B H W dims bw fakes real i (w, layer)
                 = layer_score B R C K w
                     (layer_mask vgg_19 resize_images bw fakes i layer)
                     (act_fake vgg_19 fakes i layer) (act_real vgg_19 real layer))
      by (unfold score; cbn [fst snd]; now rewrite Hd).
    split; [|split].
    + apply (mask_shaped vgg_19 resize_images B H W dims vgg_shape resize_shape
               collection_size bw fakes real bw_batch fakes_shape real_shape
               i layer R C K Hi Hin Hd).
    + rewrite (loss_inner_score vgg_19 resize_images B H W dims vgg_shape
                 resize_shape collection_size bw fakes real bw_batch
                 fakes_shape real_shape i w layer Hi Hin).
      now rewrite Es.
    + exact Es.
  - apply (loss_collection_score vgg_19 resize_images B H W dims vgg_shape
             resize_shape collection_size bw fakes real bw_batch
             fakes_shape real_shape lambda_weights i Hi).
Qed.

Hypothesis bw_nonneg : nonneg bw.

(** C5: with a non-negative mask the loss is at least 0, and it is 0
    exactly when every candidate matches the ground truth at every
    weighted layer wherever the resampled mask is not zero. *)
Theorem loss_nonneg_and_zero_iff_match :
  exists loss,
    build_loss_func vgg_19 resize_images sgru_model real = Some loss /\
    0 <= loss /\
    (loss == 0 <->
     forall i layer, (i < collection_size)%nat -> In layer layers ->
       matches_under_mask
         (layer_mask vgg_19 resize_images bw fakes i layer)
         (act_fake vgg_19 fakes i layer) (act_real vgg_19 real layer)).
Proof.
  apply (loss_nonneg_zero_iff vgg_19 resize_images B H W dims vgg_shape
           resize_shape resize_nonneg collection_size bw fakes real bw_batch
           fakes_shape real_shape bw_nonneg ltac:(unfold collection_size; lia)
           lambda_weights lambda_weights_positive eq_refl).
Qed.

(** C6: with activations and a non-negative mask fixed, raising one of
    the layer weights does not lower the loss. *)
Theorem loss_monotone_in_each_weight (weights : list Q) (j : nat) (x : Q) :
  (j < length weights)%nat -> nth j weights 0 <= x ->
  exists a b,
    build_loss_func_with vgg_19 resize_images weights collection_size
      sgru_model real = Some a /\
    build_loss_func_with vgg_19 resize_images (update_nth j x weights)
      collection_size sgru_model real = Some b /\
    a <= b.
Proof.
  intros Hj Hx.
  apply (loss_mono vgg_19 resize_images B H W dims vgg_shape
           resize_shape resize_nonneg collection_size bw fakes real bw_batch
           fakes_shape real_shape bw_nonneg ltac:(unfold collection_size; lia)).
  now apply update_nth_le.
Qed.

End LossClaims.

(** C1, as stated: the blend of the losses 10 and 20 is not 9.9975 (it is
    10.005). *)
Lemma two_candidate_blend_is_not_9_9975 :
  ~ (exists v, blend [10; 20] = Some v /\ v == 9.9975).
Proof.
  intros (v & E & Hv). vm_compute in E. injection E as <-.
  unfold Qeq in Hv. vm_compute in Hv. discriminate.
Qed.

Lemma final_loss_is_min_mean_blend_witness :
  has_shape 1 1 1 27 ex_fakes = true /\ has_shape 1 1 1 3 ex_real = true /\
  ((exists losses mn me loss,
      mapM (loss_collection identity_features constant_resize lambda_weights
              ex_bw ex_fakes ex_real (identity_features ex_real))
           (seq 0 collection_size) = Some losses /\
      length losses = collection_size /\
      is_min mn losses /\ is_mean me losses /\
      build_loss_func identity_features constant_resize
        {| image_bw := ex_bw; images_rgb_fake := ex_fakes |} ex_real = Some loss /\
      loss == 0.999 * mn + 0.001 * me) /\
   (exists v, blend [10; 20] = Some v /\
              v == 0.999 * 10 + 0.001 * 15 /\ v == 10.005)).
Proof.
  split; [reflexivity|]. split; [reflexivity|].
  exact (final_loss_is_min_mean_blend identity_features constant_resize
           1 1 1 (fun _ => (1, 1, 3)%nat) (identity_features_shape 1 1 1)
           constant_resize_shape ex_bw ex_fakes ex_real
           eq_refl eq_refl eq_refl).
Defined.

Lemma layer_scores_and_candidate_loss_witness :
  (4 < collection_size)%nat /\
  loss_collection identity_features constant_resize lambda_weights
    ex_bw ex_fakes ex_real (identity_features ex_real) 4
  = Some (sumQ (map (score identity_features constant_resize 1 1 1
                       (fun _ => (1, 1, 3)%nat) ex_bw ex_fakes ex_real 4)
                    (combine lambda_weights layers))).
Proof.
  split; [unfold collection_size; lia|].
  apply (layer_scores_and_candidate_loss identity_features constant_resize
           1 1 1 (fun _ => (1, 1, 3)%nat) (identity_features_shape 1 1 1)
           constant_resize_shape ex_bw ex_fakes ex_real
           eq_refl eq_refl eq_refl 4).
  unfold collection_size; lia.
Defined.

Lemma loss_nonneg_and_zero_iff_match_witness :
  has_shape 1 1 1 27 ex_fakes = true /\ nonneg ex_bw /\
  exists loss,
    build_loss_func identity_features constant_resize
      {| image_bw := ex_bw; images_rgb_fake := ex_fakes |} ex_real = Some loss /\
    0 <= loss /\
    (loss == 0 <->
     forall i layer, (i < collection_size)%nat -> In layer layers ->
       matches_under_mask
         (layer_mask identity_features constant_resize ex_bw ex_fakes i layer)
         (act_fake identity_features ex_fakes i layer)
         (act_real identity_features ex_real layer)).
Proof.
  split; [reflexivity|]. split; [exact ex_bw_nonneg|].
  exact (loss_nonneg_and_zero_iff_match identity_features constant_resize
           1 1 1 (fun _ => (1, 1, 3)%nat) (identity_features_shape 1 1 1)
           constant_resize_shape constant_resize_nonneg ex_bw ex_fakes ex_real
           eq_refl eq_refl eq_refl ex_bw_nonneg).
Defined.

Lemma loss_monotone_in_each_weight_witness :
  (2 < length lambda_weights)%nat /\ nth 2 lambda_weights 0 <= 1 /\
  exists a b,
    build_loss_func_with identity_features constant_resize lambda_weights
      collection_size {| image_bw := ex_bw; images_rgb_fake := ex_fakes |} ex_real
    = Some a /\
    build_loss_func_with identity_features constant_resize
      (update_nth 2 1 lambda_weights)
      collection_size {| image_bw := ex_bw; images_rgb_fake := ex_fakes |} ex_real
    = Some b /\
    a <= b.
Proof.
  split; [cbn; lia|]. split; [cbn; lra|].
  apply (loss_monotone_in_each_weight identity_features constant_resize
           1 1 1 (fun _ => (1, 1, 3)%nat) (identity_features_shape 1 1 1)
           constant_resize_shape constant_resize_nonneg ex_bw ex_fakes ex_real
           eq_refl eq_refl eq_refl ex_bw_nonneg lambda_weights 2 1).
  - cbn; lia.
  - cbn; lra.
Defined.

(** * Slicing a bundle and putting it back together *)

Lemma tabulate_app {A} (a b : nat) (g : nat -> A) :
  tabulate (a + b) g = tabulate a g ++ tabulate b (fun k => g (a + k)%nat).
Proof.
  induction a as [|a IH] in g |- *; [reflexivity|].
  cbn [Nat.add]. rewrite !tabulate_S, IH. reflexivity.
Qed.

Lemma concat_chans_tabulate4 (B R C K1 K2 : nat)
  (f1 f2 : nat -> nat -> nat -> nat -> Q) :
  concat_chans (tabulate4 B R C K1 f1) (tabulate4 B R C K2 f2)
  = Some (tabulate4 B R C (K1 + K2)
            (fun b r c k => if (k <? K1)%nat then f1 b r c k
                            else f2 b r c (k - K1)%nat)).
Proof.
  unfold concat_chans, tabulate4.
  apply (zip_with_opt_nth _ _ [] []); try apply length_tabulate.
  intros b Hb. rewrite !nth_tabulate by exact Hb.
  apply (zip_with_opt_nth _ _ [] []); try apply length_tabulate.
  intros r Hr. rewrite !nth_tabulate by exact Hr.
  apply (zip_with_opt_nth _ _ [] []); try apply length_tabulate.
  intros c Hc. rewrite !nth_tabulate by exact Hc.
  f_equal. rewrite tabulate_app. f_equal.
  - apply tabulate_ext. intros k Hk.
    destruct (Nat.ltb_spec k K1); [reflexivity | lia].
  - apply tabulate_ext. intros k Hk.
    destruct (Nat.ltb_spec (K1 + k) K1); [lia|].
    f_equal. lia.
Qed.

Section Reassemble.

Variables (B R C : nat) (f : nat -> nat -> nat -> nat -> Q).

Local Abbreviation prefix := (channel_prefix B R C f).
Local Abbreviation piece := (channel_piece B R C f).

Lemma concat_prefix_piece (j : nat) :
  concat_chans (prefix (3 * j)) (piece j) = Some (prefix (3 * (j + 1))).
Proof.
  unfold channel_prefix, channel_piece. rewrite concat_chans_tabulate4.
  replace (3 * (j + 1))%nat with (3 * j + 3)%nat by lia.
  f_equal. apply tabulate4_ext. intros b r c k _ _ _ Hk.
  destruct (Nat.ltb_spec k (3 * j)); [reflexivity|].
  f_equal. lia.
Qed.

Lemma fold_concat_pieces (m : nat) : forall j,
  fold_left (fun acc q => acc' <- acc ;; concat_chans acc' q)
            (map piece (seq j m)) (Some (prefix (3 * j)))
  = Some (prefix (3 * (j + m))).
Proof.
  induction m as [|m IH]; intros j.
  - cbn [seq map fold_left]. now rewrite Nat.add_0_r.
  - cbn [seq map fold_left bind].
    rewrite concat_prefix_piece.
    replace (j + S m)%nat with ((j + 1) + m)%nat by lia.
    replace (S j) with (j + 1)%nat by lia.
    apply IH.
Qed.

Lemma reassemble_pieces (n : nat) :
  (0 < n)%nat ->
  reassemble (map piece (seq 0 n)) = Some (prefix (3 * n)).
Proof.
  intros Hn. destruct n as [|n]; [lia|].
  cbn [seq map reassemble].
  assert (E : piece 0 = prefix (3 * 1)) by reflexivity.
  rewrite E. rewrite (fold_concat_pieces n 1).
  reflexivity.
Qed.

End Reassemble.

(** C7: cutting a bundle of 27 channels into the 9 candidates at offsets
    0, 3, ..., 24 and concatenating them along the channel axis gives the
    bundle back. *)
Theorem reassemble_slices_roundtrip (B H W : nat) (bundle : tensor) :
  has_shape B H W 27 bundle = true ->
  map (fun i => (i * 3)%nat) (seq 0 collection_size)
    = [0; 3; 6; 9; 12; 15; 18; 21; 24]%nat /\
  reassemble (map (fun i => candidate i bundle) (seq 0 collection_size))
  = Some bundle.
Proof.
  intros Hs. split; [reflexivity|].
  apply has_shape_shaped in Hs.
  rewrite (map_ext_in _
             (fun i => tabulate4 B H W 3
                         (fun b r c k => at4 bundle b r c (i * 3 + k)%nat))).
  - fold (channel_piece B H W (at4 bundle)).
    rewrite (reassemble_pieces B H W (at4 bundle) collection_size)
      by (unfold collection_size; lia).
    f_equal. symmetry. now apply shaped_at4.
  - intros i Hi. apply in_seq in Hi.
    apply (candidate_tabulate4 collection_size); [exact Hs | lia].
Qed.

Lemma reassemble_slices_roundtrip_witness :
  has_shape 1 1 1 27 ex_fakes = true /\
  reassemble (map (fun i => candidate i ex_fakes) (seq 0 collection_size))
  = Some ex_fakes.
Proof.
  split; [reflexivity|].
  exact (proj2 (reassemble_slices_roundtrip 1 1 1 ex_fakes eq_refl)).
Defined.

(** * [save_images]: the tiled image *)

Lemma length_concat_uniform {A} (n : nat) (ls : list (list A)) :
  (forall l, In l ls -> length l = n) ->
  length (concat ls) = (length ls * n)%nat.
Proof.
  induction ls as [|l ls IH]; intros Hl; [reflexivity|].
  cbn [concat length]. rewrite length_app, IH by (intros; apply Hl; now right).
  rewrite (Hl l) by now left. lia.
Qed.

Lemma nth_concat_uniform {A} (n : nat) (ls : list (list A)) (d : A) :
  (forall l, In l ls -> length l = n) ->
  forall k c, (k < length ls)%nat -> (c < n)%nat ->
  nth (k * n + c) (concat ls) d = nth c (nth k ls []) d.
Proof.
  induction ls as [|l ls IH]; intros Hl k c Hk Hc; [cbn in Hk; lia|].
  cbn [concat]. pose proof (Hl l ltac:(now left)) as El.
  destruct k as [|k].
  - cbn [Nat.mul Nat.add nth]. apply app_nth1. lia.
  - replace (S k * n + c)%nat with (length l + (k * n + c))%nat by lia.
    rewrite app_nth2_plus. cbn [nth].
    apply IH; [intros; apply Hl; now right | cbn in Hk; lia | exact Hc].
Qed.

Lemma combine_tabulate {A A'} (n : nat) : forall (f : nat -> A) (g : nat -> A'),
  combine (tabulate n f) (tabulate n g) = tabulate n (fun i => (f i, g i)).
Proof.
  induction n as [|n IH]; intros f g; [reflexivity|].
  rewrite !tabulate_S. cbn [combine]. now rewrite IH.
Qed.

Lemma mapM_tabulate {A A'} (f : A -> option A') (n : nat) :
  forall (g : nat -> A) (h : nat -> A'),
    (forall i, (i < n)%nat -> f (g i) = Some (h i)) ->
    mapM f (tabulate n g) = Some (tabulate n h).
Proof.
  induction n as [|n IH]; intros g h Hf; [reflexivity|].
  rewrite !tabulate_S. cbn [mapM]. rewrite (Hf 0%nat) by lia. cbn [bind].
  rewrite (IH (fun i => g (S i)) (fun i => h (S i))); [reflexivity|].
  intros i Hi. apply Hf. lia.
Qed.

Lemma hd_tabulate {A} (n : nat) (g : nat -> A) (d : A) :
  (0 < n)%nat -> hd d (tabulate n g) = g 0%nat.
Proof.
  intros Hn. destruct n as [|n]; [lia|]. now rewrite tabulate_S.
Qed.

Section TileFacts.

Context {A : Type}.

Lemma hstack2_tabulate (H : nat) (rowA rowB : nat -> list (list A)) :
  chans (tabulate H rowA) = chans (tabulate H rowB) ->
  hstack2 (tabulate H rowA) (tabulate H rowB)
  = Some (tabulate H (fun r => rowA r ++ rowB r)).
Proof.
  intros Hc. unfold hstack2. rewrite Hc, Nat.eqb_refl.
  apply (zip_with_opt_nth _ _ [] []); try apply length_tabulate.
  intros r Hr. now rewrite !nth_tabulate.
Qed.

Variables (H W K : nat).
Hypothesis H_pos : (0 < H)%nat.
Hypothesis W_pos : (0 < W)%nat.

Lemma fold_hstack_tiles (Ps : list (nat -> nat -> list A)) :
  forall rowacc : nat -> list (list A),
    rowacc 0%nat <> [] -> length (hd [] (rowacc 0%nat)) = K ->
    (forall P, In P Ps -> length (P 0%nat 0%nat) = K) ->
    fold_left (fun acc b => acc' <- acc ;; hstack2 acc' b)
      (map (fun P => tabulate H (fun r => tabulate W (P r))) Ps)
      (Some (tabulate H rowacc))
    = Some (tabulate H (fun r =>
              rowacc r ++ concat (map (fun P => tabulate W (P r)) Ps))).
Proof.
  induction Ps as [|P Ps IH]; intros rowacc Hne Hk HP.
  - cbn [map fold_left concat]. f_equal. apply tabulate_ext.
    intros r _. now rewrite app_nil_r.
  - cbn [map fold_left bind concat].
    rewrite hstack2_tabulate.
    + rewrite (IH (fun r => rowacc r ++ tabulate W (P r))).
      * f_equal. apply tabulate_ext. intros r _. now rewrite app_assoc.
      * destruct (rowacc 0%nat); [contradiction | discriminate].
      * destruct (rowacc 0%nat); [contradiction | exact Hk].
      * intros P' HP'. apply HP. now right.
    + unfold chans. rewrite !hd_tabulate by assumption.
      rewrite Hk. symmetry. apply HP. now left.
Qed.

Lemma hstack_tiles (P0 : nat -> nat -> list A) (Ps : list (nat -> nat -> list A)) :
  (forall P, In P (P0 :: Ps) -> length (P 0%nat 0%nat) = K) ->
  hstack (map (fun P => tabulate H (fun r => tabulate W (P r))) (P0 :: Ps))
  = Some (tabulate H (fun r =>
            concat (map (fun P => tabulate W (P r)) (P0 :: Ps)))).
Proof.
  intros HP. cbn [map hstack concat].
  apply fold_hstack_tiles.
  - destruct W; [lia|]. rewrite tabulate_S. discriminate.
  - rewrite hd_tabulate by assumption. apply HP. now left.
  - intros P HPin. apply HP. now right.
Qed.

Lemma vstack_tabulate (B Wd : nat) (rows : nat -> nat -> list (list A)) :
  (0 < B)%nat ->
  (forall b, (b < B)%nat ->
     length (rows b 0%nat) = Wd /\ length (hd [] (rows b 0%nat)) = K) ->
  vstack (tabulate B (fun b => tabulate H (rows b)))
  = Some (concat (tabulate B (fun b => tabulate H (rows b)))).
Proof.
  intros HB Hrows. destruct B as [|B]; [lia|].
  rewrite tabulate_S. unfold vstack.
  replace (forallb _ _) with true; [reflexivity|].
  symmetry. apply forallb_forall. intros img Hin.
  apply in_tabulate in Hin as (b & Hb & ->).
  unfold width, chans. rewrite !hd_tabulate by assumption.
  destruct (Hrows 0%nat ltac:(lia)) as [-> ->].
  destruct (Hrows (S b) ltac:(lia)) as [-> ->].
  now rewrite !Nat.eqb_refl.
Qed.

End TileFacts.

Lemma scale_cast_shaped (B R C K : nat) (t : tensor) :
  shaped B R C K t ->
  scale_cast t
  = tabulate4 B R C K (fun b r c k => astype_uint8 (round_float32 (at4 t b r c k * 255))).
Proof.
  intros Hs. unfold scale_cast.
  rewrite (shaped_at4 _ _ _ _ _ Hs) at 1.
  rewrite (map_tabulate4 (fun x => astype_uint8 (round_float32 (x * 255)))). reflexivity.
Qed.

Lemma slice_chans3_tabulate {A} (lo hi H W K : nat) (g : nat -> nat -> nat -> A) :
  (hi <= K)%nat ->
  slice_chans3 lo hi (tabulate H (fun r => tabulate W (fun c => tabulate K (g r c))))
  = tabulate H (fun r => tabulate W (fun c =>
      tabulate (hi - lo) (fun k => g r c (lo + k)%nat))).
Proof.
  intros Hhi. unfold slice_chans3.
  unfold tabulate at 1 4. rewrite map_map. apply map_ext; intros r.
  unfold tabulate at 1 3. rewrite map_map. apply map_ext; intros c.
  now apply py_slice_tabulate.
Qed.

Lemma cvtColor_tabulate (H W : nat) (g : nat -> nat -> nat -> Z) :
  (0 < H)%nat -> (0 < W)%nat ->
  cvtColor_GRAY2BGR
    (tabulate H (fun r => tabulate W (fun c => tabulate 1 (g r c))))
  = Some (tabulate H (fun r => tabulate W (fun c =>
            [g r c 0%nat; g r c 0%nat; g r c 0%nat]))).
Proof.
  intros HH HW. unfold cvtColor_GRAY2BGR, width.
  rewrite length_tabulate, hd_tabulate, length_tabulate by exact HH.
  destruct (Nat.eqb_spec H 0); [lia|]. destruct (Nat.eqb_spec W 0); [lia|].
  cbn [orb]. apply mapM_tabulate. intros r _.
  apply mapM_tabulate. intros c _. reflexivity.
Qed.

Section SaveImages.

Variables (B H W : nat) (fake real bw : tensor).
Hypothesis B_pos : (0 < B)%nat.
Hypothesis H_pos : (0 < H)%nat.
Hypothesis W_pos : (0 < W)%nat.
Hypothesis fake_shape : has_shape B H W 27 fake = true.
Hypothesis real_shape : has_shape B H W 3 real = true.
Hypothesis bw_shape : has_shape B H W 1 bw = true.

Local Abbreviation tile := (tile_at fake real bw).

Lemma row_image_tiles (b : nat) :
  row_image
    (tabulate H (fun r => tabulate W (fun c => tabulate 1 (fun k =>
       astype_uint8 (round_float32 (at4 bw b r c k * 255))))),
     tabulate H (fun r => tabulate W (fun c => tabulate 3 (fun k =>
       astype_uint8 (round_float32 (at4 real b r c k * 255))))),
     tabulate H (fun r => tabulate W (fun c => tabulate 27 (fun k =>
       astype_uint8 (round_float32 (clip01 (at4 fake b r c k) * 255))))))
  = Some (tabulate H (fun r =>
            concat (map (fun k => tabulate W (tile b k r)) (seq 0 11)))).
Proof.
  unfold row_image. rewrite cvtColor_tabulate by assumption. cbn [bind].
  rewrite (map_ext_in _ (fun i => tabulate H (fun r => tabulate W (tile b (S (S i)) r)))).
  - change ([tabulate H (fun r => tabulate W (fun c =>
               [astype_uint8 (round_float32 (at4 bw b r c 0 * 255));
                astype_uint8 (round_float32 (at4 bw b r c 0 * 255));
                astype_uint8 (round_float32 (at4 bw b r c 0 * 255))]));
             tabulate H (fun r => tabulate W (fun c => tabulate 3 (fun k =>
               astype_uint8 (round_float32 (at4 real b r c k * 255)))))]
            ++ map (fun i => tabulate H (fun r => tabulate W (tile b (S (S i)) r)))
                   (seq 0 9))
      with (map (fun P => tabulate H (fun r => tabulate W (P r)))
                (tile b 0%nat :: map (tile b) (seq 1 10))).
    rewrite (hstack_tiles H W 3 H_pos W_pos).
    + reflexivity.
    + cbn [seq map]. intros P HP.
      repeat (destruct HP as [<-|HP]; [reflexivity|]).
      destruct HP.
  - intros i Hi. apply in_seq in Hi.
    rewrite slice_chans3_tabulate by lia.
    replace ((i + 1) * 3 - i * 3)%nat with 3%nat by lia. reflexivity.
Qed.

Lemma save_images_tiled :
  save_images fake real bw = Some (tiled B H W fake real bw).
Proof.
  pose proof (has_shape_shaped _ _ _ _ _ fake_shape) as Hf.
  assert (Ef : scale_cast (map4 clip01 fake)
               = tabulate4 B H W 27 (fun b r c k =>
                   astype_uint8 (round_float32 (clip01 (at4 fake b r c k) * 255)))).
  { rewrite (map4_shaped clip01 B H W 27 fake Hf). unfold scale_cast.
    rewrite (map_tabulate4 (fun x => astype_uint8 (round_float32 (x * 255)))). reflexivity. }
  unfold save_images. rewrite Ef.
  rewrite (scale_cast_shaped B H W 3 real (has_shape_shaped _ _ _ _ _ real_shape)).
  rewrite (scale_cast_shaped B H W 1 bw (has_shape_shaped _ _ _ _ _ bw_shape)).
  unfold tabulate4. rewrite !combine_tabulate.
  rewrite (mapM_tabulate row_image B _
             (fun b => tabulate H (fun r =>
                concat (map (fun k => tabulate W (tile b k r)) (seq 0 11)))))
    by (intros b _; apply row_image_tiles).
  cbn [bind].
  rewrite (vstack_tabulate H W 3 H_pos W_pos B (11 * W)); [reflexivity | exact B_pos |].
  intros b _. split.
  - rewrite (length_concat_uniform W).
    + now rewrite length_map, length_seq.
    + intros l Hl. apply in_map_iff in Hl as (k & <- & _).
      apply length_tabulate.
  - cbn [seq map concat]. destruct W as [|w]; [lia|].
    rewrite tabulate_S. reflexivity.
Qed.

Lemma tiled_height : length (tiled B H W fake real bw) = (B * H)%nat.
Proof.
  unfold tiled. rewrite (length_concat_uniform H).
  - now rewrite length_map, length_seq.
  - intros l Hl. apply in_map_iff in Hl as (b & <- & _).
    now rewrite length_map, length_seq.
Qed.

Lemma tiled_width (row : list upixel) :
  In row (tiled B H W fake real bw) -> length row = (11 * W)%nat.
Proof.
  unfold tiled. intros Hin. apply in_concat in Hin as (rows & Hrows & Hin).
  apply in_map_iff in Hrows as (b & <- & _).
  apply in_map_iff in Hin as (r & <- & _).
  rewrite (length_concat_uniform W).
  - now rewrite length_map, length_seq.
  - intros l Hl. apply in_map_iff in Hl as (k & <- & _).
    now rewrite length_map, length_seq.
Qed.

Lemma tiled_pixel (b r k c : nat) :
  (b < B)%nat -> (r < H)%nat -> (k < 11)%nat -> (c < W)%nat ->
  nth (k * W + c) (nth (b * H + r) (tiled B H W fake real bw) []) []
  = tile_pixel fake real bw b r k c.
Proof.
  intros Hb Hr Hk Hc. unfold tiled.
  rewrite (nth_concat_uniform H).
  - fold (tabulate B (fun b => map (fun r =>
            concat (map (fun k => map (fun c => tile_pixel fake real bw b r k c)
                                      (seq 0 W)) (seq 0 11))) (seq 0 H))).
    rewrite nth_tabulate by exact Hb.
    fold (tabulate H (fun r =>
            concat (map (fun k => map (fun c => tile_pixel fake real bw b r k c)
                                      (seq 0 W)) (seq 0 11)))).
    rewrite nth_tabulate by exact Hr.
    rewrite (nth_concat_uniform W).
    + fold (tabulate 11 (fun k => map (fun c => tile_pixel fake real bw b r k c)
                                      (seq 0 W))).
      rewrite nth_tabulate by exact Hk.
      fold (tabulate W (fun c => tile_pixel fake real bw b r k c)).
      now rewrite nth_tabulate.
    + intros l Hl. apply in_map_iff in Hl as (k' & <- & _).
      now rewrite length_map, length_seq.
    + now rewrite length_map, length_seq.
    + exact Hc.
  - intros l Hl. apply in_map_iff in Hl as (b' & <- & _).
    now rewrite length_map, length_seq.
  - now rewrite length_map, length_seq.
  - exact Hr.
Qed.

End SaveImages.

(** C8: for a batch of [B] examples of [H] by [W] pixels with 9
    candidates, [save_images] writes an image of [B * H] rows of
    [(2 + 9) * W] pixels; the rows of example [b] hold, from left to
    right, the grayscale input as three equal channels, the ground truth
    and candidates 0 to 8. *)
Theorem save_images_tiling (B H W : nat) (fake real bw : tensor) :
  (0 < B)%nat -> (0 < H)%nat -> (0 < W)%nat ->
  has_shape B H W 27 fake = true ->
  has_shape B H W 3 real = true ->
  has_shape B H W 1 bw = true ->
  exists out_image,
    save_images fake real bw = Some out_image /\
    length out_image = (B * H)%nat /\
    (forall row, In row out_image -> length row = ((2 + 9) * W)%nat) /\
    (forall b r k c,
       (b < B)%nat -> (r < H)%nat -> (k < 2 + 9)%nat -> (c < W)%nat ->
       nth (k * W + c) (nth (b * H + r) out_image []) []
       = tile_pixel fake real bw b r k c).
Proof.
  intros HB HH HW Hf Hr Hbw. exists (tiled B H W fake real bw).
  split; [now apply save_images_tiled|].
  split; [apply tiled_height|].
  split; [apply tiled_width|].
  intros b r k c. apply tiled_pixel.
Qed.

Lemma save_images_tiling_witness :
  has_shape 1 1 1 27 ex_fakes = true /\
  has_shape 1 1 1 3 ex_real_wide = true /\
  has_shape 1 1 1 1 ex_bw_wide = true /\
  exists out_image,
    save_images ex_fakes ex_real_wide ex_bw_wide = Some out_image /\
    length out_image = (1 * 1)%nat /\
    (forall row, In row out_image -> length row = ((2 + 9) * 1)%nat) /\
    (forall b r k c,
       (b < 1)%nat -> (r < 1)%nat -> (k < 2 + 9)%nat -> (c < 1)%nat ->
       nth (k * 1 + c) (nth (b * 1 + r) out_image []) []
       = tile_pixel ex_fakes ex_real_wide ex_bw_wide b r k c).
Proof.
  repeat (split; [reflexivity|]).
  apply (save_images_tiling 1 1 1 ex_fakes ex_real_wide ex_bw_wide);
    (lia || reflexivity).
Defined.

(** ** Clipping, the float32 product and the cast to 8 bits *)

Lemma clip01_range (x : Q) : 0 <= clip01 x <= 1.
Proof.
  unfold clip01. split.
  - apply Q.min_glb; [apply Q.le_max_r | lra].
  - apply Q.le_min_r.
Qed.

Lemma Qtrunc_range (y : Q) :
  0 <= y -> y <= 255 -> (0 <= Qtrunc y <= 255)%Z.
Proof.
  destruct y as [n d]. unfold Qle, Qtrunc. cbn. intros H0 H255.
  rewrite Z.quot_div_nonneg by lia. split.
  - apply Z.div_pos; lia.
  - apply Z.div_le_upper_bound; lia.
Qed.

Lemma round_half_even_le (p q K : Z) :
  (0 < q)%Z -> (p <= K * q)%Z -> (round_half_even p q <= K)%Z.
Proof.
  intros Hq Hp. unfold round_half_even.
  pose proof (Z.div_mod p q ltac:(lia)) as E.
  pose proof (Z.mod_pos_bound p q Hq) as Hr.
  assert (Hf : (p / q <= K)%Z) by (apply Z.div_le_upper_bound; lia).
  destruct (Z.compare_spec (2 * (p mod q)) q);
    [destruct (Z.even (p / q))| |]; nia.
Qed.

Lemma round_half_even_nonneg (p q : Z) :
  (0 < q)%Z -> (0 <= p)%Z -> (0 <= round_half_even p q)%Z.
Proof.
  intros Hq Hp. unfold round_half_even.
  assert (Hf : (0 <= p / q)%Z) by (apply Z.div_pos; lia).
  destruct (2 * (p mod q) ?= q)%Z; [destruct (Z.even (p / q))| |]; lia.
Qed.

Lemma round_float32_Qeq (x y : Q) : x == y -> round_float32 x = round_float32 y.
Proof.
  intros E. unfold round_float32. now rewrite (Qred_complete x y E).
Qed.

Lemma floor_log2_upper (n : Z) (d : positive) :
  (Zpos d <= n)%Z ->
  (0 <= floor_log2 n d)%Z /\ (n < Zpos d * 2 ^ (floor_log2 n d + 1))%Z.
Proof.
  intros Hn. unfold floor_log2.
  destruct (Z.leb_spec (Zpos d) n) as [_|]; [|lia].
  assert (Hq : (0 < n / Zpos d)%Z) by (apply Z.div_str_pos; lia).
  split; [apply Z.log2_nonneg|].
  pose proof (Z.log2_spec (n / Zpos d) Hq) as [_ Hu].
  replace (Z.succ (Z.log2 (n / Z.pos d))) with (Z.log2 (n / Z.pos d) + 1)%Z in Hu by lia.
  destruct (Z.lt_ge_cases n (Zpos d * 2 ^ (Z.log2 (n / Zpos d) + 1))) as [|Hge]; [assumption|].
  apply Z.div_le_lower_bound in Hge; lia.
Qed.

Lemma floor_log2_small (n : Z) (d : positive) :
  (0 < n)%Z -> (n < Zpos d)%Z -> (floor_log2 n d <= 0)%Z.
Proof.
  intros Hn Hd. unfold floor_log2.
  destruct (Z.leb_spec (Zpos d) n); [lia|].
  pose proof (Z.log2_up_nonneg ((Zpos d + n - 1) / n)). lia.
Qed.

Lemma pow2_pos (e : Z) : (0 <= e)%Z -> (0 < 2 ^ e)%Z.
Proof. intros. apply Z.pow_pos_nonneg; lia. Qed.

Lemma significand_nonneg (e n : Z) (d : positive) :
  (0 <= n)%Z -> (0 <= significand e n d)%Z.
Proof.
  intros Hn. unfold significand.
  destruct (Z.leb_spec 0 e); apply round_half_even_nonneg; try lia.
  all: try (pose proof (pow2_pos e); nia).
  all: pose proof (pow2_pos (- e)); nia.
Qed.

(** The significand has at most 24 bits, or is exactly [2 ^ 24]. *)
Lemma significand_le_pos (n : Z) (d : positive) :
  (0 < n)%Z -> (0 <= ulp_exponent n d)%Z ->
  (significand (ulp_exponent n d) n d <= 2 ^ 24)%Z.
Proof.
  intros Hn He. unfold significand.
  destruct (Z.leb_spec 0 (ulp_exponent n d)); [|lia].
  unfold ulp_exponent in *.
  destruct (Z.le_gt_cases (Zpos d) n) as [Hd|Hd].
  - destruct (floor_log2_upper n d Hd) as [H0 Hu].
    assert (E : Z.max (floor_log2 n d - 23) (-149) = (floor_log2 n d - 23)%Z) by lia.
    rewrite E in *.
    apply round_half_even_le.
    + pose proof (pow2_pos (floor_log2 n d - 23)). nia.
    + replace (floor_log2 n d + 1)%Z with ((floor_log2 n d - 23) + 24)%Z in Hu by lia.
      rewrite Z.pow_add_r in Hu by lia. lia.
  - pose proof (floor_log2_small n d Hn Hd). lia.
Qed.

Lemma significand_le_neg (n : Z) (d : positive) :
  (0 < n)%Z -> (ulp_exponent n d < 0)%Z ->
  (significand (ulp_exponent n d) n d <= 2 ^ 23 * 2 ^ (- ulp_exponent n d))%Z.
Proof.
  intros Hn He. unfold significand.
  destruct (Z.leb_spec 0 (ulp_exponent n d)); [lia|].
  pose proof (pow2_pos (- ulp_exponent n d) ltac:(lia)) as Hp.
  apply round_half_even_le; [lia|].
  assert (Hb : (n <= 2 ^ 23 * Zpos d)%Z).
  { destruct (Z.le_gt_cases (Zpos d) n) as [Hd|Hd]; [|lia].
    destruct (floor_log2_upper n d Hd) as [H0 Hu].
    unfold ulp_exponent in He.
    assert (Hl : (floor_log2 n d + 1 <= 23)%Z) by lia.
    pose proof (Z.pow_le_mono_r 2 _ _ ltac:(lia) Hl). nia. }
  nia.
Qed.

Lemma Qtrunc_inject_Z (z : Z) : Qtrunc (inject_Z z) = z.
Proof. unfold Qtrunc. cbn. apply Z.quot_1_r. Qed.

(** Every float32 of magnitude [2 ^ 31] or more is a multiple of 256, so
    the detour of the cast through a 32-bit integer never shows. *)
Lemma astype_uint8_float32 (x : Q) :
  astype_uint8 (round_float32 x) = (Qtrunc (round_float32 x) mod 256)%Z.
Proof.
  unfold astype_uint8.
  destruct (in_int32 (Qtrunc (round_float32 x))) eqn:Hin; [reflexivity|].
  symmetry. revert Hin. unfold round_float32.
  set (r := Qred x). set (n := Z.abs (Qnum r)).
  destruct (Z.eqb_spec n 0) as [|Hn0]; [discriminate|].
  assert (Hn : (0 < n)%Z) by (subst n; lia).
  set (e := ulp_exponent n (Qden r)).
  pose proof (significand_nonneg e n (Qden r) ltac:(lia)) as Hm0.
  assert (Hs : (-1 <= Z.sgn (Qnum r) <= 1)%Z) by lia.
  unfold scale_pow2. destruct (Z.leb_spec 0 e) as [He|He].
  - rewrite Qtrunc_inject_Z.
    pose proof (significand_le_pos n (Qden r) Hn He) as Hm. fold e in Hm.
    set (m := significand e n (Qden r)) in *.
    unfold in_int32. intros Hin.
    destruct (Z.le_gt_cases 8 e) as [H8|H8].
    + replace e with (8 + (e - 8))%Z by lia.
      rewrite Z.pow_add_r by lia.
      replace (Z.sgn (Qnum r) * m * (2 ^ 8 * 2 ^ (e - 8)))%Z
        with ((Z.sgn (Qnum r) * m * 2 ^ (e - 8)) * 256)%Z by (change (2 ^ 8)%Z with 256%Z; ring).
      apply Z.mod_mul. lia.
    + assert (He' : e = 0%Z \/ e = 1%Z \/ e = 2%Z \/ e = 3%Z \/ e = 4%Z \/ e = 5%Z
                      \/ e = 6%Z \/ e = 7%Z) by lia.
      change (2 ^ 24)%Z with 16777216%Z in Hm.
      change (2 ^ 31)%Z with 2147483648%Z in Hin.
      apply andb_false_iff in Hin.
      destruct He' as [E|[E|[E|[E|[E|[E|[E|E]]]]]]]; rewrite E in *;
        match goal with |- context [(2 ^ ?k)%Z] =>
          let v := eval vm_compute in (2 ^ k)%Z in change (2 ^ k)%Z with v in * end;
        try (exfalso; destruct Hin as [Hin|Hin];
             [apply Z.leb_gt in Hin | apply Z.ltb_ge in Hin]; nia).
      assert (Em : (Z.sgn (Qnum r) * m = 16777216)%Z).
      { destruct Hin as [Hin|Hin];
          [apply Z.leb_gt in Hin | apply Z.ltb_ge in Hin]; nia. }
      rewrite Em. reflexivity.
  - pose proof (significand_le_neg n (Qden r) Hn He) as Hm. fold e in Hm.
    set (m := significand e n (Qden r)) in *.
    unfold in_int32. intros Hin. exfalso.
    pose proof (pow2_pos (- e) ltac:(lia)) as Hp.
    assert (Ht : (Z.abs (Qtrunc (Z.sgn (Qnum r) * m # Z.to_pos (2 ^ (- e)))) <= 2 ^ 23)%Z).
    { unfold Qtrunc. cbn [Qnum Qden]. rewrite Z2Pos.id by lia.
      rewrite <- Z.quot_abs by lia.
      rewrite (Z.abs_eq (2 ^ (- e))) by lia.
      apply Z.quot_le_upper_bound; [lia|].
      rewrite Z.abs_mul. rewrite (Z.abs_eq m) by lia.
      assert (Z.abs (Z.sgn (Qnum r)) <= 1)%Z by lia. nia. }
    change (2 ^ 23)%Z with 8388608%Z in Ht.
    change (2 ^ 31)%Z with 2147483648%Z in Hin.
    apply andb_false_iff in Hin.
    destruct Hin as [Hin|Hin]; [apply Z.leb_gt in Hin | apply Z.ltb_ge in Hin]; lia.
Qed.

Lemma round_float32_range (y : Q) :
  0 <= y -> y <= 255 -> 0 <= round_float32 y /\ round_float32 y <= 255.
Proof.
  intros H0 H255.
  assert (Er : Qred y == y) by apply Qred_correct.
  rewrite <- Er in H0, H255.
  unfold round_float32. set (r := Qred y) in *.
  destruct r as [rn rd]. cbn [Qnum Qden].
  unfold Qle in H0, H255. cbn in H0, H255.
  assert (Hrn : (0 <= rn)%Z) by lia.
  rewrite (Z.abs_eq rn) by lia.
  destruct (Z.eqb_spec rn 0) as [|Hn0]; [split; discriminate|].
  assert (Hn : (0 < rn)%Z) by lia.
  rewrite (Z.sgn_pos rn) by lia. rewrite Z.mul_1_l.
  assert (He : (ulp_exponent rn rd < 0)%Z).
  { unfold ulp_exponent.
    destruct (Z.le_gt_cases (Zpos rd) rn) as [Hd|Hd].
    - assert (Hl : (floor_log2 rn rd <= 7)%Z).
      { unfold floor_log2. destruct (Z.leb_spec (Zpos rd) rn); [|lia].
        change 7%Z with (Z.log2 255). apply Z.log2_le_mono.
        apply Z.div_le_upper_bound; lia. }
      lia.
    - pose proof (floor_log2_small rn rd Hn Hd). lia. }
  set (e := ulp_exponent rn rd) in *.
  pose proof (pow2_pos (- e) ltac:(lia)) as Hp.
  unfold scale_pow2. destruct (Z.leb_spec 0 e); [lia|].
  pose proof (significand_nonneg e rn rd ltac:(lia)) as Hm0.
  assert (Hm : (significand e rn rd <= 255 * 2 ^ (- e))%Z).
  { unfold significand. destruct (Z.leb_spec 0 e); [lia|].
    apply round_half_even_le; [lia|]. nia. }
  unfold Qle. cbn [Qnum Qden]. rewrite Z2Pos.id by lia. split; lia.
Qed.

Lemma astype_uint8_clipped (x : Q) :
  astype_uint8 (round_float32 (clip01 x * 255))
  = Qtrunc (round_float32 (clip01 x * 255)) /\
  (0 <= Qtrunc (round_float32 (clip01 x * 255)) <= 255)%Z.
Proof.
  pose proof (clip01_range x) as [H0 H1].
  destruct (round_float32_range (clip01 x * 255)) as [Hl Hu]; [nra | nra |].
  pose proof (Qtrunc_range _ Hl Hu) as Hr.
  split; [|exact Hr]. rewrite astype_uint8_float32. apply Z.mod_small. lia.
Qed.

(** C10: only the candidates are clipped.  In the written image a
    candidate tile holds the float32 product of the clipped value by 255
    with its fraction dropped, which lies between 0 and 255 and is written
    as it is; the ground-truth and grayscale tiles hold the float32
    product of the unclipped value by 255 with its fraction dropped,
    reduced modulo 256, so that 2.0 is written as 254 and -0.5 as 129. *)
Theorem only_candidates_are_clipped (B H W : nat) (fake real bw : tensor) :
  (0 < B)%nat -> (0 < H)%nat -> (0 < W)%nat ->
  has_shape B H W 27 fake = true ->
  has_shape B H W 3 real = true ->
  has_shape B H W 1 bw = true ->
  (exists out_image,
     save_images fake real bw = Some out_image /\
     forall b r c, (b < B)%nat -> (r < H)%nat -> (c < W)%nat ->
       let row := nth (b * H + r) out_image [] in
       nth c row []
         = (let g := (Qtrunc (round_float32 (at4 bw b r c 0 * 255)) mod 256)%Z in
            [g; g; g]) /\
       nth (W + c) row []
         = map (fun ch =>
                  (Qtrunc (round_float32 (at4 real b r c ch * 255)) mod 256)%Z)
               [0; 1; 2]%nat /\
       forall i, (i < 9)%nat ->
         nth ((2 + i) * W + c) row []
           = map (fun ch =>
                    Qtrunc (round_float32
                              (clip01 (at4 fake b r c (i * 3 + ch)) * 255)))
                 [0; 1; 2]%nat /\
         forall ch,
           (0 <= Qtrunc (round_float32
                           (clip01 (at4 fake b r c (i * 3 + ch)) * 255))
            <= 255)%Z) /\
  astype_uint8 (round_float32 (2 * 255)) = 254%Z /\
  astype_uint8 (round_float32 ((-1 # 2) * 255)) = 129%Z.
Proof.
  intros HB HH HW Hf Hr Hbw. split; [|split; reflexivity].
  exists (tiled B H W fake real bw).
  split; [now apply save_images_tiled|].
  intros b r c Hb Hr' Hc. cbv zeta. split; [|split].
  - replace c with (0 * W + c)%nat at 1 by lia.
    rewrite tiled_pixel by (assumption || lia).
    cbn [tile_pixel]. now rewrite astype_uint8_float32.
  - replace (W + c)%nat with (1 * W + c)%nat by lia.
    rewrite tiled_pixel by (assumption || lia).
    cbn [tile_pixel map]. now rewrite !astype_uint8_float32.
  - intros i Hi. split.
    + rewrite tiled_pixel by (assumption || lia).
      cbn [Nat.add tile_pixel map].
      now rewrite !(proj1 (astype_uint8_clipped _)).
    + intros ch. apply astype_uint8_clipped.
Qed.

Lemma only_candidates_are_clipped_witness :
  has_shape 1 1 1 27 ex_fakes_f32 = true /\
  has_shape 1 1 1 3 ex_real_f32 = true /\
  has_shape 1 1 1 1 ex_bw_f32 = true /\
  save_images ex_fakes_f32 ex_real_f32 ex_bw_f32
  = Some [[ [0; 0; 0]; [254; 129; 1]; [255; 0; 127]; [255; 0; 63];
            [0; 0; 0]; [0; 0; 0]; [0; 0; 0]; [0; 0; 0];
            [0; 0; 0]; [0; 0; 0]; [0; 0; 0] ]]%Z /\
  astype_uint8 (round_float32 (2 * 255)) = 254%Z.
Proof.
  repeat (split; [vm_compute; reflexivity|]).
  apply (only_candidates_are_clipped 1 1 1 ex_fakes_f32 ex_real_f32 ex_bw_f32);
    (lia || reflexivity).
Defined.

(** * [vgg_19_evaluate] *)



(** * [main] and [train] *)

Local Open Scope string_scope.

(** C3: when the checkpoint file is absent, [main] exits with status 1
    and the download instructions on stderr, and it has done nothing
    before: no directory is created and the trace is unchanged, so there
    is no summary writer and there are no workers. *)
Theorem missing_checkpoint_exits_first
  (num_batches : nat) (sess_run : nat -> nat -> tensor * tensor * tensor)
  (a : args) (w : world) :
  isfile (path_join (data_dir a) "vgg_19.ckpt") w = false ->
  exists status message w',
    main num_batches sess_run a w = (Exited status message, w') /\
    status <> 0%Z /\
    message = "Download VGG19 checkpoint from http://download.tensorflow.org/models/vgg_19_2016_08_28.tar.gz and save it to the root of your data_dir" /\
    dirs w' = dirs w /\ files w' = files w /\ trace w' = trace w.
Proof.
  intros Hmissing. exists 1%Z, missing_checkpoint_message, w.
  unfold main. rewrite Hmissing. cbn [negb].
  repeat split. discriminate.
Qed.

Lemma missing_checkpoint_exits_first_witness :
  isfile (path_join (data_dir ex_args) "vgg_19.ckpt") ex_world_empty = false /\
  exists status message w',
    main 3 ex_sess_run ex_args ex_world_empty = (Exited status message, w') /\
    status <> 0%Z /\
    message = "Download VGG19 checkpoint from http://download.tensorflow.org/models/vgg_19_2016_08_28.tar.gz and save it to the root of your data_dir" /\
    dirs w' = dirs ex_world_empty /\ files w' = files ex_world_empty /\
    trace w' = trace ex_world_empty.
Proof.
  split; [reflexivity|].
  exact (missing_checkpoint_exits_first 3 ex_sess_run ex_args ex_world_empty eq_refl).
Defined.

(** With the checkpoint in place the same call creates the output
    directory and starts the workers. *)
Example main_with_checkpoint_trains :
  let '(result, w') := main 3 ex_sess_run ex_args ex_world_ckpt in
  result = Returned /\
  isdir "out/run" w' = true /\
  nth_error (trace w') 6 = Some (EvFileWriter "out/run") /\
  nth_error (trace w') 8 = Some (EvImageGenerator "data/images" 4 1) /\
  saves w' = expected_saves ex_args 3 ex_sess_run.
Proof. vm_compute. repeat split. Qed.

Local Close Scope string_scope.

(** ** Paths *)

Local Open Scope string_scope.

Lemma append_assoc (a b c : string) : (a ++ b) ++ c = a ++ b ++ c.
Proof.
  induction a as [|x a IH]; [reflexivity|]. cbn. now rewrite IH.
Qed.

Lemma append_not_empty (a b : string) : b <> "" -> a ++ b <> "".
Proof.
  intros Hb. destruct a; [exact Hb | discriminate].
Qed.

Lemma ends_with_sep_append (a b : string) :
  b <> "" -> ends_with_sep (a ++ b) = ends_with_sep b.
Proof.
  intros Hb. induction a as [|x a IH]; [reflexivity|].
  cbn [append ends_with_sep]. pose proof (append_not_empty a b Hb) as Hne.
  destruct (a ++ b); [contradiction | exact IH].
Qed.

Lemma path_join_plain (a b : string) :
  a <> "" -> ends_with_sep a = false -> starts_with_sep b = false ->
  path_join a b = a ++ "/" ++ b.
Proof.
  intros Ha He Hs. unfold path_join. rewrite Hs, He.
  destruct (String.eqb_spec a ""); [contradiction | reflexivity].
Qed.

Lemma little_succ_not_nil (d : Decimal.uint) : Decimal.Little.succ d <> Decimal.Nil.
Proof. destruct d; discriminate. Qed.

Lemma to_little_uint_not_nil (n : nat) : forall acc,
  acc <> Decimal.Nil -> Nat.to_little_uint n acc <> Decimal.Nil.
Proof.
  induction n as [|n IH]; intros acc Hacc; [exact Hacc|].
  cbn. apply IH, little_succ_not_nil.
Qed.

Lemma revapp_not_nil (d : Decimal.uint) : forall d',
  d' <> Decimal.Nil -> Decimal.revapp d d' <> Decimal.Nil.
Proof.
  induction d; intros d' Hd'; cbn; try exact Hd'; apply IHd; discriminate.
Qed.

Lemma to_uint_not_nil (n : nat) : Nat.to_uint n <> Decimal.Nil.
Proof.
  unfold Nat.to_uint, Decimal.rev.
  pose proof (to_little_uint_not_nil n (Decimal.D0 Decimal.Nil) ltac:(discriminate)) as H.
  destruct (Nat.to_little_uint n (Decimal.D0 Decimal.Nil));
    [contradiction | cbn; apply revapp_not_nil; discriminate ..].
Qed.

Lemma format_nat_no_sep (n : nat) (s : string) :
  starts_with_sep (format_nat n ++ s) = false.
Proof.
  unfold format_nat. pose proof (to_uint_not_nil n) as H.
  destruct (Nat.to_uint n); [contradiction | reflexivity ..].
Qed.

Section Paths.

Variable a : args.
Hypothesis output_dir_not_empty : output_dir a <> "".
Hypothesis output_dir_no_trailing_sep : ends_with_sep (output_dir a) = false.
Hypothesis name_not_empty : name a <> "".
Hypothesis name_relative : starts_with_sep (name a) = false.
Hypothesis name_no_trailing_sep : ends_with_sep (name a) = false.

Lemma out_dir_path :
  path_join (output_dir a) (name a) = output_dir a ++ "/" ++ name a.
Proof. now apply path_join_plain. Qed.

Lemma out_dir_plain :
  output_dir a ++ "/" ++ name a <> "" /\
  ends_with_sep (output_dir a ++ "/" ++ name a) = false.
Proof.
  split.
  - apply append_not_empty. discriminate.
  - rewrite ends_with_sep_append by discriminate.
    change ("/" ++ name a) with (String "/" (name a)).
    cbn [ends_with_sep]. destruct (name a); [contradiction | assumption].
Qed.

Lemma image_dir_path :
  path_join (output_dir a ++ "/" ++ name a) "images"
  = output_dir a ++ "/" ++ name a ++ "/images".
Proof.
  destruct out_dir_plain as [Hne Hend].
  rewrite path_join_plain by (assumption || reflexivity).
  now rewrite !append_assoc.
Qed.

Lemma image_fname_path (epoch batch_num : nat) :
  path_join (output_dir a ++ "/" ++ name a ++ "/images")
    (format_nat epoch ++ "_" ++ format_nat batch_num ++ ".jpg")
  = output_dir a ++ "/" ++ name a ++ "/images/"
    ++ format_nat epoch ++ "_" ++ format_nat batch_num ++ ".jpg".
Proof.
  rewrite path_join_plain.
  - now rewrite !append_assoc.
  - apply append_not_empty. discriminate.
  - rewrite <- !append_assoc. now rewrite ends_with_sep_append by discriminate.
  - apply format_nat_no_sep.
Qed.

Lemma model_ckpt_path :
  path_join (output_dir a ++ "/" ++ name a) "model.ckpt"
  = output_dir a ++ "/" ++ name a ++ "/model.ckpt".
Proof.
  destruct out_dir_plain as [Hne Hend].
  rewrite path_join_plain by (assumption || reflexivity).
  now rewrite !append_assoc.
Qed.

End Paths.

Local Close Scope string_scope.

(** ** Save events of the training loop *)

Lemma adds_saves_ret : adds_saves (ret tt) [].
Proof. intros w. exists w. split; [reflexivity | now rewrite app_nil_r]. Qed.

Lemma adds_saves_emit (e : event) :
  adds_saves (emit e) (if is_save e then [e] else []).
Proof.
  intros w. eexists. split; [reflexivity|].
  unfold saves. cbn [trace]. rewrite filter_app. cbn [filter].
  now destruct (is_save e).
Qed.

Lemma adds_saves_create_dir (p : string) : adds_saves (create_dir p) [].
Proof.
  intros w. eexists. split; [reflexivity|].
  unfold saves. cbn [trace]. now rewrite app_nil_r.
Qed.

Lemma adds_saves_write_file (p : string) : adds_saves (write_file p) [].
Proof.
  intros w. eexists. split; [reflexivity|].
  unfold saves. cbn [trace]. now rewrite app_nil_r.
Qed.

Lemma adds_saves_seq (m k : M unit) (e1 e2 : list event) :
  adds_saves m e1 -> adds_saves k e2 -> adds_saves (m >> k) (e1 ++ e2).
Proof.
  intros Hm Hk w. destruct (Hm w) as (w1 & E1 & S1).
  destruct (Hk w1) as (w2 & E2 & S2). exists w2.
  unfold bindM. rewrite E1. split; [exact E2|].
  now rewrite S2, S1, app_assoc.
Qed.

Lemma adds_saves_for_each {A} (body : A -> M unit) (S : A -> list event)
  (xs : list A) :
  (forall x, In x xs -> adds_saves (body x) (S x)) ->
  adds_saves (for_each xs body) (flat_map S xs).
Proof.
  induction xs as [|x xs IH]; intros Hb; cbn [for_each flat_map].
  - apply adds_saves_ret.
  - apply adds_saves_seq; [apply Hb; now left|].
    apply IH. intros y Hy. apply Hb. now right.
Qed.

Section TrainFacts.

Variable num_batches : nat.
Variable sess_run : nat -> nat -> tensor * tensor * tensor.
Variable a : args.

Hypothesis save_every_not_zero : save_every a <> 0%Z.
Hypothesis batches_well_shaped :
  forall epoch batch_num, step_image sess_run epoch batch_num <> None.
Hypothesis output_dir_not_empty : output_dir a <> ""%string.
Hypothesis output_dir_no_trailing_sep : ends_with_sep (output_dir a) = false.
Hypothesis name_not_empty : name a <> ""%string.
Hypothesis name_relative : starts_with_sep (name a) = false.
Hypothesis name_no_trailing_sep : ends_with_sep (name a) = false.

Lemma save_step_adds (epoch batch_num : nat) :
  adds_saves
    (save_step sess_run a (path_join (output_dir a) (name a)) epoch batch_num)
    (step_saves a sess_run epoch batch_num).
Proof.
  rewrite out_dir_path by assumption.
  unfold save_step, step_saves, py_mod.
  destruct (Z.eqb_spec (save_every a) 0); [contradiction|].
  rewrite image_dir_path, image_fname_path, model_ckpt_path by assumption.
  pose proof (batches_well_shaped epoch batch_num) as Hok.
  unfold step_image in *.
  destruct (sess_run epoch batch_num) as [[fake real] bw].
  destruct (save_images fake real bw) as [img|]; [clear Hok | contradiction].
  intros w. unfold lift_option, bindM, ret.
  destruct (Z.of_nat batch_num mod save_every a =? 0)%Z.
  2: { exists w. split; [reflexivity | now rewrite app_nil_r]. }
  unfold get_isdir.
  destruct (isdir _ w); cbn [negb]; eexists; (split; [reflexivity|]);
    unfold saves; cbn [trace]; rewrite ?filter_app; cbn [filter is_save];
    rewrite <- ?app_assoc; reflexivity.
Qed.

Lemma train_step_adds (epoch batch_num : nat) :
  adds_saves
    (train_step num_batches sess_run a (path_join (output_dir a) (name a))
       epoch batch_num)
    (step_saves a sess_run epoch batch_num).
Proof.
  unfold train_step.
  change (step_saves a sess_run epoch batch_num)
    with ([] ++ [] ++ [] ++ step_saves a sess_run epoch batch_num).
  apply adds_saves_seq; [apply (adds_saves_emit (EvTrainStep epoch batch_num))|].
  apply adds_saves_seq;
    [apply (adds_saves_emit (EvAddSummary (epoch * num_batches + batch_num)))|].
  apply adds_saves_seq; [apply (adds_saves_emit (EvPrint epoch batch_num))|].
  apply save_step_adds.
Qed.

Lemma train_adds :
  adds_saves (train num_batches sess_run a)
             (expected_saves a num_batches sess_run).
Proof.
  unfold train.
  change (expected_saves a num_batches sess_run)
    with ([] ++ [] ++ [] ++ [] ++ [] ++ []
          ++ expected_saves a num_batches sess_run).
  apply adds_saves_seq;
    [apply (adds_saves_emit (EvCheckpointFn (path_join (data_dir a) "vgg_19.ckpt")))|].
  apply adds_saves_seq; [apply (adds_saves_emit EvSession)|].
  apply adds_saves_seq;
    [apply (adds_saves_emit (EvFileWriter (path_join (output_dir a) (name a))))|].
  apply adds_saves_seq; [apply adds_saves_create_dir|].
  apply adds_saves_seq; [apply (adds_saves_emit EvInitVariables)|].
  apply adds_saves_seq;
    [apply (adds_saves_emit (EvImageGenerator (path_join (data_dir a) "images")
                               (num_cpus a) (batch_size a)))|].
  unfold expected_saves, py_range.
  apply adds_saves_for_each. intros epoch _.
  apply adds_saves_for_each. intros batch_num _.
  apply train_step_adds.
Qed.

End TrainFacts.





(** * Further properties of [build_loss_func] *)

Lemma sum_upto_Qeq (n : nat) : forall f g : nat -> Q,
  (forall i, (i < n)%nat -> f i == g i) -> sum_upto n f == sum_upto n g.
Proof.
  induction n as [|n IH]; intros f g H; [reflexivity|].
  rewrite !sum_upto_S.
  rewrite (H 0%nat) by lia.
  rewrite (IH (fun i => f (S i)) (fun i => g (S i))) by (intros; apply H; lia).
  reflexivity.
Qed.

Lemma sum_upto_scale (c : Q) (n : nat) : forall f : nat -> Q,
  sum_upto n (fun i => c * f i) == c * sum_upto n f.
Proof.
  induction n as [|n IH]; intros f.
  - cbn. ring.
  - rewrite !sum_upto_S, (IH (fun i => f (S i))). ring.
Qed.

Lemma sum_upto_all_zero (n : nat) (f : nat -> Q) :
  (forall i, (i < n)%nat -> f i == 0) -> sum_upto n f == 0.
Proof.
  intros H. rewrite (sum_upto_Qeq n f (fun _ => 0) H).
  clear. induction n as [|n IH]; [reflexivity|].
  rewrite sum_upto_S, IH. ring.
Qed.

Lemma sum_upto_ge_const (c : Q) (n : nat) : forall f : nat -> Q,
  (forall i, (i < n)%nat -> c <= f i) ->
  inject_Z (Z.of_nat n) * c <= sum_upto n f.
Proof.
  induction n as [|n IH]; intros f H.
  - change (0 * c <= 0). lra.
  - rewrite sum_upto_S, Nat2Z.inj_succ. unfold Z.succ. rewrite inject_Z_plus.
    assert (c <= f 0%nat) by (apply H; lia).
    assert (inject_Z (Z.of_nat n) * c <= sum_upto n (fun i => f (S i)))
      by (apply IH; intros; apply H; lia).
    change (inject_Z 1) with 1. lra.
Qed.

Lemma sumQ_map_all_zero {A} (f : A -> Q) (l : list A) :
  (forall x, In x l -> f x == 0) -> sumQ (map f l) == 0.
Proof.
  induction l as [|a l IH]; intros H; [reflexivity|].
  cbn [map]. rewrite sumQ_cons, (H a) by now left.
  rewrite IH by (intros; apply H; now right). ring.
Qed.

Lemma sumQ_permutation (l l' : list Q) :
  Permutation l l' -> sumQ l == sumQ l'.
Proof.
  induction 1 as [|x l l' _ IH|x y l|l l' l'' _ IH1 _ IH2].
  - reflexivity.
  - rewrite !sumQ_cons, IH. reflexivity.
  - rewrite !sumQ_cons. ring.
  - now rewrite IH1.
Qed.

Lemma min_le_mean (n : nat) (L : nat -> Q) (mn me : Q) :
  (0 < n)%nat ->
  is_min mn (tabulate n L) -> is_mean me (tabulate n L) -> mn <= me.
Proof.
  intros Hn [_ Hle] Hme. apply is_mean_tabulate in Hme.
  pose proof (inject_nat_pos n Hn) as Hp.
  assert (Hs : inject_Z (Z.of_nat n) * mn <= sum_upto n L).
  { apply sum_upto_ge_const. intros i Hi. apply Hle, in_tabulate. now exists i. }
  nra.
Qed.

Lemma layer_score_same (B R C K : nat) (w : Q) (mask act : tensor) :
  layer_score B R C K w mask act act == 0.
Proof.
  unfold layer_score.
  apply sum_upto_all_zero; intros b _. apply sum_upto_all_zero; intros r _.
  apply sum_upto_all_zero; intros c _. apply sum_upto_all_zero; intros k _.
  assert (E : at4 act b r c k - at4 act b r c k == 0) by ring.
  rewrite E. cbn. ring.
Qed.

Lemma layer_score_scale (B R C K : nat) (c w : Q) (mask fake real : tensor) :
  layer_score B R C K (c * w) mask fake real
  == c * layer_score B R C K w mask fake real.
Proof.
  unfold layer_score.
  rewrite <- sum_upto_scale. apply sum_upto_Qeq; intros b _.
  rewrite <- sum_upto_scale. apply sum_upto_Qeq; intros r _.
  rewrite <- sum_upto_scale. apply sum_upto_Qeq; intros c' _.
  rewrite <- sum_upto_scale. apply sum_upto_Qeq; intros k _.
  ring.
Qed.

Lemma mapM_ext {A B} (f g : A -> option B) (l : list A) :
  (forall x, In x l -> f x = g x) -> mapM f l = mapM g l.
Proof.
  induction l as [|a l IH]; intros H; [reflexivity|].
  cbn [mapM]. rewrite (H a) by now left.
  rewrite IH by (intros; apply H; now right). reflexivity.
Qed.

Lemma py_slice_within {A} (lo hi n : nat) (l : list A) :
  (hi <= n)%nat -> py_slice lo hi (py_slice 0 n l) = py_slice lo hi l.
Proof.
  intros H. unfold py_slice. cbn [skipn].
  rewrite firstn_firstn. now rewrite Nat.min_l.
Qed.

Lemma candidate_of_prefix {A} (i n : nat) (t : list (list (list (list A)))) :
  ((i + 1) * 3 <= n)%nat ->
  slice_chans4 (i * 3) ((i + 1) * 3) (slice_chans4 0 n t)
  = slice_chans4 (i * 3) ((i + 1) * 3) t.
Proof.
  intros H. unfold slice_chans4, slice_chans3.
  rewrite map_map. apply map_ext; intros img.
  rewrite map_map. apply map_ext; intros row.
  rewrite map_map. apply map_ext; intros px.
  now apply py_slice_within.
Qed.

(** The blend of lines 78-80 does not depend on the order of the candidate
    losses: permuting them gives an equal loss. *)
Lemma blend_permutation (l l' : list Q) :
  l <> [] -> Permutation l l' ->
  exists v v', blend l = Some v /\ blend l' = Some v' /\ v == v'.
Proof.
  intros Hl Hp.
  assert (Hl' : l' <> []).
  { intros ->. apply Permutation_sym, Permutation_nil in Hp. contradiction. }
  destruct (blend_is_min_mean l Hl) as (mn & me & [Hin Hle] & Hme & E).
  destruct (blend_is_min_mean l' Hl') as (mn' & me' & [Hin' Hle'] & Hme' & E').
  exists (mn * 0.999 + me * 0.001), (mn' * 0.999 + me' * 0.001).
  split; [exact E|]. split; [exact E'|].
  assert (Emn : mn == mn').
  { apply Qle_antisym.
    - apply Hle. apply (Permutation_in _ (Permutation_sym Hp)), Hin'.
    - apply Hle'. apply (Permutation_in _ Hp), Hin. }
  unfold is_mean in Hme, Hme'.
  rewrite <- (Permutation_length Hp), <- (sumQ_permutation l l' Hp) in Hme'.
  assert (Hpos : 0 < inject_Z (Z.of_nat (length l))).
  { apply inject_nat_pos. destruct l; [contradiction | cbn; lia]. }
  assert (Eme : me == me') by nra.
  rewrite Emn, Eme. reflexivity.
Qed.

Section LossExtras.

Variable vgg_19 : tensor -> end_points.
Variable resize_images : tensor -> nat * nat -> tensor.
Variables (B H W : nat) (dims : string -> nat * nat * nat).

Hypothesis vgg_shape : forall img layer R C K,
  has_shape B H W 3 img = true -> In layer (tl layers) ->
  dims layer = (R, C, K) ->
  exists t, vgg_19 img layer = Some t /\ has_shape B R C K t = true.
Hypothesis resize_shape : forall m r c,
  has_shape (length m) r c 1 (resize_images m (r, c)) = true.

Variables (bw fakes real : tensor).
Hypothesis bw_batch : length bw = B.
Hypothesis fakes_shape : has_shape B H W 27 fakes = true.
Hypothesis real_shape : has_shape B H W 3 real = true.

Local Abbreviation sgru_model := {| image_bw := bw; images_rgb_fake := fakes |}.
Local Abbreviation cscore :=
  (candidate_score vgg_19 resize_images B H W dims bw fakes real).

(** The loss lies between the smallest candidate loss and the mean of
    the candidate losses, whatever the sign of the mask. *)
Theorem loss_between_min_and_mean :
  exists losses mn me loss,
    mapM (loss_collection vgg_19 resize_images lambda_weights bw fakes real
            (vgg_19 real)) (seq 0 collection_size) = Some losses /\
    is_min mn losses /\ is_mean me losses /\
    build_loss_func vgg_19 resize_images sgru_model real = Some loss /\
    mn <= loss /\ loss <= me.
Proof.
  assert (Hn : (0 < collection_size)%nat) by (unfold collection_size; lia).
  destruct (loss_is_blend vgg_19 resize_images B H W dims vgg_shape
              resize_shape collection_size bw fakes real bw_batch
              fakes_shape real_shape Hn lambda_weights)
    as (mn & me & Hmin & Hmean & E).
  exists (tabulate collection_size (cscore lambda_weights)), mn, me,
         (mn * 0.999 + me * 0.001).
  split.
  { apply (candidate_losses vgg_19 resize_images B H W dims vgg_shape
             resize_shape collection_size bw fakes real bw_batch
             fakes_shape real_shape). }
  split; [exact Hmin|]. split; [exact Hmean|]. split; [exact E|].
  pose proof (min_le_mean _ _ _ _ Hn Hmin Hmean). split; lra.
Qed.

(** When every candidate equals the ground truth the loss is 0, for any
    mask, negative values included. *)
Theorem loss_zero_when_candidates_equal_truth :
  (forall i, (i < collection_size)%nat -> candidate i fakes = real) ->
  exists loss,
    build_loss_func vgg_19 resize_images sgru_model real = Some loss /\
    loss == 0.
Proof.
  intros Heq.
  assert (Hn : (0 < collection_size)%nat) by (unfold collection_size; lia).
  destruct (loss_is_blend vgg_19 resize_images B H W dims vgg_shape
              resize_shape collection_size bw fakes real bw_batch
              fakes_shape real_shape Hn lambda_weights)
    as (mn & me & [Hin _] & Hmean & E).
  exists (mn * 0.999 + me * 0.001). split; [exact E|].
  assert (HL : forall i, (i < collection_size)%nat -> cscore lambda_weights i == 0).
  { intros i Hi. unfold candidate_score. apply sumQ_map_all_zero.
    intros [w layer] _. unfold score. cbn [fst snd].
    destruct (layer_dims H W dims layer) as [[R C] K].
    unfold act_fake, act_real. rewrite (Heq i Hi). apply layer_score_same. }
  apply in_tabulate in Hin as (i & Hi & Emn).
  assert (mn == 0) by (rewrite Emn; now apply HL).
  apply is_mean_tabulate in Hmean.
  rewrite (sum_upto_all_zero _ _ HL) in Hmean.
  pose proof (inject_nat_pos _ Hn).
  assert (me == 0) by nra.
  lra.
Qed.

Lemma cscore_scale (c : Q) (i : nat) (weights : list Q) :
  cscore (map (Qmult c) weights) i == c * cscore weights i.
Proof.
  unfold candidate_score. generalize layers.
  induction weights as [|w ws IH]; intros ls.
  - cbn. ring.
  - destruct ls as [|l ls]; cbn [map combine]; [cbn; ring|].
    rewrite !sumQ_cons, (IH ls).
    assert (E : score vgg_19 resize_images B H W dims bw fakes real i (c * w, l)
                == c * score vgg_19 resize_images B H W dims bw fakes real i (w, l)).
    { unfold score. cbn [fst snd].
      destruct (layer_dims H W dims l) as [[R C] K]. apply layer_score_scale. }
    rewrite E. ring.
Qed.

(** Multiplying all layer weights by a factor [c >= 0] multiplies the
    loss by [c]. *)
Theorem loss_scales_with_weights (c : Q) (weights : list Q) :
  0 <= c ->
  exists a b,
    build_loss_func_with vgg_19 resize_images weights collection_size
      sgru_model real = Some a /\
    build_loss_func_with vgg_19 resize_images (map (Qmult c) weights)
      collection_size sgru_model real = Some b /\
    b == c * a.
Proof.
  intros Hc.
  assert (Hn : (0 < collection_size)%nat) by (unfold collection_size; lia).
  destruct (loss_is_blend vgg_19 resize_images B H W dims vgg_shape
              resize_shape collection_size bw fakes real bw_batch
              fakes_shape real_shape Hn weights)
    as (mn & me & [Hin Hle] & Hmean & E).
  destruct (loss_is_blend vgg_19 resize_images B H W dims vgg_shape
              resize_shape collection_size bw fakes real bw_batch
              fakes_shape real_shape Hn (map (Qmult c) weights))
    as (mn' & me' & [Hin' Hle'] & Hmean' & E').
  exists (mn * 0.999 + me * 0.001), (mn' * 0.999 + me' * 0.001).
  split; [exact E|]. split; [exact E'|].
  apply in_tabulate in Hin as (i & Hi & Emn).
  apply in_tabulate in Hin' as (j & Hj & Emn').
  assert (Hmn : mn' == c * mn).
  { apply Qle_antisym.
    - rewrite Emn, <- cscore_scale. apply Hle', in_tabulate. now exists i.
    - rewrite Emn', cscore_scale.
      assert (mn <= cscore weights j) by (apply Hle, in_tabulate; now exists j).
      nra. }
  apply is_mean_tabulate in Hmean, Hmean'.
  rewrite (sum_upto_Qeq _ _ (fun i => c * cscore weights i)) in Hmean'
    by (intros; apply cscore_scale).
  rewrite sum_upto_scale, <- Hmean in Hmean'.
  pose proof (inject_nat_pos _ Hn).
  assert (me' == c * me) by nra.
  rewrite Hmn. lra.
Qed.

End LossExtras.

(** [build_loss_func] reads channels 0 to 26 of the generator output
    only: further channels do not change its result, error included. *)
Theorem loss_reads_first_27_channels
  (vgg_19 : tensor -> end_points) (resize_images : tensor -> nat * nat -> tensor)
  (bw fakes real : tensor) :
  build_loss_func vgg_19 resize_images
    {| image_bw := bw; images_rgb_fake := slice_chans4 0 27 fakes |} real
  = build_loss_func vgg_19 resize_images
      {| image_bw := bw; images_rgb_fake := fakes |} real.
Proof.
  unfold build_loss_func, build_loss_func_with. cbn [image_bw images_rgb_fake].
  destruct (vgg_19_evaluate vgg_19 real) as [ep|]; [cbn [bind]|reflexivity].
  rewrite (mapM_ext _ (loss_collection vgg_19 resize_images lambda_weights bw
                         fakes real ep)); [reflexivity|].
  intros i Hi. apply in_seq in Hi. unfold collection_size in Hi.
  unfold loss_collection. now rewrite candidate_of_prefix by lia.
Qed.

Lemma blend_permutation_witness :
  [3; 1; 2] <> [] /\ Permutation [3; 1; 2] [1; 2; 3] /\
  exists v v', blend [3; 1; 2] = Some v /\ blend [1; 2; 3] = Some v' /\ v == v'.
Proof.
  assert (Hp : Permutation [3; 1; 2] [1; 2; 3]).
  { apply (perm_trans (l' := [1; 3; 2])); [apply perm_swap|].
    apply perm_skip, perm_swap. }
  split; [discriminate|]. split; [exact Hp|].
  apply (blend_permutation [3; 1; 2] [1; 2; 3]); [discriminate | exact Hp].
Defined.

Lemma loss_between_min_and_mean_witness :
  has_shape 1 1 1 27 ex_fakes = true /\
  exists losses mn me loss,
    mapM (loss_collection identity_features constant_resize lambda_weights
            ex_bw ex_fakes ex_real (identity_features ex_real))
         (seq 0 collection_size) = Some losses /\
    is_min mn losses /\ is_mean me losses /\
    build_loss_func identity_features constant_resize
      {| image_bw := ex_bw; images_rgb_fake := ex_fakes |} ex_real = Some loss /\
    mn <= loss /\ loss <= me.
Proof.
  split; [reflexivity|].
  exact (loss_between_min_and_mean identity_features constant_resize
           1 1 1 (fun _ => (1, 1, 3)%nat) (identity_features_shape 1 1 1)
           constant_resize_shape ex_bw ex_fakes ex_real
           eq_refl eq_refl eq_refl).
Defined.

Lemma loss_zero_when_candidates_equal_truth_witness :
  (forall i, (i < collection_size)%nat -> candidate i ex_fakes_truth = ex_real) /\
  exists loss,
    build_loss_func identity_features constant_resize
      {| image_bw := ex_bw; images_rgb_fake := ex_fakes_truth |} ex_real
    = Some loss /\
    loss == 0.
Proof.
  assert (Heq : forall i, (i < collection_size)%nat ->
                          candidate i ex_fakes_truth = ex_real).
  { intros i Hi. unfold collection_size in Hi.
    do 9 (destruct i as [|i]; [reflexivity|]). lia. }
  split; [exact Heq|].
  exact (loss_zero_when_candidates_equal_truth identity_features constant_resize
           1 1 1 (fun _ => (1, 1, 3)%nat) (identity_features_shape 1 1 1)
           constant_resize_shape ex_bw ex_fakes_truth ex_real
           eq_refl eq_refl eq_refl Heq).
Defined.

Lemma loss_scales_with_weights_witness :
  0 <= 2 /\
  exists a b,
    build_loss_func_with identity_features constant_resize lambda_weights
      collection_size {| image_bw := ex_bw; images_rgb_fake := ex_fakes |} ex_real
    = Some a /\
    build_loss_func_with identity_features constant_resize
      (map (Qmult 2) lambda_weights)
      collection_size {| image_bw := ex_bw; images_rgb_fake := ex_fakes |} ex_real
    = Some b /\
    b == 2 * a.
Proof.
  split; [lra|].
  apply (loss_scales_with_weights identity_features constant_resize
           1 1 1 (fun _ => (1, 1, 3)%nat) (identity_features_shape 1 1 1)
           constant_resize_shape ex_bw ex_fakes ex_real
           eq_refl eq_refl eq_refl 2 lambda_weights).
  lra.
Defined.

(** * Further properties of [save_images] *)

Lemma clip01_fixed (y : Q) : 0 <= y -> y <= 1 -> clip01 y = y.
Proof.
  intros H0 H1. unfold clip01, Qmax, Qmin, GenericMinMax.gmax, GenericMinMax.gmin.
  destruct (y ?= 0) eqn:E0.
  - destruct (y ?= 1) eqn:E1; try reflexivity.
    apply Qgt_alt in E1. lra.
  - apply Qlt_alt in E0. lra.
  - destruct (y ?= 1) eqn:E1; try reflexivity.
    apply Qgt_alt in E1. lra.
Qed.

Lemma clip01_idempotent (x : Q) : clip01 (clip01 x) = clip01 x.
Proof.
  destruct (clip01_range x) as [H0 H1]. now apply clip01_fixed.
Qed.

Lemma map4_clip01_idempotent (t : tensor) :
  map4 clip01 (map4 clip01 t) = map4 clip01 t.
Proof.
  unfold map4. rewrite map_map. apply map_ext; intros img.
  rewrite map_map. apply map_ext; intros row.
  rewrite map_map. apply map_ext; intros px.
  rewrite map_map. apply map_ext; intros x.
  apply clip01_idempotent.
Qed.

(** Clipping the candidates before the call changes nothing: the clipping
    of line 91 is idempotent. *)
Theorem save_images_clipping_idempotent (fake real bw : tensor) :
  save_images (map4 clip01 fake) real bw = save_images fake real bw.
Proof.
  unfold save_images. now rewrite map4_clip01_idempotent.
Qed.

(** An empty batch among the three makes [np.vstack] raise: nothing is
    written. *)
Theorem save_images_empty_batch_raises (fake real bw : tensor) :
  fake = [] \/ real = [] \/ bw = [] -> save_images fake real bw = None.
Proof.
  unfold save_images, scale_cast, map4.
  intros [-> | [-> | ->]]; cbn [map].
  - now rewrite combine_nil.
  - now rewrite combine_nil.
  - reflexivity.
Qed.

Lemma save_images_empty_batch_raises_witness :
  save_images ex_fakes [] ex_bw_wide = None.
Proof.
  apply (save_images_empty_batch_raises ex_fakes [] ex_bw_wide).
  right. now left.
Defined.

Lemma firstn_map4 {A B'} (f : A -> B') (n : nat) (t : list (list (list (list A)))) :
  map (map (map (map f))) (firstn n t) = firstn n (map (map (map (map f))) t).
Proof. symmetry. apply firstn_map. Qed.

(** The loop of line 98 stops at the shortest of the three batches:
    examples beyond it are ignored. *)
Theorem save_images_ignores_unpaired_examples (n : nat) (fake real bw : tensor) :
  (Nat.min (length fake) (Nat.min (length real) (length bw)) <= n)%nat ->
  save_images (firstn n fake) (firstn n real) (firstn n bw)
  = save_images fake real bw.
Proof.
  intros Hn. unfold save_images, scale_cast, map4.
  rewrite !firstn_map4, <- !combine_firstn.
  rewrite firstn_all2; [reflexivity|].
  rewrite !length_combine, !length_map. lia.
Qed.

Lemma save_images_ignores_unpaired_examples_witness :
  save_images (firstn 1 (ex_fakes ++ ex_fakes)) (firstn 1 ex_real_wide)
              (firstn 1 (ex_bw_wide ++ ex_bw))
  = save_images (ex_fakes ++ ex_fakes) ex_real_wide (ex_bw_wide ++ ex_bw).
Proof.
  apply (save_images_ignores_unpaired_examples 1 (ex_fakes ++ ex_fakes)
           ex_real_wide (ex_bw_wide ++ ex_bw)).
  cbn. lia.
Defined.

Lemma cvtColor_wrong_channels (H W K : nat) (g : nat -> nat -> nat -> Z) :
  (0 < H)%nat -> (0 < W)%nat -> K <> 1%nat ->
  cvtColor_GRAY2BGR
    (tabulate H (fun r => tabulate W (fun c => tabulate K (g r c))))
  = None.
Proof.
  intros HH HW HK. unfold cvtColor_GRAY2BGR, width.
  rewrite length_tabulate, hd_tabulate, length_tabulate by exact HH.
  destruct (Nat.eqb_spec H 0); [lia|]. destruct (Nat.eqb_spec W 0); [lia|].
  cbn [orb]. destruct H as [|h]; [lia|]. destruct W as [|w]; [lia|].
  rewrite tabulate_S. cbn [mapM]. rewrite tabulate_S. cbn [mapM].
  destruct K as [|[|k]]; [reflexivity | contradiction |].
  now rewrite !tabulate_S.
Qed.

(** A grayscale batch whose images do not have exactly one channel makes
    [cv2.cvtColor] raise on the first example. *)
Theorem save_images_rejects_multichannel_grayscale
  (B H W K : nat) (fake real bw : tensor) :
  (0 < B)%nat -> (0 < H)%nat -> (0 < W)%nat -> K <> 1%nat ->
  has_shape B H W K bw = true -> real <> [] -> fake <> [] ->
  save_images fake real bw = None.
Proof.
  intros HB HH HW HK Hbw Hreal Hfake. unfold save_images.
  rewrite (scale_cast_shaped B H W K bw (has_shape_shaped _ _ _ _ _ Hbw)).
  unfold tabulate4. destruct B as [|b]; [lia|]. rewrite tabulate_S.
  destruct real as [|r0 real]; [contradiction|].
  destruct fake as [|f0 fake]; [contradiction|].
  unfold scale_cast at 1 2, map4. cbn [map combine mapM row_image].
  now rewrite cvtColor_wrong_channels.
Qed.

Lemma save_images_rejects_multichannel_grayscale_witness :
  has_shape 1 1 1 3 ex_real_wide = true /\
  save_images ex_fakes ex_real_wide ex_real_wide = None.
Proof.
  split; [reflexivity|].
  apply (save_images_rejects_multichannel_grayscale 1 1 1 3
           ex_fakes ex_real_wide ex_real_wide);
    (lia || reflexivity || discriminate).
Defined.

Lemma astype_uint8_range (x : Q) : (0 <= astype_uint8 x <= 255)%Z.
Proof.
  unfold astype_uint8. pose proof (Z.mod_pos_bound (Qtrunc x) 256 ltac:(lia)).
  destruct (in_int32 (Qtrunc x)); lia.
Qed.

Lemma tile_pixel_bytes (fake real bw : tensor) (b r k c : nat) (v : Z) :
  In v (tile_pixel fake real bw b r k c) -> (0 <= v <= 255)%Z.
Proof.
  destruct k as [|[|i]]; cbn [tile_pixel map In]; intros Hv;
    repeat (destruct Hv as [<-|Hv]; [apply astype_uint8_range|]);
    destruct Hv.
Qed.

(** Every channel value of the written image is a byte. *)
Theorem save_images_writes_bytes (B H W : nat) (fake real bw : tensor) :
  (0 < B)%nat -> (0 < H)%nat -> (0 < W)%nat ->
  has_shape B H W 27 fake = true ->
  has_shape B H W 3 real = true ->
  has_shape B H W 1 bw = true ->
  exists out_image,
    save_images fake real bw = Some out_image /\
    forall row px v,
      In row out_image -> In px row -> In v px -> (0 <= v <= 255)%Z.
Proof.
  intros HB HH HW Hf Hr Hbw. exists (tiled B H W fake real bw).
  split; [now apply save_images_tiled|].
  intros row px v Hrow Hpx Hv. unfold tiled in Hrow.
  apply in_concat in Hrow as (rows & Hrows & Hrow).
  apply in_map_iff in Hrows as (b & <- & _).
  apply in_map_iff in Hrow as (r & <- & _).
  apply in_concat in Hpx as (tile & Htile & Hpx).
  apply in_map_iff in Htile as (k & <- & _).
  apply in_map_iff in Hpx as (c & <- & _).
  now apply tile_pixel_bytes in Hv.
Qed.

Lemma save_images_writes_bytes_witness :
  has_shape 1 1 1 27 ex_fakes = true /\
  exists out_image,
    save_images ex_fakes ex_real_wide ex_bw_wide = Some out_image /\
    forall row px v,
      In row out_image -> In px row -> In v px -> (0 <= v <= 255)%Z.
Proof.
  split; [reflexivity|].
  apply (save_images_writes_bytes 1 1 1 ex_fakes ex_real_wide ex_bw_wide);
    (lia || reflexivity).
Defined.

Lemma astype_uint8_saturates_high (x : Q) :
  1 <= x -> astype_uint8 (round_float32 (clip01 x * 255)) = 255%Z.
Proof.
  intros Hx. destruct (clip01_range x) as [_ H1].
  assert (1 <= clip01 x).
  { unfold clip01. apply Q.min_glb; [|lra].
    eapply Qle_trans; [exact Hx | apply Q.le_max_l]. }
  rewrite (round_float32_Qeq _ 255) by lra. reflexivity.
Qed.

Lemma astype_uint8_saturates_low (x : Q) :
  x <= 0 -> astype_uint8 (round_float32 (clip01 x * 255)) = 0%Z.
Proof.
  intros Hx. destruct (clip01_range x) as [H0 _].
  assert (clip01 x <= 0).
  { unfold clip01. eapply Qle_trans; [apply Q.le_min_l|].
    apply Q.max_lub; lra. }
  rewrite (round_float32_Qeq _ 0) by lra. reflexivity.
Qed.

(** Candidate values of 1 or more are written as 255 and values of 0 or
    less as 0. *)
Theorem save_images_saturates_candidates (B H W : nat) (fake real bw : tensor) :
  (0 < B)%nat -> (0 < H)%nat -> (0 < W)%nat ->
  has_shape B H W 27 fake = true ->
  has_shape B H W 3 real = true ->
  has_shape B H W 1 bw = true ->
  exists out_image,
    save_images fake real bw = Some out_image /\
    forall b r c i ch,
      (b < B)%nat -> (r < H)%nat -> (c < W)%nat -> (i < 9)%nat -> (ch < 3)%nat ->
      let x := at4 fake b r c (i * 3 + ch) in
      let v := nth ch (nth ((2 + i) * W + c) (nth (b * H + r) out_image []) []) 0%Z in
      (1 <= x -> v = 255%Z) /\ (x <= 0 -> v = 0%Z).
Proof.
  intros HB HH HW Hf Hr Hbw. exists (tiled B H W fake real bw).
  split; [now apply save_images_tiled|].
  intros b r c i ch Hb Hr' Hc Hi Hch. cbv zeta.
  rewrite tiled_pixel by (assumption || lia).
  cbn [Nat.add tile_pixel].
  assert (E : nth ch (map (fun ch0 => astype_uint8
                             (round_float32
                                (clip01 (at4 fake b r c (i * 3 + ch0)) * 255)))
                          [0; 1; 2]%nat) 0%Z
              = astype_uint8 (round_float32 (clip01 (at4 fake b r c (i * 3 + ch)) * 255))).
  { destruct ch as [|[|[|ch]]]; [reflexivity | reflexivity | reflexivity | lia]. }
  rewrite E. split.
  - apply astype_uint8_saturates_high.
  - apply astype_uint8_saturates_low.
Qed.

Lemma save_images_saturates_candidates_witness :
  has_shape 1 1 1 27 ex_fakes = true /\
  exists out_image,
    save_images ex_fakes ex_real_wide ex_bw_wide = Some out_image /\
    forall b r c i ch,
      (b < 1)%nat -> (r < 1)%nat -> (c < 1)%nat -> (i < 9)%nat -> (ch < 3)%nat ->
      let x := at4 ex_fakes b r c (i * 3 + ch) in
      let v := nth ch (nth ((2 + i) * 1 + c) (nth (b * 1 + r) out_image []) []) 0%Z in
      (1 <= x -> v = 255%Z) /\ (x <= 0 -> v = 0%Z).
Proof.
  split; [reflexivity|].
  apply (save_images_saturates_candidates 1 1 1 ex_fakes ex_real_wide ex_bw_wide);
    (lia || reflexivity).
Defined.

Lemma map_py_slice {A B'} (f : A -> B') (lo hi : nat) (l : list A) :
  map f (py_slice lo hi l) = py_slice lo hi (map f l).
Proof.
  unfold py_slice. now rewrite firstn_map, skipn_map.
Qed.

Lemma map_slice_chans4 {A B'} (f : A -> B') (lo hi : nat)
  (t : list (list (list (list A)))) :
  map (map (map (map f))) (slice_chans4 lo hi t)
  = slice_chans4 lo hi (map (map (map (map f))) t).
Proof.
  unfold slice_chans4, slice_chans3. rewrite !map_map.
  apply map_ext; intros img. rewrite !map_map.
  apply map_ext; intros row. rewrite !map_map.
  apply map_ext; intros px. apply map_py_slice.
Qed.

Lemma row_image_of_prefix (image_bw image_rgb_real collection_fake : uimage) :
  row_image (image_bw, image_rgb_real, slice_chans3 0 27 collection_fake)
  = row_image (image_bw, image_rgb_real, collection_fake).
Proof.
  unfold row_image. destruct (cvtColor_GRAY2BGR image_bw); [|reflexivity].
  cbn [bind]. do 2 f_equal. apply map_ext_in. intros i Hi. apply in_seq in Hi.
  unfold slice_chans3. rewrite map_map. apply map_ext; intros row.
  rewrite map_map. apply map_ext; intros px.
  apply py_slice_within. lia.
Qed.

Lemma combine_map_r {A B' C'} (f : B' -> C') (l : list A) : forall l' : list B',
  combine l (map f l') = map (fun ab => (fst ab, f (snd ab))) (combine l l').
Proof.
  induction l as [|a l IH]; intros [|b l']; try reflexivity.
  cbn [map combine fst snd]. now rewrite IH.
Qed.

Lemma mapM_map_arg {A B' C'} (g : B' -> option C') (h : A -> B') (l : list A) :
  mapM g (map h l) = mapM (fun x => g (h x)) l.
Proof.
  induction l as [|a l IH]; [reflexivity|]. cbn [map mapM]. now rewrite IH.
Qed.

(** [save_images] reads channels 0 to 26 of the candidate batch only. *)
Theorem save_images_reads_first_27_channels (fake real bw : tensor) :
  save_images (slice_chans4 0 27 fake) real bw = save_images fake real bw.
Proof.
  unfold save_images, scale_cast, map4.
  rewrite !map_slice_chans4. unfold slice_chans4 at 1.
  rewrite combine_map_r, mapM_map_arg.
  rewrite (mapM_ext _ row_image); [reflexivity|].
  intros [[ibw ir] cf] _. cbn [fst snd]. apply row_image_of_prefix.
Qed.

(** * Further properties of [train] and [main] *)

(** ** The summary counter *)

Lemma adds_summaries_ret : adds_summaries (ret tt) [].
Proof. intros w. exists w. split; [reflexivity | now rewrite app_nil_r]. Qed.

Lemma adds_summaries_emit (e : event) : adds_summaries (emit e) (summary_of e).
Proof.
  intros w. eexists. split; [reflexivity|].
  unfold summary_steps. cbn [trace]. rewrite flat_map_app. cbn [flat_map].
  now rewrite app_nil_r.
Qed.

Lemma adds_summaries_create_dir (p : string) : adds_summaries (create_dir p) [].
Proof.
  intros w. eexists. split; [reflexivity|].
  unfold summary_steps. cbn [trace]. now rewrite app_nil_r.
Qed.

Lemma adds_summaries_seq (m k : M unit) (s1 s2 : list nat) :
  adds_summaries m s1 -> adds_summaries k s2 -> adds_summaries (m >> k) (s1 ++ s2).
Proof.
  intros Hm Hk w. destruct (Hm w) as (w1 & E1 & S1).
  destruct (Hk w1) as (w2 & E2 & S2). exists w2.
  unfold bindM. rewrite E1. split; [exact E2|].
  now rewrite S2, S1, app_assoc.
Qed.

Lemma adds_summaries_for_each {A} (body : A -> M unit) (S : A -> list nat)
  (xs : list A) :
  (forall x, In x xs -> adds_summaries (body x) (S x)) ->
  adds_summaries (for_each xs body) (flat_map S xs).
Proof.
  induction xs as [|x xs IH]; intros Hb; cbn [for_each flat_map].
  - apply adds_summaries_ret.
  - apply adds_summaries_seq; [apply Hb; now left|].
    apply IH. intros y Hy. apply Hb. now right.
Qed.

Lemma seq_as_map (n : nat) : forall start,
  seq start n = map (fun i => (start + i)%nat) (seq 0 n).
Proof.
  induction n as [|n IH]; intros start; [reflexivity|].
  cbn [seq map]. rewrite Nat.add_0_r. f_equal.
  rewrite (IH (S start)), (IH 1%nat), map_map.
  apply map_ext. intros i. lia.
Qed.

Lemma global_steps_consecutive (n : nat) (E : nat) :
  flat_map (fun epoch => map (fun batch_num => (epoch * n + batch_num)%nat) (seq 0 n))
           (seq 0 E)
  = seq 0 (E * n).
Proof.
  induction E as [|E IH]; [reflexivity|].
  rewrite seq_S, flat_map_app, IH. cbn [flat_map Nat.add].
  rewrite app_nil_r, <- seq_as_map.
  replace (S E * n)%nat with (E * n + n)%nat by lia.
  now rewrite seq_app.
Qed.

Section SummaryFacts.

Variable num_batches : nat.
Variable sess_run : nat -> nat -> tensor * tensor * tensor.
Variable a : args.

Hypothesis save_every_not_zero : save_every a <> 0%Z.
Hypothesis batches_well_shaped :
  forall epoch batch_num, step_image sess_run epoch batch_num <> None.

Lemma save_step_adds_no_summary (out_dir : string) (epoch batch_num : nat) :
  adds_summaries (save_step sess_run a out_dir epoch batch_num) [].
Proof.
  unfold save_step, py_mod.
  destruct (Z.eqb_spec (save_every a) 0); [contradiction|].
  pose proof (batches_well_shaped epoch batch_num) as Hok.
  unfold step_image in Hok.
  destruct (sess_run epoch batch_num) as [[fake real] bw].
  destruct (save_images fake real bw) as [img|]; [clear Hok | contradiction].
  intros w. unfold lift_option, bindM, ret.
  destruct (Z.of_nat batch_num mod save_every a =? 0)%Z.
  2: { exists w. split; [reflexivity | now rewrite app_nil_r]. }
  unfold get_isdir.
  destruct (isdir _ w); cbn [negb]; eexists; (split; [reflexivity|]);
    unfold summary_steps; cbn [trace]; rewrite ?flat_map_app;
    cbn [flat_map summary_of app]; now rewrite ?app_nil_r.
Qed.

Lemma train_step_adds_summary (out_dir : string) (epoch batch_num : nat) :
  adds_summaries (train_step num_batches sess_run a out_dir epoch batch_num)
                 [(epoch * num_batches + batch_num)%nat].
Proof.
  unfold train_step.
  change [(epoch * num_batches + batch_num)%nat]
    with ([] ++ [(epoch * num_batches + batch_num)%nat] ++ [] ++ []).
  apply adds_summaries_seq;
    [apply (adds_summaries_emit (EvTrainStep epoch batch_num))|].
  apply adds_summaries_seq;
    [apply (adds_summaries_emit (EvAddSummary (epoch * num_batches + batch_num)))|].
  apply adds_summaries_seq;
    [apply (adds_summaries_emit (EvPrint epoch batch_num))|].
  apply save_step_adds_no_summary.
Qed.

Lemma flat_map_singleton {A B'} (f : A -> B') (l : list A) :
  flat_map (fun x => [f x]) l = map f l.
Proof.
  induction l as [|x l IH]; [reflexivity|]. cbn. now rewrite IH.
Qed.

Lemma train_adds_summaries :
  adds_summaries (train num_batches sess_run a)
                 (seq 0 (Z.to_nat (epochs a) * num_batches)).
Proof.
  unfold train. rewrite <- global_steps_consecutive.
  change (flat_map _ (seq 0 (Z.to_nat (epochs a))))
    with ([] ++ [] ++ [] ++ [] ++ [] ++ []
          ++ flat_map (fun epoch =>
               map (fun batch_num => (epoch * num_batches + batch_num)%nat)
                   (seq 0 num_batches)) (seq 0 (Z.to_nat (epochs a)))).
  apply adds_summaries_seq;
    [apply (adds_summaries_emit (EvCheckpointFn (path_join (data_dir a) "vgg_19.ckpt")))|].
  apply adds_summaries_seq; [apply (adds_summaries_emit EvSession)|].
  apply adds_summaries_seq;
    [apply (adds_summaries_emit (EvFileWriter (path_join (output_dir a) (name a))))|].
  apply adds_summaries_seq; [apply adds_summaries_create_dir|].
  apply adds_summaries_seq; [apply (adds_summaries_emit EvInitVariables)|].
  apply adds_summaries_seq;
    [apply (adds_summaries_emit (EvImageGenerator (path_join (data_dir a) "images")
                                   (num_cpus a) (batch_size a)))|].
  unfold py_range.
  apply adds_summaries_for_each. intros epoch _.
  rewrite <- flat_map_singleton.
  apply adds_summaries_for_each. intros batch_num _.
  apply train_step_adds_summary.
Qed.

End SummaryFacts.

(** The summaries of a run that meets no exception are numbered
    0, 1, ..., [epochs * num_batches - 1], one per training step, without
    gap or repetition (none at all when [epochs <= 0]). *)
Theorem summary_steps_are_consecutive
  (num_batches : nat) (sess_run : nat -> nat -> tensor * tensor * tensor)
  (a : args) (w : world) :
  save_every a <> 0%Z ->
  (forall epoch batch_num, step_image sess_run epoch batch_num <> None) ->
  exists w',
    train num_batches sess_run a w = (Some tt, w') /\
    summary_steps w'
    = summary_steps w ++ seq 0 (Z.to_nat (epochs a) * num_batches).
Proof.
  intros HK Hok. apply (train_adds_summaries num_batches sess_run a HK Hok w).
Qed.

Lemma summary_steps_are_consecutive_witness :
  save_every ex_args <> 0%Z /\
  exists w',
    train 3 ex_sess_run ex_args ex_world_ckpt = (Some tt, w') /\
    summary_steps w' = summary_steps ex_world_ckpt ++ [0; 1; 2; 3; 4; 5]%nat.
Proof.
  split; [discriminate|].
  apply (summary_steps_are_consecutive 3 ex_sess_run ex_args ex_world_ckpt).
  - discriminate.
  - intros epoch batch_num. vm_compute. discriminate.
Defined.

(** ** [save_every] at its bounds *)

(** With [--save-every 0] the first step raises [ZeroDivisionError]: the
    process ends with an uncaught exception after the model is built, the
    output directory created, the workers started and one training step
    run, and without any image or snapshot. *)
Theorem zero_save_every_raises_at_first_step
  (num_batches : nat) (sess_run : nat -> nat -> tensor * tensor * tensor)
  (a : args) (w : world) :
  isfile (path_join (data_dir a) "vgg_19.ckpt") w = true ->
  save_every a = 0%Z -> (0 < epochs a)%Z -> (0 < num_batches)%nat ->
  exists w',
    main num_batches sess_run a w = (Raised, w') /\
    trace w'
    = trace w ++
      [ EvPlaceholder; EvBuildModel (summarize a); EvBuildLoss; EvBuildOptimizer;
        EvCheckpointFn (path_join (data_dir a) "vgg_19.ckpt"); EvSession;
        EvFileWriter (path_join (output_dir a) (name a)); EvInitVariables;
        EvImageGenerator (path_join (data_dir a) "images") (num_cpus a) (batch_size a);
        EvTrainStep 0 0; EvAddSummary 0; EvPrint 0 0 ] /\
    isdir (path_join (output_dir a) (name a)) w' = true /\
    saves w' = saves w.
Proof.
  intros Hfile HK He Hn. unfold main. rewrite Hfile. cbn [negb].
  unfold train, py_range.
  destruct (Z.to_nat (epochs a)) as [|e] eqn:Ee; [lia|].
  destruct num_batches as [|n]; [lia|].
  cbn [seq for_each]. unfold train_step, save_step, py_mod. rewrite HK.
  cbn [Z.eqb lift_option]. unfold bindM, emit, create_dir, raise.
  cbn [fst snd files dirs trace Nat.mul Nat.add].
  eexists. split; [reflexivity|]. cbn [trace dirs].
  split; [now rewrite <- !app_assoc|]. split.
  - unfold isdir, add. cbn [dirs].
    destruct (mem (path_join (output_dir a) (name a)) (dirs w)) eqn:Em;
      [exact Em|].
    unfold mem. cbn [existsb]. now rewrite String.eqb_refl.
  - unfold saves. cbn [trace]. rewrite <- !app_assoc. cbn [app].
    rewrite filter_app. cbn [filter is_save]. now rewrite app_nil_r.
Qed.

Lemma zero_save_every_raises_at_first_step_witness :
  exists w',
    main 3 ex_sess_run
      (get_args "t"%string
         {| cli_data_dir := "data"%string; cli_output_dir := "out"%string;
            cli_batch_size := None; cli_epochs := None; cli_resume := false;
            cli_save_every := Some 0%Z; cli_num_cpus := None;
            cli_summarize := false; cli_name := None |})
      ex_world_ckpt = (Raised, w') /\
    saves w' = saves ex_world_ckpt.
Proof.
  destruct (zero_save_every_raises_at_first_step 3 ex_sess_run
              (get_args "t"%string
                 {| cli_data_dir := "data"%string; cli_output_dir := "out"%string;
                    cli_batch_size := None; cli_epochs := None; cli_resume := false;
                    cli_save_every := Some 0%Z; cli_num_cpus := None;
                    cli_summarize := false; cli_name := None |})
              ex_world_ckpt eq_refl eq_refl eq_refl ltac:(lia))
    as (w' & E & _ & _ & S).
  exists w'. split; [exact E | exact S].
Defined.

Lemma flat_map_all_nil {A B'} (f : A -> list B') (l : list A) :
  (forall x, In x l -> f x = []) -> flat_map f l = [].
Proof.
  induction l as [|x l IH]; intros H; [reflexivity|].
  cbn [flat_map]. rewrite (H x) by now left.
  apply IH. intros y Hy. apply H. now right.
Qed.

Lemma step_saves_first_batch_only (a : args)
  (sess_run : nat -> nat -> tensor * tensor * tensor) (num_batches epoch : nat) :
  (0 < num_batches)%nat -> (Z.of_nat num_batches <= save_every a)%Z ->
  flat_map (step_saves a sess_run epoch) (seq 0 num_batches)
  = [ EvImwrite (output_dir a ++ "/" ++ name a ++ "/images/"
                 ++ format_nat epoch ++ "_0.jpg")%string
                (default [] (step_image sess_run epoch 0));
      EvModelSave (output_dir a ++ "/" ++ name a ++ "/model.ckpt")%string ].
Proof.
  intros Hn HK. destruct num_batches as [|n]; [lia|].
  cbn [seq flat_map]. rewrite flat_map_all_nil.
  - unfold step_saves. cbn [Z.of_nat]. rewrite Z.mod_0_l by lia.
    cbn [Z.eqb]. now rewrite app_nil_r.
  - intros b Hb. apply in_seq in Hb. unfold step_saves.
    rewrite Z.mod_small by lia.
    destruct (Z.eqb_spec (Z.of_nat b) 0); [lia | reflexivity].
Qed.

(** When [save_every] is at least the number of batches of an epoch (as
    with the default 50 on a small data set), [train] saves once per
    epoch, at its first batch. *)
Theorem one_save_per_epoch_when_save_every_is_large
  (num_batches : nat) (sess_run : nat -> nat -> tensor * tensor * tensor)
  (a : args) (w : world) :
  (0 < num_batches)%nat -> (Z.of_nat num_batches <= save_every a)%Z ->
  (forall epoch batch_num, step_image sess_run epoch batch_num <> None) ->
  output_dir a <> ""%string -> ends_with_sep (output_dir a) = false ->
  name a <> ""%string -> starts_with_sep (name a) = false ->
  ends_with_sep (name a) = false ->
  exists w',
    train num_batches sess_run a w = (Some tt, w') /\
    saves w'
    = saves w ++
      flat_map (fun epoch =>
        [ EvImwrite (output_dir a ++ "/" ++ name a ++ "/images/"
                     ++ format_nat epoch ++ "_0.jpg")%string
                    (default [] (step_image sess_run epoch 0));
          EvModelSave (output_dir a ++ "/" ++ name a ++ "/model.ckpt")%string ])
        (seq 0 (Z.to_nat (epochs a))).
Proof.
  intros Hn HK Hok Ho1 Ho2 Hn1 Hn2 Hn3.
  destruct (train_adds num_batches sess_run a ltac:(lia) Hok Ho1 Ho2 Hn1 Hn2 Hn3 w)
    as (w' & E & S).
  exists w'. split; [exact E|]. rewrite S. f_equal.
  unfold expected_saves. apply flat_map_ext. intros epoch.
  now apply step_saves_first_batch_only.
Qed.

Lemma one_save_per_epoch_when_save_every_is_large_witness :
  (Z.of_nat 3 <= save_every (get_args "run"%string
     {| cli_data_dir := "data"%string; cli_output_dir := "out"%string;
        cli_batch_size := None; cli_epochs := Some 2%Z; cli_resume := false;
        cli_save_every := None; cli_num_cpus := None;
        cli_summarize := false; cli_name := None |}))%Z /\
  exists w',
    train 3 ex_sess_run (get_args "run"%string
     {| cli_data_dir := "data"%string; cli_output_dir := "out"%string;
        cli_batch_size := None; cli_epochs := Some 2%Z; cli_resume := false;
        cli_save_every := None; cli_num_cpus := None;
        cli_summarize := false; cli_name := None |}) ex_world_ckpt
    = (Some tt, w') /\
    length (saves w') = 4%nat.
Proof.
  split; [cbn; lia|].
  destruct (one_save_per_epoch_when_save_every_is_large 3 ex_sess_run
              (get_args "run"%string
                 {| cli_data_dir := "data"%string; cli_output_dir := "out"%string;
                    cli_batch_size := None; cli_epochs := Some 2%Z;
                    cli_resume := false; cli_save_every := None;
                    cli_num_cpus := None; cli_summarize := false;
                    cli_name := None |})
              ex_world_ckpt ltac:(lia) ltac:(cbn; lia)
              ltac:(intros; vm_compute; discriminate)
              ltac:(discriminate) eq_refl ltac:(discriminate) eq_refl eq_refl)
    as (w' & E & S).
  exists w'. split; [exact E|]. rewrite S. reflexivity.
Defined.

(** ** What a run leaves on disk *)

Lemma mem_add_same (p : string) (l : list string) : mem p (add p l) = true.
Proof.
  unfold add. destruct (mem p l) eqn:E; [exact E|].
  unfold mem. cbn [existsb]. now rewrite String.eqb_refl.
Qed.

Lemma mem_add_keep (p q : string) (l : list string) :
  mem q l = true -> mem q (add p l) = true.
Proof.
  intros H. unfold add. destruct (mem p l); [exact H|].
  unfold mem in *. cbn [existsb]. rewrite H. apply orb_true_r.
Qed.

Lemma extends_refl (w : world) : extends w w.
Proof. split; auto. Qed.

Lemma extends_trans (w1 w2 w3 : world) :
  extends w1 w2 -> extends w2 w3 -> extends w1 w3.
Proof. intros [F1 D1] [F2 D2]. split; auto. Qed.

Lemma present_extends (fs ds : list string) (w w' : world) :
  extends w w' -> present fs ds w -> present fs ds w'.
Proof. intros [F D] [Pf Pd]. split; auto. Qed.

Lemma ensures_ret : ensures (ret tt) [] [].
Proof.
  intros w. exists w. split; [reflexivity|].
  split; [apply extends_refl | split; intros ? []].
Qed.

Lemma ensures_emit (e : event) : ensures (emit e) [] [].
Proof.
  intros w. eexists. split; [reflexivity|].
  split; [split; auto | split; intros ? []].
Qed.

Lemma ensures_create_dir (d : string) : ensures (create_dir d) [] [d].
Proof.
  intros w. eexists. split; [reflexivity|]. split; [split|split].
  - auto.
  - intros d' Hd'. now apply mem_add_keep.
  - intros ? [].
  - intros d' [<-|[]]. apply mem_add_same.
Qed.

Lemma ensures_seq (m k : M unit) (fs fs' ds ds' : list string) :
  ensures m fs ds -> ensures k fs' ds' ->
  ensures (m >> k) (fs ++ fs') (ds ++ ds').
Proof.
  intros Hm Hk w. destruct (Hm w) as (w1 & E1 & X1 & [Pf1 Pd1]).
  destruct (Hk w1) as (w2 & E2 & X2 & [Pf2 Pd2]). exists w2.
  unfold bindM. rewrite E1. split; [exact E2|].
  split; [now apply (extends_trans w w1 w2)|]. destruct X2 as [F2 D2]. split.
  - intros p Hp. apply in_app_or in Hp as [Hp|Hp]; auto.
  - intros d Hd. apply in_app_or in Hd as [Hd|Hd]; auto.
Qed.

Lemma ensures_for_each {A} (body : A -> M unit) (xs : list A) :
  (forall x, In x xs -> ensures (body x) [] []) ->
  ensures (for_each xs body) [] [].
Proof.
  induction xs as [|x xs IH]; intros Hb; cbn [for_each].
  - apply ensures_ret.
  - apply (ensures_seq _ _ [] [] [] []); [apply Hb; now left|].
    apply IH. intros y Hy. apply Hb. now right.
Qed.

Lemma ensures_for_each_first {A} (body : A -> M unit) (x : A) (xs : list A)
  (fs ds : list string) :
  ensures (body x) fs ds ->
  (forall y, In y xs -> ensures (body y) [] []) ->
  ensures (for_each (x :: xs) body) fs ds.
Proof.
  intros Hx Hxs. cbn [for_each].
  rewrite <- (app_nil_r fs), <- (app_nil_r ds).
  apply ensures_seq; [exact Hx | now apply ensures_for_each].
Qed.

Lemma seq_pos (n : nat) : (0 < n)%nat -> seq 0 n = 0%nat :: seq 1 (n - 1).
Proof.
  intros Hn. destruct n as [|n]; [lia|].
  replace (S n - 1)%nat with n by lia. reflexivity.
Qed.

Section DiskFacts.

Variable num_batches : nat.
Variable sess_run : nat -> nat -> tensor * tensor * tensor.
Variable a : args.

Hypothesis save_every_not_zero : save_every a <> 0%Z.
Hypothesis batches_well_shaped :
  forall epoch batch_num, step_image sess_run epoch batch_num <> None.

Local Abbreviation out_dir := (path_join (output_dir a) (name a)).
Local Abbreviation image_dir := (path_join (path_join (output_dir a) (name a)) "images").

Lemma save_step_ensures (epoch batch_num : nat) :
  ensures (save_step sess_run a out_dir epoch batch_num) [] [] /\
  ((Z.of_nat batch_num mod save_every a = 0)%Z ->
   ensures (save_step sess_run a out_dir epoch batch_num)
     [path_join image_dir
        (format_nat epoch ++ "_" ++ format_nat batch_num ++ ".jpg")%string]
     [image_dir]).
Proof.
  unfold save_step, py_mod.
  destruct (Z.eqb_spec (save_every a) 0); [contradiction|].
  pose proof (batches_well_shaped epoch batch_num) as Hok.
  unfold step_image in Hok.
  destruct (sess_run epoch batch_num) as [[fake real] bw].
  destruct (save_images fake real bw) as [img|]; [clear Hok | contradiction].
  unfold lift_option, bindM, ret, get_isdir, emit, create_dir, write_file.
  split.
  - intros w. destruct (Z.of_nat batch_num mod save_every a =? 0)%Z.
    2: { exists w. split; [reflexivity|].
         split; [apply extends_refl | split; intros ? []]. }
    destruct (isdir image_dir w) eqn:Ed; cbn [negb fst snd files dirs trace];
      (eexists; split; [reflexivity|]);
      (split; [split; unfold isfile, isdir; cbn [files dirs]; intros;
               repeat apply mem_add_keep; assumption
              | split; intros ? []]).
  - intros Hmod w. rewrite Hmod. cbn [Z.eqb].
    destruct (isdir image_dir w) eqn:Ed; cbn [negb fst snd files dirs trace];
      (eexists; split; [reflexivity|]);
      (split; [split; unfold isfile, isdir; cbn [files dirs]; intros;
               repeat apply mem_add_keep; assumption|]);
      (split; unfold isfile, isdir; cbn [files dirs]).
    + intros p [<-|[]]. apply mem_add_same.
    + intros d [<-|[]]. exact Ed.
    + intros p [<-|[]]. apply mem_add_same.
    + intros d [<-|[]]. apply mem_add_same.
Qed.

Lemma train_step_ensures (epoch batch_num : nat) :
  ensures (train_step num_batches sess_run a out_dir epoch batch_num) [] [] /\
  ((Z.of_nat batch_num mod save_every a = 0)%Z ->
   ensures (train_step num_batches sess_run a out_dir epoch batch_num)
     [path_join image_dir
        (format_nat epoch ++ "_" ++ format_nat batch_num ++ ".jpg")%string]
     [image_dir]).
Proof.
  destruct (save_step_ensures epoch batch_num) as [Hk Hs].
  unfold train_step. split; [|intros Hmod; specialize (Hs Hmod)].
  - apply (ensures_seq _ _ [] [] [] []); [apply ensures_emit|].
    apply (ensures_seq _ _ [] [] [] []); [apply ensures_emit|].
    apply (ensures_seq _ _ [] [] [] []); [apply ensures_emit | exact Hk].
  - apply (ensures_seq _ _ [] _ [] _); [apply ensures_emit|].
    apply (ensures_seq _ _ [] _ [] _); [apply ensures_emit|].
    apply (ensures_seq _ _ [] _ [] _); [apply ensures_emit | exact Hs].
Qed.

Lemma train_ensures :
  (0 < epochs a)%Z -> (0 < num_batches)%nat ->
  ensures (train num_batches sess_run a)
    [path_join image_dir "0_0.jpg"] [out_dir; image_dir].
Proof.
  intros He Hn. unfold train, py_range.
  rewrite (seq_pos (Z.to_nat (epochs a))) by lia.
  rewrite (seq_pos num_batches) by exact Hn.
  apply (ensures_seq _ _ [] _ [] _); [apply ensures_emit|].
  apply (ensures_seq _ _ [] _ [] _); [apply ensures_emit|].
  apply (ensures_seq _ _ [] _ [] _); [apply ensures_emit|].
  apply (ensures_seq _ _ [] _ [out_dir] [image_dir]); [apply ensures_create_dir|].
  apply (ensures_seq _ _ [] _ [] _); [apply ensures_emit|].
  apply (ensures_seq _ _ [] _ [] _); [apply ensures_emit|].
  apply ensures_for_each_first.
  - apply ensures_for_each_first.
    + apply (proj2 (train_step_ensures 0 0)). apply Z.mod_0_l. exact save_every_not_zero.
    + intros b _. apply train_step_ensures.
  - intros epoch _. apply ensures_for_each. intros b _. apply train_step_ensures.
Qed.

End DiskFacts.

(** A run of at least one step that meets no exception leaves the
    output directory, its [images] directory and the first tile
    [0_0.jpg] in place. *)
Theorem successful_run_leaves_outputs
  (num_batches : nat) (sess_run : nat -> nat -> tensor * tensor * tensor)
  (a : args) (w : world) :
  save_every a <> 0%Z ->
  (forall epoch batch_num, step_image sess_run epoch batch_num <> None) ->
  (0 < epochs a)%Z -> (0 < num_batches)%nat ->
  exists w',
    train num_batches sess_run a w = (Some tt, w') /\
    isdir (path_join (output_dir a) (name a)) w' = true /\
    isdir (path_join (path_join (output_dir a) (name a)) "images") w' = true /\
    isfile (path_join (path_join (path_join (output_dir a) (name a)) "images")
                      "0_0.jpg") w' = true.
Proof.
  intros HK Hok He Hn.
  destruct (train_ensures num_batches sess_run a HK Hok He Hn w)
    as (w' & E & _ & [Pf Pd]).
  exists w'. split; [exact E|].
  split; [apply Pd; now left|]. split; [apply Pd; right; now left|].
  apply Pf; now left.
Qed.

Lemma successful_run_leaves_outputs_witness :
  exists w',
    train 3 ex_sess_run ex_args ex_world_ckpt = (Some tt, w') /\
    isdir "out/run" w' = true /\
    isdir "out/run/images" w' = true /\
    isfile "out/run/images/0_0.jpg" w' = true.
Proof.
  exact (successful_run_leaves_outputs 3 ex_sess_run ex_args ex_world_ckpt
           ltac:(discriminate) ltac:(intros; vm_compute; discriminate)
           eq_refl ltac:(lia)).
Defined.

(** ** [os.mkdir] *)

Lemma keeps_invariant_ret (I : world -> Prop) : keeps_invariant I (ret tt).
Proof. intros w Hw. now exists w. Qed.

Lemma keeps_invariant_seq (I : world -> Prop) (m k : M unit) :
  keeps_invariant I m -> keeps_invariant I k -> keeps_invariant I (m >> k).
Proof.
  intros Hm Hk w Hw. destruct (Hm w Hw) as (w1 & E1 & I1).
  destruct (Hk w1 I1) as (w2 & E2 & I2). exists w2.
  unfold bindM. rewrite E1. now split.
Qed.

Lemma keeps_invariant_for_each {A} (I : world -> Prop) (body : A -> M unit)
  (xs : list A) :
  (forall x, In x xs -> keeps_invariant I (body x)) ->
  keeps_invariant I (for_each xs body).
Proof.
  induction xs as [|x xs IH]; intros Hb; cbn [for_each].
  - apply keeps_invariant_ret.
  - apply keeps_invariant_seq; [apply Hb; now left|].
    apply IH. intros y Hy. apply Hb. now right.
Qed.

Lemma made_at_most_emit (made : list string) (d : string) (e : event) :
  mkdir_of e = [] -> keeps_invariant (made_at_most made d) (emit e).
Proof.
  intros He w Hw. eexists. split; [reflexivity|].
  unfold made_at_most, mkdirs, isdir in *. cbn [trace dirs].
  rewrite flat_map_app. cbn [flat_map]. rewrite He, !app_nil_r. exact Hw.
Qed.

Lemma made_at_most_create_dir (made : list string) (d p : string) :
  keeps_invariant (made_at_most made d) (create_dir p).
Proof.
  intros w Hw. eexists. split; [reflexivity|].
  unfold made_at_most, mkdirs, isdir in *. cbn [trace dirs].
  destruct Hw as [Hw | [Hw Hd]]; [now left | right].
  split; [exact Hw | now apply mem_add_keep].
Qed.

Section MkdirFacts.

Variable num_batches : nat.
Variable sess_run : nat -> nat -> tensor * tensor * tensor.
Variable a : args.

Hypothesis save_every_not_zero : save_every a <> 0%Z.
Hypothesis batches_well_shaped :
  forall epoch batch_num, step_image sess_run epoch batch_num <> None.

Local Abbreviation out_dir := (path_join (output_dir a) (name a)).
Local Abbreviation image_dir := (path_join (path_join (output_dir a) (name a)) "images").

Lemma made_at_most_save_step (made : list string) (epoch batch_num : nat) :
  keeps_invariant (made_at_most made image_dir)
    (save_step sess_run a out_dir epoch batch_num).
Proof.
  unfold save_step, py_mod.
  destruct (Z.eqb_spec (save_every a) 0); [contradiction|].
  pose proof (batches_well_shaped epoch batch_num) as Hok.
  unfold step_image in Hok.
  destruct (sess_run epoch batch_num) as [[fake real] bw].
  destruct (save_images fake real bw) as [img|]; [clear Hok | contradiction].
  unfold lift_option, bindM, ret, get_isdir, emit, create_dir, write_file.
  intros w Hw. destruct (Z.of_nat batch_num mod save_every a =? 0)%Z.
  2: { now exists w. }
  destruct (isdir image_dir w) eqn:Ed; cbn [negb fst snd files dirs trace];
    (eexists; split; [reflexivity|]);
    unfold made_at_most, mkdirs, isdir in *; cbn [trace dirs];
    rewrite !flat_map_app; cbn [flat_map mkdir_of app]; rewrite ?app_nil_r.
  - destruct Hw as [Hw | [Hw Hd]]; [now left | now right].
  - destruct Hw as [Hw | [Hw Hd]]; [|congruence].
    right. rewrite Hw. split; [reflexivity | apply mem_add_same].
Qed.

Lemma made_at_most_train (made : list string) :
  keeps_invariant (made_at_most made image_dir) (train num_batches sess_run a).
Proof.
  unfold train.
  apply keeps_invariant_seq; [now apply made_at_most_emit|].
  apply keeps_invariant_seq; [now apply made_at_most_emit|].
  apply keeps_invariant_seq; [now apply made_at_most_emit|].
  apply keeps_invariant_seq; [apply made_at_most_create_dir|].
  apply keeps_invariant_seq; [now apply made_at_most_emit|].
  apply keeps_invariant_seq; [now apply made_at_most_emit|].
  apply keeps_invariant_for_each. intros epoch _.
  apply keeps_invariant_for_each. intros batch_num _.
  unfold train_step.
  apply keeps_invariant_seq; [now apply made_at_most_emit|].
  apply keeps_invariant_seq; [now apply made_at_most_emit|].
  apply keeps_invariant_seq; [now apply made_at_most_emit|].
  apply made_at_most_save_step.
Qed.

End MkdirFacts.

(** During a run [os.mkdir] is called at most once, for the [images]
    directory, which exists afterwards: the guard of line 163 keeps later
    saves from making it again. *)
Theorem images_directory_made_at_most_once
  (num_batches : nat) (sess_run : nat -> nat -> tensor * tensor * tensor)
  (a : args) (w : world) :
  save_every a <> 0%Z ->
  (forall epoch batch_num, step_image sess_run epoch batch_num <> None) ->
  exists w',
    train num_batches sess_run a w = (Some tt, w') /\
    (mkdirs w' = mkdirs w \/
     mkdirs w'
     = mkdirs w ++ [path_join (path_join (output_dir a) (name a)) "images"] /\
     isdir (path_join (path_join (output_dir a) (name a)) "images") w' = true).
Proof.
  intros HK Hok.
  apply (made_at_most_train num_batches sess_run a HK Hok (mkdirs w) w).
  now left.
Qed.

Lemma images_directory_made_at_most_once_witness :
  exists w',
    train 3 ex_sess_run ex_args ex_world_ckpt = (Some tt, w') /\
    (mkdirs w' = mkdirs ex_world_ckpt \/
     mkdirs w' = mkdirs ex_world_ckpt ++ ["out/run/images"%string] /\
     isdir "out/run/images" w' = true).
Proof.
  apply (images_directory_made_at_most_once 3 ex_sess_run ex_args ex_world_ckpt).
  - discriminate.
  - intros epoch batch_num. vm_compute. discriminate.
Defined.

(** ** [main] with the checkpoint in place *)

(** With the checkpoint file present and no exception in [train], [main]
    returns, and its save events are those of [train]. *)
Theorem main_returns_after_training
  (num_batches : nat) (sess_run : nat -> nat -> tensor * tensor * tensor)
  (a : args) (w : world) :
  isfile (path_join (data_dir a) "vgg_19.ckpt") w = true ->
  save_every a <> 0%Z ->
  (forall epoch batch_num, step_image sess_run epoch batch_num <> None) ->
  output_dir a <> ""%string -> ends_with_sep (output_dir a) = false ->
  name a <> ""%string -> starts_with_sep (name a) = false ->
  ends_with_sep (name a) = false ->
  exists w',
    main num_batches sess_run a w = (Returned, w') /\
    saves w' = saves w ++ expected_saves a num_batches sess_run /\
    summary_steps w'
    = summary_steps w ++ seq 0 (Z.to_nat (epochs a) * num_batches).
Proof.
  intros Hfile HK Hok Ho1 Ho2 Hn1 Hn2 Hn3.
  assert (Hs : adds_saves
                 (emit EvPlaceholder >> emit (EvBuildModel (summarize a)) >>
                  emit EvBuildLoss >> emit EvBuildOptimizer >>
                  train num_batches sess_run a)
                 ([] ++ [] ++ [] ++ [] ++ expected_saves a num_batches sess_run)).
  { apply adds_saves_seq; [apply (adds_saves_emit EvPlaceholder)|].
    apply adds_saves_seq; [apply (adds_saves_emit (EvBuildModel (summarize a)))|].
    apply adds_saves_seq; [apply (adds_saves_emit EvBuildLoss)|].
    apply adds_saves_seq; [apply (adds_saves_emit EvBuildOptimizer)|].
    now apply train_adds. }
  assert (Hc : adds_summaries
                 (emit EvPlaceholder >> emit (EvBuildModel (summarize a)) >>
                  emit EvBuildLoss >> emit EvBuildOptimizer >>
                  train num_batches sess_run a)
                 ([] ++ [] ++ [] ++ []
                  ++ seq 0 (Z.to_nat (epochs a) * num_batches))).
  { apply adds_summaries_seq; [apply (adds_summaries_emit EvPlaceholder)|].
    apply adds_summaries_seq;
      [apply (adds_summaries_emit (EvBuildModel (summarize a)))|].
    apply adds_summaries_seq; [apply (adds_summaries_emit EvBuildLoss)|].
    apply adds_summaries_seq; [apply (adds_summaries_emit EvBuildOptimizer)|].
    now apply train_adds_summaries. }
  destruct (Hs w) as (w' & E & S). destruct (Hc w) as (w'' & E' & S').
  rewrite E in E'. injection E' as <-.
  exists w'. unfold main. rewrite Hfile. cbn [negb]. rewrite E.
  split; [reflexivity|]. split; [exact S | exact S'].
Qed.

Lemma main_returns_after_training_witness :
  isfile (path_join (data_dir ex_args) "vgg_19.ckpt") ex_world_ckpt = true /\
  exists w',
    main 3 ex_sess_run ex_args ex_world_ckpt = (Returned, w') /\
    saves w' = saves ex_world_ckpt ++ expected_saves ex_args 3 ex_sess_run /\
    summary_steps w' = summary_steps ex_world_ckpt ++ [0; 1; 2; 3; 4; 5]%nat.
Proof.
  split; [reflexivity|].
  apply (main_returns_after_training 3 ex_sess_run ex_args ex_world_ckpt).
  - reflexivity.
  - discriminate.
  - intros epoch batch_num. vm_compute. discriminate.
  - discriminate.
  - reflexivity.
  - discriminate.
  - reflexivity.
  - reflexivity.
Defined.

(** * [timestamp] and the names of the output files *)

Local Open Scope string_scope.

Lemma has_sep_append (s t : string) :
  has_sep (s ++ t) = has_sep s || has_sep t.
Proof.
  induction s as [|c s IH]; [reflexivity|].
  cbn [append has_sep]. now rewrite IH, orb_assoc.
Qed.

Lemma has_sep_zeros (k : nat) : has_sep (zeros k) = false.
Proof. induction k as [|k IH]; [reflexivity | exact IH]. Qed.

Lemma has_sep_string_of_uint (d : Decimal.uint) :
  has_sep (NilEmpty.string_of_uint d) = false.
Proof. induction d; cbn [NilEmpty.string_of_uint has_sep]; auto. Qed.

Lemma has_sep_zfill (width n : nat) : has_sep (zfill width n) = false.
Proof.
  unfold zfill, format_nat.
  now rewrite has_sep_append, has_sep_zeros, has_sep_string_of_uint.
Qed.

Lemma no_sep_starts (s : string) : has_sep s = false -> starts_with_sep s = false.
Proof.
  destruct s as [|c s]; [reflexivity|]. cbn [has_sep starts_with_sep].
  intros H. now apply orb_false_elim in H.
Qed.

Lemma no_sep_ends (s : string) : has_sep s = false -> ends_with_sep s = false.
Proof.
  induction s as [|c s IH]; [reflexivity|]. cbn [has_sep ends_with_sep].
  intros H. apply orb_false_elim in H as [Hc Hs].
  destruct s; [exact Hc | now apply IH].
Qed.

Lemma timestamp_has_no_sep (now : datetime) : has_sep (timestamp now) = false.
Proof.
  unfold timestamp. rewrite !has_sep_append, !has_sep_zfill. reflexivity.
Qed.

(** Without [--name] the experiment name is the timestamp, which is not
    empty and contains no path separator, so that the run directory is
    [<output_dir>/<timestamp>]. *)
Theorem default_name_is_one_path_component (now : datetime) (c : cli) :
  cli_name c = None ->
  cli_output_dir c <> "" -> ends_with_sep (cli_output_dir c) = false ->
  let a := get_args (timestamp now) c in
  name a = timestamp now /\
  has_sep (name a) = false /\
  name a <> "" /\ starts_with_sep (name a) = false /\
  ends_with_sep (name a) = false /\
  path_join (output_dir a) (name a) = cli_output_dir c ++ "/" ++ timestamp now.
Proof.
  intros Hname Ho1 Ho2. cbv zeta. unfold get_args. cbn [name output_dir].
  rewrite Hname. cbn [default].
  pose proof (timestamp_has_no_sep now) as Hs.
  split; [reflexivity|]. split; [exact Hs|].
  split; [unfold timestamp; discriminate|].
  split; [now apply no_sep_starts|]. split; [now apply no_sep_ends|].
  apply path_join_plain; [exact Ho1 | exact Ho2 | now apply no_sep_starts].
Qed.

Lemma default_name_is_one_path_component_witness :
  let now := {| year := 2018; month := 3; day := 7; hour := 9; minute := 5;
                second := 0; microsecond := 42 |} in
  let c := {| cli_data_dir := "data"; cli_output_dir := "out";
              cli_batch_size := None; cli_epochs := None; cli_resume := false;
              cli_save_every := None; cli_num_cpus := None;
              cli_summarize := false; cli_name := None |} in
  timestamp now = "sgru-2018-03-07-09-05-00-000042" /\
  path_join (output_dir (get_args (timestamp now) c))
            (name (get_args (timestamp now) c))
  = "out/sgru-2018-03-07-09-05-00-000042".
Proof.
  cbv zeta. split; [reflexivity|].
  etransitivity;
    [ apply (default_name_is_one_path_component
               {| year := 2018; month := 3; day := 7; hour := 9; minute := 5;
                  second := 0; microsecond := 42 |}
               {| cli_data_dir := "data"; cli_output_dir := "out";
                  cli_batch_size := None; cli_epochs := None;
                  cli_resume := false; cli_save_every := None;
                  cli_num_cpus := None; cli_summarize := false;
                  cli_name := None |});
      [reflexivity | discriminate | reflexivity]
    | reflexivity ].
Defined.

Lemma append_cancel_l (p s t : string) : p ++ s = p ++ t -> s = t.
Proof.
  induction p as [|c p IH]; [auto|]. cbn [append]. intros [= E]. now apply IH.
Qed.

Lemma digits_before_underscore (d : Decimal.uint) : forall d' s s',
  NilEmpty.string_of_uint d ++ String "_" s
  = NilEmpty.string_of_uint d' ++ String "_" s' ->
  d = d' /\ s = s'.
Proof.
  induction d; intros d' s s' E; destruct d';
    cbn [NilEmpty.string_of_uint append] in E;
    try discriminate E;
    try (injection E as E; destruct (IHd _ _ _ E) as [-> ->]; now split).
  injection E as ->. now split.
Qed.

Lemma digits_before_dot (d : Decimal.uint) : forall d' s s',
  NilEmpty.string_of_uint d ++ String "." s
  = NilEmpty.string_of_uint d' ++ String "." s' ->
  d = d' /\ s = s'.
Proof.
  induction d; intros d' s s' E; destruct d';
    cbn [NilEmpty.string_of_uint append] in E;
    try discriminate E;
    try (injection E as E; destruct (IHd _ _ _ E) as [-> ->]; now split).
  injection E as ->. now split.
Qed.

(** Two steps write their tiles to the same file only if they are the
    same step: no tile of a run overwrites another. *)
Theorem image_file_names_are_distinct (a : args) (epoch batch_num epoch' batch_num' : nat) :
  output_dir a ++ "/" ++ name a ++ "/images/"
    ++ format_nat epoch ++ "_" ++ format_nat batch_num ++ ".jpg"
  = output_dir a ++ "/" ++ name a ++ "/images/"
    ++ format_nat epoch' ++ "_" ++ format_nat batch_num' ++ ".jpg" ->
  epoch = epoch' /\ batch_num = batch_num'.
Proof.
  intros E.
  apply append_cancel_l, (append_cancel_l "/"), append_cancel_l,
        (append_cancel_l "/images/") in E.
  unfold format_nat in E.
  apply digits_before_underscore in E as [Ee Eb].
  apply digits_before_dot in Eb as [Eb _].
  split; now apply DecimalNat.Unsigned.to_uint_inj.
Qed.

Lemma image_file_names_are_distinct_witness :
  output_dir ex_args ++ "/" ++ name ex_args ++ "/images/"
    ++ format_nat 1 ++ "_" ++ format_nat 12 ++ ".jpg"
  = "out/run/images/1_12.jpg" /\
  (1 = 1 /\ 12 = 12)%nat.
Proof.
  split; [reflexivity|].
  apply (image_file_names_are_distinct ex_args 1 12 1 12). reflexivity.
Defined.

Local Close Scope string_scope.

(** * Errors of [build_loss_func] *)

Lemma mapM_fails {A B} (f : A -> option B) (l : list A) (x : A) :
  In x l -> f x = None -> mapM f l = None.
Proof.
  induction l as [|a l IH]; intros Hin Hx; [contradiction|].
  cbn [mapM]. destruct Hin as [->|Hin].
  - now rewrite Hx.
  - destruct (f a); [cbn [bind]|reflexivity]. now rewrite IH.
Qed.

Lemma zip_with_opt_length_mismatch {A B C} (f : A -> B -> option C)
  (xs : list A) : forall ys : list B,
  length xs <> length ys -> zip_with_opt f xs ys = None.
Proof.
  induction xs as [|x xs IH]; intros [|y ys] H; cbn in H |- *;
    try reflexivity; try contradiction.
  destruct (f x y); [cbn [bind]|reflexivity].
  rewrite IH by lia. reflexivity.
Qed.

Lemma bcast_length_mismatch {A B C} (f : A -> B -> option C)
  (xs : list A) (ys : list B) :
  length xs <> length ys -> length xs <> 1%nat -> length ys <> 1%nat ->
  bcast f xs ys = None.
Proof.
  intros Hne Hx Hy.
  destruct xs as [|x [|x' xs]], ys as [|y [|y' ys]]; cbn in Hne, Hx, Hy;
    try contradiction; try reflexivity.
  unfold bcast. apply zip_with_opt_length_mismatch. exact Hne.
Qed.

Lemma bcast_first_fails {A B C} (f : A -> B -> option C)
  (x : A) (xs : list A) (y : B) (ys : list B) :
  f x y = None -> bcast f (x :: xs) (y :: ys) = None.
Proof.
  intros H. destruct xs as [|x' xs], ys as [|y' ys]; cbn; now rewrite H.
Qed.

Lemma lift4_rows_mismatch (op : Q -> Q -> Q) (B H W K H' W' K' : nat)
  (s t : tensor) :
  shaped B H W K s -> shaped B H' W' K' t ->
  (0 < B)%nat -> H <> H' -> H <> 1%nat -> H' <> 1%nat ->
  lift4 op s t = None.
Proof.
  intros [Hs1 Hs] [Ht1 Ht] HB Hne H1 H1'.
  destruct (Hs 0%nat HB) as [Hx _]. destruct (Ht 0%nat HB) as [Hy _].
  destruct s as [|x s]; [cbn in Hs1; lia|].
  destruct t as [|y t]; [cbn in Ht1; lia|].
  cbn [nth] in Hx, Hy. unfold lift4.
  apply bcast_first_fails. apply bcast_length_mismatch; lia.
Qed.

(** When the ground-truth images and the candidates differ in height
    (neither height being 1), the subtraction of the raw pixel layer is
    ill-shaped and no loss is built. *)
Theorem build_loss_func_rejects_size_mismatch
  (vgg_19 : tensor -> end_points) (resize_images : tensor -> nat * nat -> tensor)
  (B H W H' W' : nat) (bw fakes real : tensor) :
  (0 < B)%nat -> H <> H' -> H <> 1%nat -> H' <> 1%nat ->
  has_shape B H W 27 fakes = true -> has_shape B H' W' 3 real = true ->
  build_loss_func vgg_19 resize_images
    {| image_bw := bw; images_rgb_fake := fakes |} real = None.
Proof.
  intros HB Hne H1 H1' Hf Hr.
  apply has_shape_shaped in Hf, Hr.
  unfold build_loss_func, build_loss_func_with. cbn [image_bw images_rgb_fake].
  unfold vgg_19_evaluate at 1.
  destruct (normalize_defined B H' W' real Hr) as [t ->]. cbn [bind].
  rewrite (mapM_fails _ _ 0%nat); [reflexivity | now left |].
  unfold loss_collection. fold (candidate 0 fakes).
  assert (Hc : shaped B H W 3 (candidate 0 fakes))
    by (apply (shaped_candidate 9); [exact Hf | lia]).
  unfold vgg_19_evaluate.
  destruct (normalize_defined B H W _ Hc) as [t' ->]. cbn [bind].
  rewrite (mapM_fails _ _ (nth 0 lambda_weights 0, "input"%string));
    [reflexivity | now left |].
  cbn [snd fst activations String.eqb Ascii.eqb Bool.eqb bind].
  unfold loss_inner, tf_sub.
  now rewrite (lift4_rows_mismatch Qminus B H W 3 H' W' 3 _ _ Hc Hr).
Qed.

Lemma build_loss_func_rejects_size_mismatch_witness :
  has_shape 1 2 1 27 (map (fun img => img ++ img) ex_fakes) = true /\
  has_shape 1 3 1 3 (map (fun img => img ++ img ++ img) ex_real) = true /\
  build_loss_func identity_features constant_resize
    {| image_bw := ex_bw;
       images_rgb_fake := map (fun img => img ++ img) ex_fakes |}
    (map (fun img => img ++ img ++ img) ex_real) = None.
Proof.
  split; [reflexivity|]. split; [reflexivity|].
  apply (build_loss_func_rejects_size_mismatch identity_features constant_resize
           1 2 1 3 1); (lia || reflexivity).
Defined.

(** When the extractor's dictionary lacks one of the five named layers,
    for the ground truth or for a candidate, the lookup raises and no
    loss is built. *)
Theorem build_loss_func_missing_layer_raises
  (vgg_19 : tensor -> end_points) (resize_images : tensor -> nat * nat -> tensor)
  (bw fakes real : tensor) (layer : string) :
  In layer (tl layers) ->
  vgg_19 real layer = None \/
  (exists i, (i < collection_size)%nat /\ vgg_19 (candidate i fakes) layer = None) ->
  build_loss_func vgg_19 resize_images
    {| image_bw := bw; images_rgb_fake := fakes |} real = None.
Proof.
  intros Hin Hmiss.
  destruct (in_combine_weight lambda_weights layers layer eq_refl
              (in_cons _ _ _ Hin)) as [w Hw].
  pose proof (vgg_layer_not_input layer Hin) as Hni.
  unfold build_loss_func, build_loss_func_with. cbn [image_bw images_rgb_fake].
  unfold vgg_19_evaluate at 1.
  destruct (normalize real); [cbn [bind]|reflexivity].
  assert (Hfail : forall i,
            vgg_19 real layer = None \/ vgg_19 (candidate i fakes) layer = None ->
            loss_collection vgg_19 resize_images lambda_weights bw fakes real
              (vgg_19 real) i = None).
  { intros i Hi. unfold loss_collection. fold (candidate i fakes).
    unfold vgg_19_evaluate.
    destruct (normalize (candidate i fakes)); [cbn [bind]|reflexivity].
    rewrite (mapM_fails _ _ (w, layer) Hw); [reflexivity|].
    cbn [fst snd]. unfold activations. rewrite Hni.
    destruct Hi as [Hr|Hf].
    - rewrite Hr. now destruct (vgg_19 (candidate i fakes) layer).
    - now rewrite Hf. }
  destruct Hmiss as [Hr | (i & Hi & Hf)].
  - rewrite (mapM_fails _ _ 0%nat); [reflexivity | now left | apply Hfail; now left].
  - rewrite (mapM_fails _ _ i); [reflexivity | apply in_seq; lia |].
    apply Hfail. now right.
Qed.

Lemma build_loss_func_missing_layer_raises_witness :
  build_loss_func
    (fun img layer =>
       if String.eqb layer "vgg_19/conv3/conv3_2" then None else Some img)
    constant_resize
    {| image_bw := ex_bw; images_rgb_fake := ex_fakes |} ex_real = None.
Proof.
  apply (build_loss_func_missing_layer_raises
           (fun img layer =>
              if String.eqb layer "vgg_19/conv3/conv3_2" then None else Some img)
           constant_resize ex_bw ex_fakes ex_real "vgg_19/conv3/conv3_2"%string).
  - cbn. auto.
  - now left.
Defined.
